(** * traders-parser-evm: the resumable holder crawl, its checkpoint store
      and its proxy pool

    A shallow embedding of
      - [app/services/manager/db_manager.py]   (checkpoint store),
      - [app/services/manager/proxy_manager.py] (proxy pool),
      - [app/services/contract/models.py]       (API response wrappers),
      - [app/services/contract/services/token_holders_service.py] and
        [app/services/contract/get_holders.py]  (the two crawl engines),
    followed by the properties the specification states about them.

    Python values that reach the JSON files are modelled by [json]; the
    three checkpoint files hold a [json] document, or nothing when the file
    is missing or is not valid JSON.  Exceptions are values of [exn], and
    every stateful function is a function from the [World] to a result and
    the next [World]. *)

From Stdlib Require Import List String Ascii ZArith Bool Lia Arith.
From Stdlib Require Import Eqdep_dec Permutation.
Import ListNotations.
Local Open Scope string_scope.
Local Open Scope Z_scope.


Set Warnings "-register-all".


(* ================================================================== *)
(** * Python values *)
(* ================================================================== *)

(** Values that [json.load] returns and [json.dump] accepts.  A dictionary
    keeps its insertion order, as Python dictionaries do; floats do not
    occur in the checkpoint files and are left out. *)
Inductive json : Type :=
| JNull
| JBool (b : bool)
| JInt (n : Z)
| JStr (s : string)
| JList (l : list json)
| JDict (kv : list (string * json)).

Definition dict := list (string * json).

Module Py.

(** [d.get(k)] on a dictionary; [None] when the key is absent. *)
Fixpoint lookup (k : string) (d : dict) : option json :=
  match d with
  | [] => None
  | (k', v) :: d' => if String.eqb k k' then Some v else lookup k d'
  end.

(** [d.get(k, default)]. *)
Definition get_default (k : string) (default : json) (d : dict) : json :=
  match lookup k d with Some v => v | None => default end.

(** [d.get(k)], where Python's [None] is [JNull]. *)
Definition get (k : string) (d : dict) : json := get_default k JNull d.

(** [d[k] = v]: the value is replaced in place, a new key goes last. *)
Fixpoint set (k : string) (v : json) (d : dict) : dict :=
  match d with
  | [] => [(k, v)]
  | (k', v') :: d' =>
      if String.eqb k k' then (k', v) :: d' else (k', v') :: set k v d'
  end.

(** [del d[k]]. *)
Fixpoint del (k : string) (d : dict) : dict :=
  match d with
  | [] => []
  | (k', v') :: d' => if String.eqb k k' then d' else (k', v') :: del k d'
  end.

(** [k in d]. *)
Definition mem (k : string) (d : dict) : bool :=
  match lookup k d with Some _ => true | None => false end.

(** Truth value of a Python object, as [if x:] tests it. *)
Definition truthy (j : json) : bool :=
  match j with
  | JNull => false
  | JBool b => b
  | JInt n => negb (n =? 0)
  | JStr s => negb (String.eqb s "")
  | JList l => match l with [] => false | _ => true end
  | JDict d => match d with [] => false | _ => true end
  end.

(** [isinstance(x, str)]. *)
Definition is_str (j : json) : bool :=
  match j with JStr _ => true | _ => false end.

(** The items a [for] loop or a comprehension draws from a value: the
    elements of a list, the keys of a dictionary, the characters of a
    string; anything else raises [TypeError] ([None] here). *)
Fixpoint chars (s : string) : list json :=
  match s with
  | EmptyString => []
  | String c s' => JStr (String c EmptyString) :: chars s'
  end.

Definition iter (j : json) : option (list json) :=
  match j with
  | JList l => Some l
  | JDict d => Some (map (fun kv => JStr (fst kv)) d)
  | JStr s => Some (chars s)
  | _ => None
  end.

(** ** Decimal digits *)

Definition digit_char (d : Z) : ascii := ascii_of_N (48 + Z.to_N d).

Definition digit_val (c : ascii) : option Z :=
  let n := N_of_ascii c in
  if ((48 <=? n) && (n <=? 57))%N then Some (Z.of_N n - 48) else None.

(** The decimal digits of a non-negative number, most significant first;
    [fuel] bounds the number of digits. *)
Fixpoint digits_fuel (fuel : nat) (n : Z) (acc : string) : string :=
  match fuel with
  | O => acc
  | S f =>
      let acc' := String (digit_char (n mod 10)) acc in
      if n <? 10 then acc' else digits_fuel f (n / 10) acc'
  end.

Definition str_of_int (n : Z) : string :=
  if n <? 0
  then String "-" (digits_fuel (S (Z.to_nat (Z.log2 (- n)))) (- n) "")
  else digits_fuel (S (Z.to_nat (Z.log2 n))) n "".

(** ** [repr] and [str] *)

Definition hex_char (n : N) : ascii :=
  if (n <? 10)%N then ascii_of_N (48 + n) else ascii_of_N (87 + n).

Fixpoint contains_char (c : ascii) (s : string) : bool :=
  match s with
  | EmptyString => false
  | String c' s' => Ascii.eqb c c' || contains_char c s'
  end.

Definition backslash : ascii := ascii_of_N 92.
Definition dquote : ascii := ascii_of_N 34.
Definition squote : ascii := ascii_of_N 39.

(** A backslash escape. *)
Definition esc (s : string) : string := String backslash s.

(** The body of [repr(s)] for the quote character [q]: backslash, the quote
    and the control characters are escaped.  Characters above 127 are kept
    as they are. *)
Fixpoint repr_body (q : ascii) (s : string) : string :=
  match s with
  | EmptyString => ""
  | String c s' =>
      let n := N_of_ascii c in
      (if Ascii.eqb c backslash then esc (String backslash "")
       else if Ascii.eqb c q then esc (String q "")
       else if (n =? 10)%N then esc "n"
       else if (n =? 13)%N then esc "r"
       else if (n =? 9)%N then esc "t"
       else if ((n <? 32) || (n =? 127))%N
            then esc (String "x" (String (hex_char (n / 16))
                       (String (hex_char (n mod 16)) "")))
       else String c "") ++ repr_body q s'
  end.

(** [repr(s)] of a string: single quotes, unless the string has a single
    quote and no double quote. *)
Definition repr_str (s : string) : string :=
  let q : ascii :=
    if contains_char squote s && negb (contains_char dquote s)
    then dquote else squote in
  String q (repr_body q s ++ String q "").

Fixpoint join (sep : string) (l : list string) : string :=
  match l with
  | [] => ""
  | [x] => x
  | x :: l' => x ++ sep ++ join sep l'
  end.

Fixpoint repr (j : json) : string :=
  match j with
  | JNull => "None"
  | JBool true => "True"
  | JBool false => "False"
  | JInt n => str_of_int n
  | JStr s => repr_str s
  | JList l => "[" ++ join ", " (map repr l) ++ "]"
  | JDict d =>
      "{" ++ join ", " (map (fun kv => repr_str (fst kv) ++ ": " ++ repr (snd kv)) d)
          ++ "}"
  end.

(** [str(x)]: a string is itself, everything else prints as its [repr]. *)
Definition str (j : json) : string :=
  match j with JStr s => s | _ => repr j end.

(** ** [int(x)] *)

Definition is_space (c : ascii) : bool :=
  let n := N_of_ascii c in ((n =? 32) || ((9 <=? n) && (n <=? 13)))%N.

Fixpoint lstrip (s : string) : string :=
  match s with
  | String c s' => if is_space c then lstrip s' else s
  | EmptyString => s
  end.

Fixpoint rev_string (s acc : string) : string :=
  match s with
  | EmptyString => acc
  | String c s' => rev_string s' (String c acc)
  end.

Definition strip (s : string) : string :=
  rev_string (lstrip (rev_string (lstrip s) "")) "".

(** Digits with single underscores between them, as [int] reads them;
    [prev] tells whether the previous character was a digit. *)
Fixpoint int_digits (s : string) (prev : bool) (acc : Z) : option Z :=
  match s with
  | EmptyString => if prev then Some acc else None
  | String c s' =>
      match digit_val c with
      | Some d => int_digits s' true (10 * acc + d)
      | None =>
          if Ascii.eqb c "_" && prev
          then match s' with
               | String c' _ =>
                   match digit_val c' with
                   | Some _ => int_digits s' false acc
                   | None => None
                   end
               | EmptyString => None
               end
          else None
      end
  end.

Definition int_of_str (s : string) : option Z :=
  match strip s with
  | String "-" s' => option_map Z.opp (int_digits s' false 0)
  | String "+" s' => int_digits s' false 0
  | s' => int_digits s' false 0
  end.

(** [int(x)]; [None] stands for the [TypeError] or [ValueError]. *)
Definition int (j : json) : option Z :=
  match j with
  | JInt n => Some n
  | JBool b => Some (if b then 1 else 0)
  | JStr s => int_of_str s
  | _ => None
  end.

(** The key under which [json.dump] writes a dictionary key: a string as
    it is, a number, a truth value and [None] by their JSON text.  A list
    or a dictionary cannot be a key at all ([None] here, [TypeError]). *)
Definition json_key (j : json) : option string :=
  match j with
  | JStr s => Some s
  | JInt n => Some (str_of_int n)
  | JBool true => Some "true"
  | JBool false => Some "false"
  | JNull => Some "null"
  | _ => None
  end.

(** [s.lower()], on the ASCII letters. *)
Definition lower_char (c : ascii) : ascii :=
  let n := N_of_ascii c in
  if ((65 <=? n) && (n <=? 90))%N then ascii_of_N (n + 32) else c.

Fixpoint lower (s : string) : string :=
  match s with
  | EmptyString => ""
  | String c s' => String (lower_char c) (lower s')
  end.

(** ** Text *)

(** [c.isspace()] for one character below U+0100: the ASCII white space,
    the four separators FS, GS, RS and US, NEL and the no-break space.
    [str.strip] and [str.split] use the same test. *)
Definition isspace (c : ascii) : bool :=
  let n := N_of_ascii c in
  (((9 <=? n) && (n <=? 13)) || ((28 <=? n) && (n <=? 32))
   || (n =? 133) || (n =? 160))%N.

Fixpoint str_lstrip (s : string) : string :=
  match s with
  | String c s' => if isspace c then str_lstrip s' else s
  | EmptyString => s
  end.

(** [s.strip()]. *)
Definition str_strip (s : string) : string :=
  rev_string (str_lstrip (rev_string (str_lstrip s) "")) "".

(** [s.split()]: the maximal runs of characters that are not white space,
    in order; [word] is the run being read, last character first. *)
Fixpoint split_from (s : string) (word : string) : list string :=
  match s with
  | EmptyString =>
      match word with
      | EmptyString => []
      | _ => [rev_string word ""]
      end
  | String c s' =>
      if isspace c
      then match word with
           | EmptyString => split_from s' ""
           | _ => rev_string word "" :: split_from s' ""
           end
      else split_from s' (String c word)
  end.

Definition str_split (s : string) : list string := split_from s "".

(** [s.startswith(prefix)]. *)
Fixpoint startswith (s prefix : string) : bool :=
  match prefix, s with
  | EmptyString, _ => true
  | String a prefix', String b s' => Ascii.eqb a b && startswith s' prefix'
  | String _ _, EmptyString => false
  end.

End Py.

(* ================================================================== *)
(** * [datetime] *)
(* ================================================================== *)

(** Naive timestamps, as [datetime.now()] returns them.  A value carries
    the check that [datetime(...)] performs on its fields, so that every
    [DateTime.t] is a timestamp Python can hold. *)
Module DateTime.

Definition is_leap (y : Z) : bool :=
  ((y mod 4 =? 0) && negb (y mod 100 =? 0)) || (y mod 400 =? 0).

Definition days_in_month (y m : Z) : Z :=
  if m =? 2 then (if is_leap y then 29 else 28)
  else if (m =? 4) || (m =? 6) || (m =? 9) || (m =? 11) then 30
  else 31.

Definition valid (y mo d h mi s us : Z) : bool :=
  (1 <=? y) && (y <=? 9999) && (1 <=? mo) && (mo <=? 12)
  && (1 <=? d) && (d <=? days_in_month y mo)
  && (0 <=? h) && (h <=? 23) && (0 <=? mi) && (mi <=? 59)
  && (0 <=? s) && (s <=? 59) && (0 <=? us) && (us <=? 999999).

Record t : Type := mk {
  year : Z; month : Z; day : Z;
  hour : Z; minute : Z; second : Z; microsecond : Z;
  ok : valid year month day hour minute second microsecond = true
}.

(** [datetime(y, mo, d, h, mi, s, us)]; [None] stands for [ValueError]. *)
Definition make (y mo d h mi s us : Z) : option t :=
  match valid y mo d h mi s us as b
        return (valid y mo d h mi s us = b -> option t) with
  | true => fun H => Some (mk y mo d h mi s us H)
  | false => fun _ => None
  end eq_refl.

(** [k] decimal digits of [n], zero padded. *)
Fixpoint pad (k : nat) (n : Z) : string :=
  match k with
  | O => ""
  | S k' => String (Py.digit_char ((n / 10 ^ Z.of_nat k') mod 10)) (pad k' n)
  end.

(** [d.isoformat()]: [YYYY-MM-DDTHH:MM:SS], followed by [.ffffff] when the
    microseconds are not zero. *)
Definition isoformat (d : t) : string :=
  pad 4 (year d) ++ "-" ++ pad 2 (month d) ++ "-" ++ pad 2 (day d) ++ "T"
  ++ pad 2 (hour d) ++ ":" ++ pad 2 (minute d) ++ ":" ++ pad 2 (second d)
  ++ (if microsecond d =? 0 then "" else "." ++ pad 6 (microsecond d)).

(** Reads exactly [k] decimal digits. *)
Fixpoint read_digits (k : nat) (acc : Z) (s : string) : option (Z * string) :=
  match k with
  | O => Some (acc, s)
  | S k' =>
      match s with
      | String c s' =>
          match Py.digit_val c with
          | Some d => read_digits k' (10 * acc + d) s'
          | None => None
          end
      | EmptyString => None
      end
  end.

(** The fraction of a second: three or six digits. *)
Definition parse_frac (s : string) : option Z :=
  match read_digits 6 0 s with
  | Some (us, EmptyString) => Some us
  | _ =>
      match read_digits 3 0 s with
      | Some (ms, EmptyString) => Some (ms * 1000)
      | _ => None
      end
  end.

(** [HH[:MM[:SS[.fff[fff]]]]]. *)
Definition parse_time (s : string) : option (Z * Z * Z * Z) :=
  match read_digits 2 0 s with
  | Some (h, EmptyString) => Some (h, 0, 0, 0)
  | Some (h, String ":" s1) =>
      match read_digits 2 0 s1 with
      | Some (mi, EmptyString) => Some (h, mi, 0, 0)
      | Some (mi, String ":" s2) =>
          match read_digits 2 0 s2 with
          | Some (sec, EmptyString) => Some (h, mi, sec, 0)
          | Some (sec, String "." s3) =>
              option_map (fun us => (h, mi, sec, us)) (parse_frac s3)
          | _ => None
          end
      | _ => None
      end
  | _ => None
  end.

(** [YYYY-MM-DD]. *)
Definition parse_date (s : string) : option (Z * Z * Z * string) :=
  match read_digits 4 0 s with
  | Some (y, String "-" s1) =>
      match read_digits 2 0 s1 with
      | Some (mo, String "-" s2) =>
          match read_digits 2 0 s2 with
          | Some (d, rest) => Some (y, mo, d, rest)
          | None => None
          end
      | _ => None
      end
  | _ => None
  end.

(** [datetime.fromisoformat(s)] on the strings without a UTC offset:
    [YYYY-MM-DD[*HH[:MM[:SS[.fff[fff]]]]]], where [*] is any one character.
    [None] stands for [ValueError].  A string with an offset denotes an
    aware timestamp, which [t] does not hold; the program never writes
    one. *)
Definition fromisoformat (s : string) : option t :=
  match parse_date s with
  | Some (y, mo, d, EmptyString) => make y mo d 0 0 0 0
  | Some (y, mo, d, String _ rest) =>
      match parse_time rest with
      | Some (h, mi, sec, us) => make y mo d h mi sec us
      | None => None
      end
  | None => None
  end.

End DateTime.

(* ================================================================== *)
(** * The data classes of [db_manager.py] and [models.py] *)
(* ================================================================== *)

(** [db_manager.ParsingStatus]. *)
Module DbParsingStatus.
Inductive t : Type := NOT_STARTED | IN_PROGRESS | COMPLETED | FAILED.

Definition value (s : t) : string :=
  match s with
  | NOT_STARTED => "not_started"
  | IN_PROGRESS => "in_progress"
  | COMPLETED => "completed"
  | FAILED => "failed"
  end.

(** [ParsingStatus(v)]: the member whose value is [v]; [None] stands for
    [ValueError]. *)
Definition of_value (v : json) : option t :=
  match v with
  | JStr s =>
      if String.eqb s "not_started" then Some NOT_STARTED
      else if String.eqb s "in_progress" then Some IN_PROGRESS
      else if String.eqb s "completed" then Some COMPLETED
      else if String.eqb s "failed" then Some FAILED
      else None
  | _ => None
  end.
End DbParsingStatus.

(** [models.ParsingStatus], a second enumeration of the same name. *)
Module ModelsParsingStatus.
Inductive t : Type := PENDING | IN_PROGRESS | COMPLETED | FAILED | RATE_LIMITED.

Definition value (s : t) : string :=
  match s with
  | PENDING => "pending"
  | IN_PROGRESS => "in_progress"
  | COMPLETED => "completed"
  | FAILED => "failed"
  | RATE_LIMITED => "rate_limited"
  end.
End ModelsParsingStatus.

(** A status held by an object at run time is a member of one of the two
    enumerations.  [token_holders_service.py] imports [ParsingStatus] from
    [models.py]; [db_manager.py] and [get_holders.py] use the one of
    [db_manager.py]. *)
Module ParsingStatus.
Inductive t : Type :=
| Db (s : DbParsingStatus.t)
| Models (s : ModelsParsingStatus.t).

(** [s.value]. *)
Definition value (s : t) : string :=
  match s with
  | Db s => DbParsingStatus.value s
  | Models s => ModelsParsingStatus.value s
  end.

(** [a == b]: members of an [Enum] are equal only to themselves, so two
    members of different enumerations are never equal, whatever their
    values. *)
Definition eqb (a b : t) : bool :=
  match a, b with
  | Db DbParsingStatus.NOT_STARTED, Db DbParsingStatus.NOT_STARTED
  | Db DbParsingStatus.IN_PROGRESS, Db DbParsingStatus.IN_PROGRESS
  | Db DbParsingStatus.COMPLETED, Db DbParsingStatus.COMPLETED
  | Db DbParsingStatus.FAILED, Db DbParsingStatus.FAILED
  | Models ModelsParsingStatus.PENDING, Models ModelsParsingStatus.PENDING
  | Models ModelsParsingStatus.IN_PROGRESS, Models ModelsParsingStatus.IN_PROGRESS
  | Models ModelsParsingStatus.COMPLETED, Models ModelsParsingStatus.COMPLETED
  | Models ModelsParsingStatus.FAILED, Models ModelsParsingStatus.FAILED
  | Models ModelsParsingStatus.RATE_LIMITED, Models ModelsParsingStatus.RATE_LIMITED
      => true
  | _, _ => false
  end.
End ParsingStatus.

(** [TokenHolder]: the class of [db_manager.py] has four fields, the class
    of [models.py] has two.  A holder list may mix them. *)
Module TokenHolder.
Inductive t : Type :=
| Db (address balance : string) (processed : bool)
     (processed_at : option DateTime.t)
| Models (address balance : string).

Definition address (h : t) : string :=
  match h with Db a _ _ _ => a | Models a _ => a end.

Definition to_dict (h : t) : json :=
  match h with
  | Db a b p pa =>
      JDict [("address", JStr a); ("balance", JStr b); ("processed", JBool p);
             ("processed_at",
              match pa with
              | Some d => JStr (DateTime.isoformat d)
              | None => JNull
              end)]
  | Models a b => JDict [("address", JStr a); ("balance", JStr b)]
  end.

(** [db_manager.TokenHolder.from_dict]; [None] stands for a raised
    exception. *)
Definition from_dict (data : json) : option t :=
  match data with
  | JStr s => Some (Db s "0" false None)
  | JDict d =>
      let pa := Py.get "processed_at" d in
      let processed_at :=
        if Py.truthy pa
        then match pa with
             | JStr s => option_map Some (DateTime.fromisoformat s)
             | _ => None
             end
        else Some None in
      match processed_at with
      | Some pa' =>
          Some (Db (Py.str (Py.get_default "address" (JStr "") d))
                   (Py.str (Py.get_default "balance" (JStr "0") d))
                   (Py.truthy (Py.get_default "processed" (JBool false) d))
                   pa')
      | None => None
      end
  | _ => None
  end.
End TokenHolder.

(** [[f(x) for x in l]] where [f] may raise. *)
Fixpoint traverse {A B : Type} (f : A -> option B) (l : list A)
  : option (list B) :=
  match l with
  | [] => Some []
  | x :: l' =>
      match f x with
      | Some y => option_map (cons y) (traverse f l')
      | None => None
      end
  end.

Module ProcessedContract.
Record t : Type := mk {
  address : string;
  chain : string;
  processed_at : DateTime.t;
  holders_count : Z;
  holders : list TokenHolder.t;
  status : ParsingStatus.t
}.

Definition to_dict (c : t) : json :=
  JDict [("address", JStr (address c));
         ("chain", JStr (chain c));
         ("processed_at", JStr (DateTime.isoformat (processed_at c)));
         ("holders_count", JInt (holders_count c));
         ("holders", JList (map TokenHolder.to_dict (holders c)));
         ("status", JStr (ParsingStatus.value (status c)))].

(** The holder list of [from_dict]. *)
Definition holders_of (data : dict) : option (list TokenHolder.t) :=
  match Py.iter (Py.get_default "holders" (JList []) data) with
  | Some items => traverse TokenHolder.from_dict items
  | None => None
  end.

(** Whether [from_dict] calls [datetime.now()]: the holders were read and
    [processed_at] is not a string. *)
Definition reads_clock (data : json) : bool :=
  match data with
  | JDict data =>
      match holders_of data with
      | Some _ => negb (Py.is_str (Py.get "processed_at" data))
      | None => false
      end
  | _ => false
  end.

(** [db_manager.ProcessedContract.from_dict], given the value [now] that
    [datetime.now()] returns; [None] is the method's own [None], returned
    when anything inside raises. *)
Definition from_dict (now : DateTime.t) (data : json) : option t :=
  match data with
  | JDict data =>
      match holders_of data with
      | Some hs =>
          let processed_at :=
            match Py.get "processed_at" data with
            | JStr s => DateTime.fromisoformat s
            | _ => Some now
            end in
          match processed_at,
                Py.int (Py.get_default "holders_count" (JInt 0) data),
                DbParsingStatus.of_value
                  (Py.get_default "status"
                     (JStr (DbParsingStatus.value DbParsingStatus.COMPLETED))
                     data)
          with
          | Some pa, Some n, Some st =>
              Some (mk (Py.str (Py.get_default "address" (JStr "") data))
                       (Py.str (Py.get_default "chain" (JStr "") data))
                       pa n hs (ParsingStatus.Db st))
          | _, _, _ => None
          end
      | None => None
      end
  | _ => None
  end.
End ProcessedContract.

(** [ParsingProgress].  [from_dict] copies four of the fields from the
    dictionary as they are, so they are kept as [json] values; [None] is
    [JNull]. *)
Module ParsingProgress.
Record t : Type := mk {
  contract_address : json;
  current_page : json;
  total_pages : json;
  last_processed_at : DateTime.t;
  status : ParsingStatus.t;
  error_message : json
}.

Definition to_dict (p : t) : json :=
  JDict [("contract_address", contract_address p);
         ("current_page", current_page p);
         ("total_pages", total_pages p);
         ("last_processed_at", JStr (DateTime.isoformat (last_processed_at p)));
         ("status", JStr (ParsingStatus.value (status p)));
         ("error_message", error_message p)].

(** [db_manager.ParsingProgress.from_dict]; [None] stands for a raised
    exception ([KeyError], [TypeError] or [ValueError]). *)
Definition from_dict (data : json) : option t :=
  match data with
  | JDict d =>
      match Py.lookup "contract_address" d, Py.lookup "current_page" d,
            Py.lookup "last_processed_at" d, Py.lookup "status" d with
      | Some ca, Some cp, Some (JStr ts), Some st =>
          match DateTime.fromisoformat ts, DbParsingStatus.of_value st with
          | Some at_, Some s =>
              Some (mk ca cp (Py.get "total_pages" d) at_
                      (ParsingStatus.Db s) (Py.get "error_message" d))
          | _, _ => None
          end
      | _, _, _, _ => None
      end
  | _ => None
  end.
End ParsingProgress.

(* ================================================================== *)
(** * [models.py]: the API response wrappers *)
(* ================================================================== *)

(** One entry of the [data] array of a holder page: an address, or an
    object with an [address] field. *)
Inductive Item : Type :=
| ItemStr (address : string)
| ItemObj (address : string).

(** The JSON object the holder endpoint answers with; [message] and
    [next_page] may be absent. *)
Record Body : Type := mkBody {
  body_code : Z;
  body_message : option string;
  body_data : list Item;
  body_next_page : option Z;
  body_count : Z
}.

Inductive Response : Type :=
| SuccessResponse (code : Z) (message : string) (data : list Item)
                  (next_page : option Z) (count : Z)
| ErrorResponse (code : Z) (message : string).

Module ApiResponse.
Record t : Type := mk {
  status_code : Z;
  response : option Response
}.

Definition message_of (b : Body) : string :=
  match body_message b with Some m => m | None => "" end.

Definition from_response (status_code : Z) (data : Body) : t :=
  if (200 <=? status_code) && (status_code <? 300)
  then mk status_code
          (Some (SuccessResponse (body_code data) (message_of data)
                   (body_data data) (body_next_page data) (body_count data)))
  else mk status_code (Some (ErrorResponse (body_code data) (message_of data))).

Definition is_success (r : t) : bool :=
  (200 <=? status_code r) && (status_code r <? 300).

Definition has_next_page (r : t) : bool :=
  match response r with
  | Some (SuccessResponse _ _ _ next_page _) =>
      if negb (is_success r) then false
      else match next_page with Some _ => true | None => false end
  | _ => false
  end.
End ApiResponse.

(** [Contract]; [chain_id] looks the chain name up in
    [chain_config.CHAIN_MAPPING]. *)
Module Contract.
Record t : Type := mk { address : string; chain : string }.

Definition CHAIN_MAPPING : dict :=
  [("ethereum", JStr "1"); ("polygon", JStr "137"); ("bsc", JStr "56");
   ("avalanche", JStr "43114"); ("arbitrum", JStr "42161");
   ("optimism", JStr "10"); ("base", JStr "8453"); ("zksync", JStr "324");
   ("merlin", JStr "4200")].

(** [get_chain_id(chain_name)]. *)
Definition get_chain_id (chain_name : string) : option string :=
  match Py.lookup (Py.lower chain_name) CHAIN_MAPPING with
  | Some (JStr id) => Some id
  | _ => None
  end.

Definition chain_id (c : t) : option string := get_chain_id (chain c).
End Contract.

(* ================================================================== *)
(** * The world the program runs in *)
(* ================================================================== *)

Module ProxyConfig.
Definition COOLDOWN_TIME : Z := 120.
Definition MAX_FAILS : Z := 20.
Definition MAX_REQUESTS_PER_PROXY : Z := 200.
End ProxyConfig.

Module ChainbaseConfig.
Definition BASE_URL : string := "https://api.chainbase.online/v1".
Definition HOLDERS_ENDPOINT : string := "/token/holders".
Definition DEFAULT_LIMIT : Z := 100.
End ChainbaseConfig.

(** [ProxyStatus]; times are the readings of [time.time()], taken as exact
    numbers. *)
Module ProxyStatus.
Record t : Type := mk {
  url : string;
  is_working : bool;
  fails_count : Z;
  last_used : Z;
  cooldown_until : option Z;
  requests_count : Z
}.
End ProxyStatus.

(** What [session.get] is called with. *)
Record Request : Type := mkRequest {
  req_url : string;
  req_api_key : string;
  req_chain_id : string;
  req_limit : string;
  req_page : string;
  req_contract_address : string;
  req_proxy : string
}.

(** What comes back: an exception (no connection, a time-out, a body that
    is not a JSON object), or a status code with the JSON object. *)
Inductive NetOutcome : Type :=
| NetException
| NetResponse (status : Z) (body : Body).

Inductive exn : Type :=
| OSError            (* a file could not be written *)
| TypeError
| AttributeError
| IndexError
| KeyError
| UnboundLocalError
| NoProxyException.  (* the plain Exception of [with_proxy]: no proxy available *)

(** The files, the two managers' fields, and the environment.  A file holds
    the document that [json.load] reads from it, or [None] when it is
    missing or is not JSON.  [disk_writable] tells whether writing a file
    succeeds.  When it does not, [OSError] is raised: by [open(path, 'w')],
    and the file stays as it was, or, when [write_truncates] is set, by
    [json.dump] after [open(path, 'w')] has emptied the file, which is then
    left cut off and is not JSON.  The clock, the network and the interrupt
    flag answer the [n]-th question put to them. *)
Record World : Type := mkWorld {
  processed_contracts_file : option json;
  pending_holders_file : option json;
  parsing_progress_file : option json;
  proxies_data_file : option (list (string * ProxyStatus.t));
  disk_writable : bool;
  write_truncates : bool;
  proxies : list (string * ProxyStatus.t);
  current_proxy_index : nat;
  api_keys : list string;
  key_index : nat;
  clock_reads : nat;
  time_time : nat -> Z;
  datetime_now : nat -> DateTime.t;
  sent : list Request;
  network : nat -> Request -> NetOutcome;
  flag_reads : nat;
  is_interrupted : nat -> bool
}.

Definition with_processed_contracts_file (v : option json) (w : World) :=
  mkWorld v (pending_holders_file w) (parsing_progress_file w)
    (proxies_data_file w) (disk_writable w) (write_truncates w) (proxies w)
    (current_proxy_index w) (api_keys w) (key_index w) (clock_reads w)
    (time_time w) (datetime_now w) (sent w) (network w) (flag_reads w)
    (is_interrupted w).

Definition with_pending_holders_file (v : option json) (w : World) :=
  mkWorld (processed_contracts_file w) v (parsing_progress_file w)
    (proxies_data_file w) (disk_writable w) (write_truncates w) (proxies w)
    (current_proxy_index w) (api_keys w) (key_index w) (clock_reads w)
    (time_time w) (datetime_now w) (sent w) (network w) (flag_reads w)
    (is_interrupted w).

Definition with_parsing_progress_file (v : option json) (w : World) :=
  mkWorld (processed_contracts_file w) (pending_holders_file w) v
    (proxies_data_file w) (disk_writable w) (write_truncates w) (proxies w)
    (current_proxy_index w) (api_keys w) (key_index w) (clock_reads w)
    (time_time w) (datetime_now w) (sent w) (network w) (flag_reads w)
    (is_interrupted w).

Definition with_proxies_data_file
  (v : option (list (string * ProxyStatus.t))) (w : World) :=
  mkWorld (processed_contracts_file w) (pending_holders_file w)
    (parsing_progress_file w) v (disk_writable w) (write_truncates w) (proxies w)
    (current_proxy_index w) (api_keys w) (key_index w) (clock_reads w)
    (time_time w) (datetime_now w) (sent w) (network w) (flag_reads w)
    (is_interrupted w).

Definition with_disk_writable (v : bool) (w : World) :=
  mkWorld (processed_contracts_file w) (pending_holders_file w)
    (parsing_progress_file w) (proxies_data_file w) v (write_truncates w)
    (proxies w) (current_proxy_index w) (api_keys w) (key_index w)
    (clock_reads w) (time_time w) (datetime_now w) (sent w) (network w)
    (flag_reads w) (is_interrupted w).

Definition with_write_truncates (v : bool) (w : World) :=
  mkWorld (processed_contracts_file w) (pending_holders_file w)
    (parsing_progress_file w) (proxies_data_file w) (disk_writable w) v
    (proxies w) (current_proxy_index w) (api_keys w) (key_index w)
    (clock_reads w) (time_time w) (datetime_now w) (sent w) (network w)
    (flag_reads w) (is_interrupted w).

Definition with_proxies (v : list (string * ProxyStatus.t)) (w : World) :=
  mkWorld (processed_contracts_file w) (pending_holders_file w)
    (parsing_progress_file w) (proxies_data_file w) (disk_writable w) (write_truncates w) v
    (current_proxy_index w) (api_keys w) (key_index w) (clock_reads w)
    (time_time w) (datetime_now w) (sent w) (network w) (flag_reads w)
    (is_interrupted w).

Definition with_current_proxy_index (v : nat) (w : World) :=
  mkWorld (processed_contracts_file w) (pending_holders_file w)
    (parsing_progress_file w) (proxies_data_file w) (disk_writable w) (write_truncates w)
    (proxies w) v (api_keys w) (key_index w) (clock_reads w)
    (time_time w) (datetime_now w) (sent w) (network w) (flag_reads w)
    (is_interrupted w).

Definition with_key_index (v : nat) (w : World) :=
  mkWorld (processed_contracts_file w) (pending_holders_file w)
    (parsing_progress_file w) (proxies_data_file w) (disk_writable w) (write_truncates w)
    (proxies w) (current_proxy_index w) (api_keys w) v (clock_reads w)
    (time_time w) (datetime_now w) (sent w) (network w) (flag_reads w)
    (is_interrupted w).

Definition with_clock_reads (v : nat) (w : World) :=
  mkWorld (processed_contracts_file w) (pending_holders_file w)
    (parsing_progress_file w) (proxies_data_file w) (disk_writable w) (write_truncates w)
    (proxies w) (current_proxy_index w) (api_keys w) (key_index w) v
    (time_time w) (datetime_now w) (sent w) (network w) (flag_reads w)
    (is_interrupted w).

Definition with_sent (v : list Request) (w : World) :=
  mkWorld (processed_contracts_file w) (pending_holders_file w)
    (parsing_progress_file w) (proxies_data_file w) (disk_writable w) (write_truncates w)
    (proxies w) (current_proxy_index w) (api_keys w) (key_index w)
    (clock_reads w) (time_time w) (datetime_now w) v (network w)
    (flag_reads w) (is_interrupted w).

Definition with_flag_reads (v : nat) (w : World) :=
  mkWorld (processed_contracts_file w) (pending_holders_file w)
    (parsing_progress_file w) (proxies_data_file w) (disk_writable w) (write_truncates w)
    (proxies w) (current_proxy_index w) (api_keys w) (key_index w)
    (clock_reads w) (time_time w) (datetime_now w) (sent w) (network w) v
    (is_interrupted w).

(** The wall clock as it answers from now on. *)
Definition with_time_time (v : nat -> Z) (w : World) :=
  mkWorld (processed_contracts_file w) (pending_holders_file w)
    (parsing_progress_file w) (proxies_data_file w) (disk_writable w) (write_truncates w)
    (proxies w) (current_proxy_index w) (api_keys w) (key_index w)
    (clock_reads w) v (datetime_now w) (sent w) (network w) (flag_reads w)
    (is_interrupted w).

(** ** Computations *)

(** A computation ends with a value, ends with an exception, or is cut off
    when the bound on the number of loop iterations runs out. *)
Inductive res (A : Type) : Type :=
| Ok (a : A) (w : World)
| Raise (e : exn) (w : World)
| OutOfFuel.
Arguments Ok {A} a w.
Arguments Raise {A} e w.
Arguments OutOfFuel {A}.

Definition M (A : Type) : Type := World -> res A.

Definition ret {A : Type} (a : A) : M A := fun w => Ok a w.

Definition bind {A B : Type} (m : M A) (k : A -> M B) : M B :=
  fun w =>
    match m w with
    | Ok a w' => k a w'
    | Raise e w' => Raise e w'
    | OutOfFuel => OutOfFuel
    end.

Definition raise {A : Type} (e : exn) : M A := fun w => Raise e w.

(** [try: m  except Exception as e: handler(e)]. *)
Definition try_except {A : Type} (m : M A) (handler : exn -> M A) : M A :=
  fun w =>
    match m w with
    | Ok a w' => Ok a w'
    | Raise e w' => handler e w'
    | OutOfFuel => OutOfFuel
    end.

Definition get_world : M World := fun w => Ok w w.
Definition modify (f : World -> World) : M unit := fun w => Ok tt (f w).

Notation "x <- m ;; k" := (bind m (fun x => k))
  (at level 61, m at next level, right associativity).
Notation "m ;;; k" := (bind m (fun _ => k))
  (at level 61, right associativity).

(** [logger.error(...)], [logger.info(...)]: no effect on the world. *)
Definition log : M unit := ret tt.

(** [time.time()]. *)
Definition read_time : M Z :=
  fun w => Ok (time_time w (clock_reads w))
              (with_clock_reads (S (clock_reads w)) w).

(** [datetime.now()]. *)
Definition read_now : M DateTime.t :=
  fun w => Ok (datetime_now w (clock_reads w))
              (with_clock_reads (S (clock_reads w)) w).

(* ================================================================== *)
(** * [db_manager.py]: [DBManager] *)
(* ================================================================== *)

Module DBManager.

Inductive File : Type :=
| processed_contracts
| pending_holders
| parsing_progress.

Definition read (f : File) (w : World) : option json :=
  match f with
  | processed_contracts => processed_contracts_file w
  | pending_holders => pending_holders_file w
  | parsing_progress => parsing_progress_file w
  end.

Definition write (f : File) (v : json) (w : World) : World :=
  match f with
  | processed_contracts => with_processed_contracts_file (Some v) w
  | pending_holders => with_pending_holders_file (Some v) w
  | parsing_progress => with_parsing_progress_file (Some v) w
  end.

Definition _get_default_data (f : File) : dict :=
  match f with
  | processed_contracts => [("contracts", JList [])]
  | pending_holders => [("pending", JDict [])]
  | parsing_progress => [("progress", JDict [])]
  end.

(** [_load_json]: a missing file, a file that is not JSON and a document
    that is not an object all give the default data. *)
Definition _load_json (f : File) : M dict :=
  fun w =>
    match read f w with
    | Some (JDict d) => Ok d w
    | _ => Ok (_get_default_data f) w
    end.

(** What a write that fails leaves of the file. *)
Definition failed_write (f : File) (w : World) : World :=
  if write_truncates w
  then match f with
       | processed_contracts => with_processed_contracts_file None w
       | pending_holders => with_pending_holders_file None w
       | parsing_progress => with_parsing_progress_file None w
       end
  else w.

(** [_save_json]: the whole body, [open(file_path, 'w')] and [json.dump],
    is inside [try ... except Exception], so a failed write is logged and
    nothing is raised, whatever it left of the file. *)
Definition _save_json (f : File) (data : json) : M unit :=
  try_except
    (fun w => if disk_writable w then Ok tt (write f data w)
              else Raise OSError (failed_write f w))
    (fun _ => log).

Definition save_parsing_progress (progress : ParsingProgress.t) : M unit :=
  try_except
    (data <- _load_json parsing_progress ;;
     match Py.lookup "progress" data with
     | None => raise KeyError
     | Some (JDict pr) =>
         match Py.json_key (ParsingProgress.contract_address progress) with
         | Some addr =>
             _save_json parsing_progress
               (JDict (Py.set "progress"
                         (JDict (Py.set addr (ParsingProgress.to_dict progress) pr))
                         data))
         | None => raise TypeError
         end
     | Some _ => raise TypeError
     end)
    (fun _ => log).

(** The pure reading of the progress record of [contract_address]. *)
Definition progress_data (contract_address : string) (data : dict)
  : option (option json) :=
  match Py.lookup "progress" data with
  | Some (JDict pr) => Some (Py.lookup contract_address pr)
  | _ => None
  end.

Definition get_parsing_progress (contract_address : string)
  : M (option ParsingProgress.t) :=
  try_except
    (data <- _load_json parsing_progress ;;
     match progress_data contract_address data with
     | None => raise TypeError
     | Some None => ret None
     | Some (Some pd) =>
         if Py.truthy pd
         then match ParsingProgress.from_dict pd with
              | Some p => ret (Some p)
              | None => raise TypeError
              end
         else ret None
     end)
    (fun _ => log ;;; ret None).

Definition remove_parsing_progress (contract_address : string) : M unit :=
  try_except
    (data <- _load_json parsing_progress ;;
     match Py.lookup "progress" data with
     | None => raise KeyError
     | Some (JDict pr) =>
         if Py.mem contract_address pr
         then _save_json parsing_progress
                (JDict (Py.set "progress"
                          (JDict (Py.del contract_address pr)) data))
         else ret tt
     | Some _ =>
         (* not a dictionary: [in] answers [False] or raises, and [del]
            with a string index raises; nothing is written either way *)
         raise TypeError
     end)
    (fun _ => log).

(** [ProcessedContract.from_dict(data)], with the clock read it may do. *)
Definition from_dict (data : json) : M (option ProcessedContract.t) :=
  fun w =>
    Ok (ProcessedContract.from_dict (datetime_now w (clock_reads w)) data)
       (if ProcessedContract.reads_clock data
        then with_clock_reads (S (clock_reads w)) w else w).

(** [existing_contract.get("address") == address]. *)
Definition address_is (address : string) (d : dict) : bool :=
  match Py.lookup "address" d with
  | Some (JStr s) => String.eqb s address
  | _ => false
  end.

(** [h.address not in existing_addresses]. *)
Definition known (existing : list TokenHolder.t) (h : TokenHolder.t) : bool :=
  existsb (fun e => String.eqb (TokenHolder.address e) (TokenHolder.address h))
          existing.

(** The merge of [save_processed_contract]: the stored holders, then the
    incoming holders whose address is not among the stored ones. *)
Definition merge_holders (existing incoming : list TokenHolder.t)
  : list TokenHolder.t :=
  existing ++ filter (fun h => negb (known existing h)) incoming.

(** The [for i, existing_contract in enumerate(contracts)] loop of
    [save_processed_contract] and the [append] after it. *)
Fixpoint upsert (contract : ProcessedContract.t) (contracts : list json)
  : M (list json) :=
  match contracts with
  | [] => ret [ProcessedContract.to_dict contract]
  | existing_contract :: rest =>
      match existing_contract with
      | JDict d =>
          if address_is (ProcessedContract.address contract) d
          then
            existing <- from_dict existing_contract ;;
            match existing with
            | Some existing =>
                let all_holders :=
                  merge_holders (ProcessedContract.holders existing)
                                (ProcessedContract.holders contract) in
                now <- read_now ;;
                let updated_contract :=
                  ProcessedContract.mk
                    (ProcessedContract.address contract)
                    (ProcessedContract.chain contract)
                    now
                    (Z.of_nat (List.length all_holders))
                    all_holders
                    (ProcessedContract.status contract) in
                ret (ProcessedContract.to_dict updated_contract :: rest)
            | None => ret (ProcessedContract.to_dict contract :: rest)
            end
          else
            rest' <- upsert contract rest ;;
            ret (existing_contract :: rest')
      | _ => raise AttributeError
      end
  end.

Definition save_processed_contract (contract : ProcessedContract.t) : M unit :=
  try_except
    (data <- _load_json processed_contracts ;;
     match Py.get_default "contracts" (JList []) data with
     | JList contracts =>
         contracts' <- upsert contract contracts ;;
         _save_json processed_contracts (JDict [("contracts", JList contracts')]) ;;;
         if ParsingStatus.eqb (ProcessedContract.status contract)
              (ParsingStatus.Db DbParsingStatus.COMPLETED)
         then remove_parsing_progress (ProcessedContract.address contract)
         else ret tt
     | JDict _ | JStr _ => raise AttributeError
     | _ => raise TypeError
     end)
    (fun e => log ;;; raise e).

(** The [for contract_data in contracts] loop of [get_processed_contract]. *)
Fixpoint find_contract (address : string) (contracts : list json)
  : M (option ProcessedContract.t) :=
  match contracts with
  | [] => ret None
  | contract_data :: rest =>
      match contract_data with
      | JDict d =>
          if address_is address d then from_dict contract_data
          else find_contract address rest
      | _ => raise AttributeError
      end
  end.

Definition get_processed_contract (address : string)
  : M (option ProcessedContract.t) :=
  try_except
    (data <- _load_json processed_contracts ;;
     match Py.get_default "contracts" (JList []) data with
     | JList contracts => find_contract address contracts
     | JDict [] | JStr EmptyString => ret None
     | JDict _ | JStr _ => raise AttributeError
     | _ => raise TypeError
     end)
    (fun _ => log ;;; ret None).

Definition get_pending_holders (contract_address : string)
  : M (list TokenHolder.t) :=
  try_except
    (data <- _load_json pending_holders ;;
     match Py.get_default "pending" (JDict []) data with
     | JDict pending =>
         match Py.lookup contract_address pending with
         | Some v =>
             match Py.iter v with
             | Some items =>
                 match traverse TokenHolder.from_dict items with
                 | Some hs => ret hs
                 | None => raise TypeError
                 end
             | None => raise TypeError
             end
         | None => ret []
         end
     | _ =>
         (* not a dictionary: [in] answers [False] or raises, and the
            string index raises; the result is the empty list either way *)
         raise TypeError
     end)
    (fun _ => log ;;; ret []).

Definition add_pending_holders (contract_address : string)
  (holders : list TokenHolder.t) : M unit :=
  try_except
    (data <- _load_json pending_holders ;;
     let pending := Py.get_default "pending" (JDict []) data in
     existing_holders <- get_pending_holders contract_address ;;
     let all_holders := merge_holders existing_holders holders in
     match pending with
     | JDict pending =>
         _save_json pending_holders
           (JDict [("pending",
                    JDict (Py.set contract_address
                             (JList (map TokenHolder.to_dict all_holders))
                             pending))])
     | _ => raise TypeError
     end)
    (fun _ => log).

(** [ParsingStatus(progress["status"]) in [ParsingStatus.IN_PROGRESS,
    ParsingStatus.FAILED]]; [None] stands for the exception raised when
    [progress] is not a dictionary, has no [status], or has a [status] that
    is no value of the enumeration. *)
Definition unfinished (progress : json) : option bool :=
  match progress with
  | JDict d =>
      match Py.lookup "status" d with
      | Some v =>
          match DbParsingStatus.of_value v with
          | Some DbParsingStatus.IN_PROGRESS | Some DbParsingStatus.FAILED =>
              Some true
          | Some _ => Some false
          | None => None
          end
      | None => None
      end
  | _ => None
  end.

(** The list comprehension of [get_unfinished_contracts] over
    [data["progress"].items()]. *)
Fixpoint unfinished_of (items : dict) : option (list string) :=
  match items with
  | [] => Some []
  | (addr, progress) :: rest =>
      match unfinished progress with
      | Some keep =>
          option_map (fun l => if keep then addr :: l else l)
                     (unfinished_of rest)
      | None => None
      end
  end.

Definition get_unfinished_contracts : M (list string) :=
  try_except
    (data <- _load_json parsing_progress ;;
     match Py.lookup "progress" data with
     | None => raise KeyError
     | Some (JDict pr) =>
         match unfinished_of pr with
         | Some l => ret l
         | None => raise TypeError
         end
     | Some _ => raise AttributeError
     end)
    (fun _ => log ;;; ret []).

Definition is_contract_processed (address : string) : M bool :=
  contract <- get_processed_contract address ;;
  ret (match contract with
       | Some c =>
           ParsingStatus.eqb (ProcessedContract.status c)
             (ParsingStatus.Db DbParsingStatus.COMPLETED)
       | None => false
       end).

End DBManager.

(* ================================================================== *)
(** * [proxy_manager.py]: [ProxyManager] *)
(* ================================================================== *)

Module ProxyManager.

Definition pool := list (string * ProxyStatus.t).

(** [self.proxies[proxy_url]]. *)
Fixpoint lookup (proxy_url : string) (l : pool) : option ProxyStatus.t :=
  match l with
  | [] => None
  | (k, st) :: l' => if String.eqb proxy_url k then Some st else lookup proxy_url l'
  end.

(** An assignment to fields of the object [self.proxies[proxy_url]]. *)
Fixpoint update (proxy_url : string) (f : ProxyStatus.t -> ProxyStatus.t)
  (l : pool) : pool :=
  match l with
  | [] => []
  | (k, st) :: l' =>
      if String.eqb proxy_url k then (k, f st) :: l'
      else (k, st) :: update proxy_url f l'
  end.

(** [proxy_status = self.proxies[proxy_url]]. *)
Definition the_status (proxy_url : string) : M ProxyStatus.t :=
  fun w =>
    match lookup proxy_url (proxies w) with
    | Some st => Ok st w
    | None => Raise KeyError w
    end.

Definition assign (proxy_url : string) (f : ProxyStatus.t -> ProxyStatus.t)
  : M unit :=
  modify (fun w => with_proxies (update proxy_url f (proxies w)) w).

(** [_save_proxy_data]: [open] and [json.dump] stand outside any [try]. *)
Definition _save_proxy_data : M unit :=
  fun w =>
    if disk_writable w
    then Ok tt (with_proxies_data_file (Some (proxies w)) w)
    else Raise OSError
           (if write_truncates w then with_proxies_data_file None w else w).

Definition _set_cooldown (proxy_url : string) : M unit :=
  _ <- the_status proxy_url ;;
  now <- read_time ;;
  assign proxy_url
    (fun st => ProxyStatus.mk (ProxyStatus.url st) (ProxyStatus.is_working st)
                 (ProxyStatus.fails_count st) (ProxyStatus.last_used st)
                 (Some (now + ProxyConfig.COOLDOWN_TIME)) 0) ;;;
  _save_proxy_data.

Definition _handle_proxy_error (proxy_url : string) : M unit :=
  proxy_status <- the_status proxy_url ;;
  assign proxy_url
    (fun st => ProxyStatus.mk (ProxyStatus.url st) (ProxyStatus.is_working st)
                 (ProxyStatus.fails_count st + 1) (ProxyStatus.last_used st)
                 (ProxyStatus.cooldown_until st) (ProxyStatus.requests_count st)) ;;;
  (if ProxyStatus.fails_count proxy_status + 1 >=? ProxyConfig.MAX_FAILS
   then
     assign proxy_url
       (fun st => ProxyStatus.mk (ProxyStatus.url st) false
                    (ProxyStatus.fails_count st) (ProxyStatus.last_used st)
                    (ProxyStatus.cooldown_until st) (ProxyStatus.requests_count st)) ;;;
     _set_cooldown proxy_url
   else ret tt) ;;;
  _save_proxy_data.

Definition _handle_proxy_success (proxy_url : string) : M unit :=
  _ <- the_status proxy_url ;;
  assign proxy_url
    (fun st => ProxyStatus.mk (ProxyStatus.url st) (ProxyStatus.is_working st)
                 0 (ProxyStatus.last_used st)
                 (ProxyStatus.cooldown_until st) (ProxyStatus.requests_count st + 1)) ;;;
  now <- read_time ;;
  assign proxy_url
    (fun st => ProxyStatus.mk (ProxyStatus.url st) (ProxyStatus.is_working st)
                 (ProxyStatus.fails_count st) now
                 (ProxyStatus.cooldown_until st) (ProxyStatus.requests_count st)) ;;;
  _save_proxy_data.

(** [proxy_status.cooldown_until and time.time() < proxy_status.cooldown_until]:
    the clock is read only when [cooldown_until] is set and not zero. *)
Definition in_cooldown (st : ProxyStatus.t) : M bool :=
  match ProxyStatus.cooldown_until st with
  | Some c =>
      if c =? 0 then ret false
      else now <- read_time ;; ret (now <? c)
  | None => ret false
  end.

(** The [while attempts > 0] loop of [_get_next_available_proxy]. *)
Fixpoint scan (attempts : nat) : M (option string) :=
  match attempts with
  | O => ret None
  | S attempts' =>
      w <- get_world ;;
      let index := ((current_proxy_index w + 1) mod List.length (proxies w))%nat in
      modify (with_current_proxy_index index) ;;;
      match nth_error (map fst (proxies w)) index with
      | None => raise IndexError
      | Some proxy_url =>
          proxy_status <- the_status proxy_url ;;
          if negb (ProxyStatus.is_working proxy_status) then scan attempts'
          else
            cooling <- in_cooldown proxy_status ;;
            if cooling then scan attempts'
            else if ProxyStatus.requests_count proxy_status
                      >=? ProxyConfig.MAX_REQUESTS_PER_PROXY
            then _set_cooldown proxy_url ;;; scan attempts'
            else ret (Some proxy_url)
      end
  end.

Definition _get_next_available_proxy : M (option string) :=
  w <- get_world ;;
  scan (List.length (proxies w)).

(** The decorator [with_proxy], applied to [func]; [func] receives the
    proxy as its [proxy] argument. *)
Definition with_proxy {A : Type} (func : string -> M A) : M A :=
  proxy_url <- _get_next_available_proxy ;;
  match proxy_url with
  | None => raise NoProxyException
  | Some proxy_url =>
      if String.eqb proxy_url "" then raise NoProxyException
      else
        try_except
          (result <- func proxy_url ;;
           _handle_proxy_success proxy_url ;;;
           ret result)
          (fun e => _handle_proxy_error proxy_url ;;; raise e)
  end.

(** [ProxyStatus(url=proxy)]: the other fields take their defaults, and
    the default of [last_used] is what [time.time()] reads. *)
Definition new_status (url : string) : M ProxyStatus.t :=
  now <- read_time ;;
  ret (ProxyStatus.mk url true 0 now None 0).

(** The [for proxy in proxy_list] loop of [_load_proxies]; [proxy_list]
    holds the stripped lines of [config/proxies.txt] that are not empty. *)
Fixpoint add_proxies (proxy_list : list string) : M unit :=
  match proxy_list with
  | [] => ret tt
  | proxy :: rest =>
      let proxy :=
        if negb (Py.startswith proxy "http") then "http://" ++ proxy
        else proxy in
      w <- get_world ;;
      (match lookup proxy (proxies w) with
       | Some _ => ret tt
       | None =>
           st <- new_status proxy ;;
           modify (fun w => with_proxies (proxies w ++ [(proxy, st)])%list w)
       end) ;;;
      add_proxies rest
  end.

(** The [for proxy_url, status in data.items()] loop of
    [_load_proxy_data]. *)
Fixpoint restore (data : pool) : M unit :=
  match data with
  | [] => ret tt
  | (proxy_url, status) :: rest =>
      w <- get_world ;;
      (match lookup proxy_url (proxies w) with
       | Some _ => assign proxy_url (fun _ => status)
       | None => ret tt
       end) ;;;
      restore rest
  end.

(** [_load_proxy_data]: a missing file and a file that is not JSON lead to
    [_save_proxy_data]. *)
Definition _load_proxy_data : M unit :=
  w <- get_world ;;
  match proxies_data_file w with
  | Some data => restore data
  | None => _save_proxy_data
  end.

(** The [for proxy_url, is_working in zip(self.proxies.keys(), results)]
    loop of [validate_all_proxies]. *)
Fixpoint set_working (results : list (string * bool)) : M unit :=
  match results with
  | [] => ret tt
  | (proxy_url, is_working) :: rest =>
      _ <- the_status proxy_url ;;
      assign proxy_url
        (fun st => ProxyStatus.mk (ProxyStatus.url st) is_working
                     (ProxyStatus.fails_count st) (ProxyStatus.last_used st)
                     (ProxyStatus.cooldown_until st)
                     (ProxyStatus.requests_count st)) ;;;
      set_working rest
  end.

(** [validate_all_proxies], given what [check_proxy] answers for each
    proxy: [True] when the test request through it came back with status
    200, [False] otherwise and on any exception. *)
Definition validate_all_proxies (check_proxy : string -> bool) : M unit :=
  w <- get_world ;;
  let keys := map fst (proxies w) in
  set_working (combine keys (map check_proxy keys)) ;;;
  _save_proxy_data.

End ProxyManager.

(* ================================================================== *)
(** * [ApiKeyManager] *)
(* ================================================================== *)

Module ApiKeyManager.

(** [get_next_key]: the next key of [itertools.cycle(self._api_keys)], or
    [None] when no key was loaded. *)
Definition get_next_key : M (option string) :=
  fun w =>
    match api_keys w with
    | [] => Ok None w
    | _ =>
        Ok (nth_error (api_keys w) (key_index w))
           (with_key_index ((key_index w + 1) mod List.length (api_keys w))%nat w)
    end.

(** [_load_api_keys], given the lines of [chainbase_api_keys.txt], or
    [None] when the file is missing. *)
Definition _load_api_keys (file : option (list string)) : list string :=
  match file with
  | Some lines =>
      map Py.str_strip
          (filter (fun key => negb (String.eqb (Py.str_strip key) "")) lines)
  | None => []
  end.

End ApiKeyManager.

(* ================================================================== *)
(** * [ContractLoader] and the work list *)
(* ================================================================== *)

Module ContractLoader.

(** [address, chain = line.strip().split()]; [None] stands for the
    [ValueError] of an unpacking that does not find two values. *)
Definition parse_line (line : string) : option Contract.t :=
  match Py.str_split (Py.str_strip line) with
  | [address; chain] => Some (Contract.mk address chain)
  | _ => None
  end.

(** The [for line in file] loop; the [ValueError] of a line ends it, and
    [contracts] keeps what was appended before. *)
Fixpoint read_lines (lines : list string) (contracts : list Contract.t)
  : list Contract.t :=
  match lines with
  | [] => contracts
  | line :: rest =>
      match parse_line line with
      | Some contract => read_lines rest (contracts ++ [contract])%list
      | None => contracts
      end
  end.

(** [load_contracts], given the lines of [contracts.txt], or [None] when
    the file is missing. *)
Definition load_contracts (file : option (list string)) : list Contract.t :=
  match file with
  | Some lines => read_lines lines []
  | None => []
  end.

End ContractLoader.

(** [TraderParser.parse_contracts] of [main.py]: empty lines are skipped,
    and the [ValueError] of a line is not caught ([None]). *)
Module TraderParser.

Fixpoint read_lines (lines : list string) (contracts : list Contract.t)
  : option (list Contract.t) :=
  match lines with
  | [] => Some contracts
  | line :: rest =>
      if negb (String.eqb (Py.str_strip line) "")
      then match ContractLoader.parse_line line with
           | Some contract => read_lines rest (contracts ++ [contract])%list
           | None => None
           end
      else read_lines rest contracts
  end.

Definition parse_contracts (file : option (list string))
  : option (list Contract.t) :=
  match file with
  | Some lines => read_lines lines []
  | None => Some []
  end.

End TraderParser.

(** The [for contract in all_contracts] loop of [process_all_contracts],
    the same in both engines: [contracts.insert(0, contract)] for a contract
    whose address is in [unfinished_contracts], [contracts.append(contract)]
    for the others. *)
Fixpoint order_contracts (unfinished_contracts : list string)
  (all_contracts contracts : list Contract.t) : list Contract.t :=
  match all_contracts with
  | [] => contracts
  | contract :: rest =>
      order_contracts unfinished_contracts rest
        (if existsb (String.eqb (Contract.address contract)) unfinished_contracts
         then contract :: contracts
         else (contracts ++ [contract])%list)
  end.

(** [process_all_contracts] up to the list of tasks: the contracts in the
    order in which they are handed to the workers. *)
Definition contracts_to_process (file : option (list string))
  : M (list Contract.t) :=
  unfinished_contracts <- DBManager.get_unfinished_contracts ;;
  (match unfinished_contracts with [] => ret tt | _ :: _ => log end) ;;;
  ret (order_contracts unfinished_contracts
         (ContractLoader.load_contracts file) []).

(* ================================================================== *)
(** * The request both engines send *)
(* ================================================================== *)

(** [session.get(url, headers, params, proxy)] followed by
    [response.json()]. *)
Definition session_get (r : Request) : M NetOutcome :=
  fun w => Ok (network w (List.length (sent w)) r) (with_sent (sent w ++ [r]) w).

(** The body of [_make_async_request], the same in both files. *)
Definition make_request (contract : Contract.t) (page : json) (limit : Z)
  (proxy : string) : M (option ApiResponse.t) :=
  match Contract.chain_id contract with
  | None => ret None
  | Some chain_id =>
      if String.eqb chain_id "" then ret None
      else
        api_key <- ApiKeyManager.get_next_key ;;
        match api_key with
        | None => ret None
        | Some api_key =>
            if String.eqb api_key "" then ret None
            else
              outcome <- session_get
                (mkRequest
                   (ChainbaseConfig.BASE_URL ++ ChainbaseConfig.HOLDERS_ENDPOINT)
                   api_key chain_id (Py.str (JInt limit)) (Py.str page)
                   (Contract.address contract) proxy) ;;
              match outcome with
              | NetResponse status body =>
                  log ;;; ret (Some (ApiResponse.from_response status body))
              | NetException => log ;;; ret None
              end
        end
  end.

(** [@ProxyManager.with_proxy  async def _make_async_request(...)]. *)
Definition _make_async_request (contract : Contract.t) (page : json)
  (limit : Z) : M (option ApiResponse.t) :=
  ProxyManager.with_proxy (make_request contract page limit).

(** [holder if isinstance(holder, str) else holder.get("address")]. *)
Definition item_address (holder : Item) : string :=
  match holder with ItemStr a => a | ItemObj a => a end.

(** [not response or not response.is_success]. *)
Definition failed (response : option ApiResponse.t) : bool :=
  match response with
  | None => true
  | Some r => negb (ApiResponse.is_success r)
  end.

Definition UNKNOWN_ERROR : string := "Неизвестная ошибка".

(** [response.response.message if response and response.response else
    "Неизвестная ошибка"]. *)
Definition error_msg_of (response : option ApiResponse.t) : string :=
  match response with
  | Some r =>
      match ApiResponse.response r with
      | Some (SuccessResponse _ m _ _ _) => m
      | Some (ErrorResponse _ m) => m
      | None => UNKNOWN_ERROR
      end
  | None => UNKNOWN_ERROR
  end.

Definition data_of (r : ApiResponse.t) : list Item :=
  match ApiResponse.response r with
  | Some (SuccessResponse _ _ data _ _) => data
  | _ => []
  end.

Definition next_page_of (r : ApiResponse.t) : json :=
  match ApiResponse.response r with
  | Some (SuccessResponse _ _ _ (Some n) _) => JInt n
  | _ => JNull
  end.

(** [address not in {h.address for h in existing_holders}]. *)
Definition is_new (existing_holders : list TokenHolder.t) (holder : Item) : bool :=
  negb (existsb (fun e => String.eqb (TokenHolder.address e) (item_address holder))
                existing_holders).

(* ================================================================== *)
(** * [services/token_holders_service.py]: [TokenHoldersService] *)
(* ================================================================== *)

(** This file takes [ParsingStatus], [TokenHolder], [ProcessedContract] and
    [ParsingProgress] from [models.py], and the [DBManager] from
    [db_manager.py]. *)
Module TokenHoldersService.

Definition IN_PROGRESS := ParsingStatus.Models ModelsParsingStatus.IN_PROGRESS.
Definition COMPLETED := ParsingStatus.Models ModelsParsingStatus.COMPLETED.
Definition FAILED := ParsingStatus.Models ModelsParsingStatus.FAILED.

Definition _save_progress (contract_address : string)
  (current_page total_pages : json) (status : ParsingStatus.t)
  (error_message : json) : M unit :=
  now <- read_now ;;
  DBManager.save_parsing_progress
    (ParsingProgress.mk (JStr contract_address) current_page total_pages now
       status error_message).

Definition _save_holders (contract : Contract.t) (new_holders : list Item)
  (existing_holders : list TokenHolder.t) (status : ParsingStatus.t) : M unit :=
  let new_token_holders :=
    map (fun holder => TokenHolder.Models (item_address holder) "0")
        (filter (is_new existing_holders) new_holders) in
  let all_token_holders := (existing_holders ++ new_token_holders)%list in
  now <- read_now ;;
  let processed_contract :=
    ProcessedContract.mk (Contract.address contract) (Contract.chain contract)
      now (Z.of_nat (List.length all_token_holders)) all_token_holders status in
  DBManager.save_processed_contract processed_contract ;;;
  (match new_token_holders with
   | [] => ret tt
   | _ => DBManager.add_pending_holders (Contract.address contract) new_token_holders
   end) ;;;
  log.

(** The [while True] loop of [_get_holders_async]; it ends by [break] and
    leaves [all_holders]. *)
Fixpoint page_loop (fuel : nat) (contract : Contract.t) (limit : Z)
  (existing_holders : list TokenHolder.t) (all_holders : list Item)
  (current_page : json) : M (list Item) :=
  match fuel with
  | O => fun _ => OutOfFuel
  | S fuel' =>
      log ;;;
      response <- _make_async_request contract current_page limit ;;
      match response with
      | Some r =>
          if negb (ApiResponse.is_success r)
          then
            log ;;;
            _save_progress (Contract.address contract) current_page JNull
              FAILED (JStr (error_msg_of response)) ;;;
            ret all_holders
          else
            let all_holders := (all_holders ++ data_of r)%list in
            _save_progress (Contract.address contract) current_page JNull
              IN_PROGRESS JNull ;;;
            _save_holders contract all_holders existing_holders IN_PROGRESS ;;;
            if negb (ApiResponse.has_next_page r) then ret all_holders
            else page_loop fuel' contract limit existing_holders all_holders
                   (next_page_of r)
      | None =>
          log ;;;
          _save_progress (Contract.address contract) current_page JNull
            FAILED (JStr (error_msg_of response)) ;;;
          ret all_holders
      end
  end.

Definition _get_holders_async (fuel : nat) (contract : Contract.t) (limit : Z)
  : M (list Item) :=
  processed_contract <- DBManager.get_processed_contract (Contract.address contract) ;;
  match
    match processed_contract with
    | Some pc =>
        if ParsingStatus.eqb (ProcessedContract.status pc) COMPLETED
        then None
        else Some (ProcessedContract.holders pc)
    | None => Some []
    end
  with
  | None => log ;;; ret []
  | Some existing_holders =>
      progress <- DBManager.get_parsing_progress (Contract.address contract) ;;
      let start_page :=
        match progress with
        | Some p =>
            if ParsingStatus.eqb (ParsingProgress.status p) IN_PROGRESS
            then ParsingProgress.current_page p
            else JInt 1
        | None => JInt 1
        end in
      all_holders <- page_loop fuel contract limit existing_holders [] start_page ;;
      (match all_holders, existing_holders with
       | [], [] => ret tt
       | _, _ => _save_holders contract all_holders existing_holders COMPLETED
       end) ;;;
      ret all_holders
  end.

End TokenHoldersService.

(* ================================================================== *)
(** * [contract/get_holders.py]: the second [TokenHoldersService] *)
(* ================================================================== *)

(** This file takes [ParsingStatus], [TokenHolder], [ProcessedContract] and
    [ParsingProgress] from [db_manager.py]. *)
Module GetHolders.

Definition IN_PROGRESS := ParsingStatus.Db DbParsingStatus.IN_PROGRESS.
Definition COMPLETED := ParsingStatus.Db DbParsingStatus.COMPLETED.
Definition FAILED := ParsingStatus.Db DbParsingStatus.FAILED.

(** A read of the global [is_interrupted]. *)
Definition read_flag : M bool :=
  fun w => Ok (is_interrupted w (flag_reads w))
              (with_flag_reads (S (flag_reads w)) w).

Definition _save_intermediate_holders (contract : Contract.t)
  (new_holders : list Item) (existing_holders : list TokenHolder.t)
  (status : ParsingStatus.t) : M unit :=
  let new_token_holders :=
    map (fun holder => TokenHolder.Db (item_address holder) "0" false None)
        (filter (is_new existing_holders) new_holders) in
  let all_token_holders := (existing_holders ++ new_token_holders)%list in
  now <- read_now ;;
  let processed_contract :=
    ProcessedContract.mk (Contract.address contract) (Contract.chain contract)
      now (Z.of_nat (List.length all_token_holders)) all_token_holders status in
  DBManager.save_processed_contract processed_contract ;;;
  (match new_token_holders with
   | [] => ret tt
   | _ => DBManager.add_pending_holders (Contract.address contract) new_token_holders
   end) ;;;
  log.

(** The local variables the loop leaves behind; [response] is unbound
    until the first request returns. *)
Record Locals : Type := mkLocals {
  l_all_holders : list Item;
  l_current_page : json;
  l_response : option (option ApiResponse.t);
  l_progress : option ParsingProgress.t
}.

(** [progress = ParsingProgress(...); self.db_manager.save_parsing_progress(progress)]. *)
Definition save_progress (contract_address : string)
  (current_page total_pages : json) (status : ParsingStatus.t)
  (error_message : json) : M ParsingProgress.t :=
  now <- read_now ;;
  let progress :=
    ParsingProgress.mk (JStr contract_address) current_page total_pages now
      status error_message in
  DBManager.save_parsing_progress progress ;;;
  ret progress.

(** The [while not is_interrupted] loop. *)
Fixpoint page_loop (fuel : nat) (contract : Contract.t) (limit : Z)
  (existing_holders : list TokenHolder.t) (l : Locals) : M Locals :=
  match fuel with
  | O => fun _ => OutOfFuel
  | S fuel' =>
      stop <- read_flag ;;
      if stop then ret l
      else
        log ;;;
        response <- _make_async_request contract (l_current_page l) limit ;;
        match response with
        | Some r =>
            if negb (ApiResponse.is_success r)
            then
              log ;;;
              progress <- save_progress (Contract.address contract)
                            (l_current_page l) JNull FAILED
                            (JStr (error_msg_of response)) ;;
              ret (mkLocals (l_all_holders l) (l_current_page l) (Some response)
                     (Some progress))
            else
              let all_holders := (l_all_holders l ++ data_of r)%list in
              progress <- save_progress (Contract.address contract)
                            (l_current_page l) JNull IN_PROGRESS JNull ;;
              (match all_holders with
               | [] => ret tt
               | _ => _save_intermediate_holders contract all_holders
                        existing_holders IN_PROGRESS
               end) ;;;
              if negb (ApiResponse.has_next_page r)
              then ret (mkLocals all_holders (l_current_page l) (Some response)
                          (Some progress))
              else page_loop fuel' contract limit existing_holders
                     (mkLocals all_holders (next_page_of r) (Some response)
                        (Some progress))
        | None =>
            log ;;;
            progress <- save_progress (Contract.address contract)
                          (l_current_page l) JNull FAILED
                          (JStr (error_msg_of response)) ;;
            ret (mkLocals (l_all_holders l) (l_current_page l) (Some response)
                   (Some progress))
        end
  end.

Definition _get_holders_async (fuel : nat) (contract : Contract.t) (limit : Z)
  : M (list Item) :=
  processed_contract <- DBManager.get_processed_contract (Contract.address contract) ;;
  match
    match processed_contract with
    | Some pc =>
        if ParsingStatus.eqb (ProcessedContract.status pc) COMPLETED
        then None
        else Some (ProcessedContract.holders pc)
    | None => Some []
    end
  with
  | None => log ;;; ret []
  | Some existing_holders =>
      progress <- DBManager.get_parsing_progress (Contract.address contract) ;;
      let start_page :=
        match progress with
        | Some p =>
            if ParsingStatus.eqb (ParsingProgress.status p) IN_PROGRESS
            then ParsingProgress.current_page p
            else JInt 1
        | None => JInt 1
        end in
      l <- page_loop fuel contract limit existing_holders
             (mkLocals [] start_page None progress) ;;
      interrupted <- read_flag ;;
      unfinished <-
        (if interrupted then ret true
         else match l_response l with
              | Some response => ret (failed response)
              | None => raise UnboundLocalError
              end) ;;
      if unfinished
      then
        log ;;;
        _ <- save_progress (Contract.address contract) (l_current_page l)
               (match l_progress l with
                | Some p => ParsingProgress.total_pages p
                | None => JNull
                end)
               IN_PROGRESS JNull ;;
        (match l_all_holders l with
         | [] => ret tt
         | _ => _save_intermediate_holders contract (l_all_holders l)
                  existing_holders IN_PROGRESS
         end) ;;;
        ret (l_all_holders l)
      else
        (match l_all_holders l, existing_holders with
         | [], [] => ret tt
         | _, _ => _save_intermediate_holders contract (l_all_holders l)
                     existing_holders COMPLETED
         end) ;;;
        ret (l_all_holders l)
  end.

End GetHolders.

(* ================================================================== *)
(** * Notions the properties are stated with *)
(* ================================================================== *)

(** ** Values of the classes of [db_manager.py], as annotated there *)

Definition is_db_status (s : ParsingStatus.t) : bool :=
  match s with ParsingStatus.Db _ => true | ParsingStatus.Models _ => false end.

Definition is_db_holder (h : TokenHolder.t) : bool :=
  match h with TokenHolder.Db _ _ _ _ => true | TokenHolder.Models _ _ => false end.

(** A [db_manager.ParsingProgress]: its [status] is a
    [db_manager.ParsingStatus]. *)
Definition db_progress (p : ParsingProgress.t) : bool :=
  is_db_status (ParsingProgress.status p).

(** A [db_manager.ProcessedContract]: its [status] is a
    [db_manager.ParsingStatus] and its holders are
    [db_manager.TokenHolder]s. *)
Definition db_contract (c : ProcessedContract.t) : bool :=
  is_db_status (ProcessedContract.status c)
  && forallb is_db_holder (ProcessedContract.holders c).

(** The world a computation leaves behind. *)
Definition world_after {A : Type} (m : M A) (w : World) : World :=
  match m w with
  | Ok _ w' => w'
  | Raise _ w' => w'
  | OutOfFuel => w
  end.

(** ** The checkpoint store *)

(** The processed-contract record and the progress record stored for an
    address: what the store's own getters return. *)
Definition stored (address : string) (w : World) : option ProcessedContract.t :=
  match DBManager.get_processed_contract address w with
  | Ok r _ => r
  | _ => None
  end.

Definition stored_progress (address : string) (w : World)
  : option ParsingProgress.t :=
  match DBManager.get_parsing_progress address w with
  | Ok r _ => r
  | _ => None
  end.

(** The record list of [processed_contracts.json], as
    [save_processed_contract] and [get_processed_contract] read it. *)
Definition stored_list (w : World) : option (list json) :=
  match processed_contracts_file w with
  | Some (JDict d) =>
      match Py.get_default "contracts" (JList []) d with
      | JList l => Some l
      | _ => None
      end
  | _ => Some []
  end.

(** An entry of the record list that is a record of [address], and one
    that is a record of another address. *)
Definition is_record_of (address : string) (e : json) : bool :=
  match e with
  | JDict d => DBManager.address_is address d
  | _ => false
  end.

Definition is_other_record (address : string) (e : json) : bool :=
  match e with
  | JDict d => negb (DBManager.address_is address d)
  | _ => false
  end.

(** Where the scans of [get_processed_contract] and
    [save_processed_contract] stop: at the first record of [address]
    ([Some (Some e)]), at the end of the list ([Some None]), or with an
    exception at an entry that is not an object ([None]). *)
Fixpoint first_record (address : string) (l : list json)
  : option (option json) :=
  match l with
  | [] => Some None
  | JDict d :: rest =>
      if DBManager.address_is address d then Some (Some (JDict d))
      else first_record address rest
  | _ :: _ => None
  end.

(** No two holders with the same address, and [holders_count] is the
    length of the holder list. *)
Definition counted (c : ProcessedContract.t) : Prop :=
  NoDup (map TokenHolder.address (ProcessedContract.holders c))
  /\ ProcessedContract.holders_count c
     = Z.of_nat (List.length (ProcessedContract.holders c)).

(** A property of the record stored for an address; said of the record
    the getter returns, and said of a stored entry, of a record list and of
    the file, whatever the clock reads when the entry is read. *)
Definition store_satisfies (P : ProcessedContract.t -> Prop)
  (address : string) (w : World) : Prop :=
  forall c, stored address w = Some c -> P c.

Definition record_satisfies (P : ProcessedContract.t -> Prop) (e : json) : Prop :=
  forall now c, ProcessedContract.from_dict now e = Some c -> P c.

Definition list_satisfies (P : ProcessedContract.t -> Prop)
  (address : string) (l : list json) : Prop :=
  forall e, first_record address l = Some (Some e) -> record_satisfies P e.

Definition file_satisfies (P : ProcessedContract.t -> Prop)
  (address : string) (w : World) : Prop :=
  forall l, stored_list w = Some l -> list_satisfies P address l.

(** The stored record is consistent. *)
Definition store_consistent (address : string) (w : World) : Prop :=
  store_satisfies counted address w.

(** The stored record is not tagged [completed]. *)
Definition not_completed (c : ProcessedContract.t) : Prop :=
  ProcessedContract.status c <> ParsingStatus.Db DbParsingStatus.COMPLETED.

Definition store_open (address : string) (w : World) : Prop :=
  store_satisfies not_completed address w.

(** A sequence of [save_processed_contract] calls; each call comes with
    the state of the disk at that moment, and an exception does not stop
    the sequence. *)
Fixpoint run_saves (calls : list (bool * ProcessedContract.t)) (w : World)
  : World :=
  match calls with
  | [] => w
  | (writable, c) :: calls' =>
      run_saves calls'
        (world_after (DBManager.save_processed_contract c)
           (with_disk_writable writable w))
  end.

(** A call of the sequence is for [address] and brings a record that is
    itself consistent. *)
Definition call_ok (address : string) (call : bool * ProcessedContract.t) : Prop :=
  ProcessedContract.address (snd call) = address /\ counted (snd call).

(** ** The proxy pool *)

(** The entry of [proxy_url] exists and is marked as not working. *)
Definition disabled (proxy_url : string) (w : World) : Prop :=
  exists st, ProxyManager.lookup proxy_url (proxies w) = Some st
             /\ ProxyStatus.is_working st = false.

(** [n] calls of [m] in a row; an exception does not stop the caller. *)
Fixpoint repeat_calls (n : nat) (m : M unit) : M unit :=
  match n with
  | O => ret tt
  | S n' => try_except m (fun _ => ret tt) ;;; repeat_calls n' m
  end.

(** The next entry the scan looks at is usable as it is: it is marked as
    working, it is in no cool-down, and it is below its request quota. *)
Definition next_index (w : World) : nat :=
  ((current_proxy_index w + 1) mod List.length (proxies w))%nat.

Definition proxy_ready (w : World) : bool :=
  match nth_error (map fst (proxies w)) (next_index w) with
  | Some proxy_url =>
      negb (String.eqb proxy_url "")
      && match ProxyManager.lookup proxy_url (proxies w) with
         | Some st =>
             ProxyStatus.is_working st
             && match ProxyStatus.cooldown_until st with
                | None => true
                | Some c => c =? 0
                end
             && (ProxyStatus.requests_count st
                   <? ProxyConfig.MAX_REQUESTS_PER_PROXY)
         | None => false
         end
  | None => false
  end.

(** ** The engines *)

(** [parsing_progress.json], as loaded, has an object under [progress]. *)
Definition progress_dict (w : World) : option (dict * dict) :=
  let data :=
    match parsing_progress_file w with
    | Some (JDict d) => d
    | _ => DBManager._get_default_data DBManager.parsing_progress
    end in
  match Py.lookup "progress" data with
  | Some (JDict pr) => Some (data, pr)
  | _ => None
  end.

Definition progress_ready (w : World) : bool :=
  match progress_dict w with Some _ => true | None => false end.



(** The holders an engine takes as known when it starts. *)
Definition existing_holders (address : string) (w : World) : list TokenHolder.t :=
  match stored address w with
  | Some pc => ProcessedContract.holders pc
  | None => []
  end.



(** What the claims look at in a progress record. *)
Definition progress_summary (address : string) (w : World)
  : option (ParsingStatus.t * json * json) :=
  option_map
    (fun p => (ParsingProgress.status p, ParsingProgress.current_page p,
               ParsingProgress.error_message p))
    (stored_progress address w).

(** ** Invariants of computations *)

(** [triple P m Q R]: from a world in [P], [m] ends with a value and a
    world in [Q], or with an exception and a world in [R]. *)
Definition triple {A : Type} (P : World -> Prop) (m : M A)
  (Q : A -> World -> Prop) (R : World -> Prop) : Prop :=
  forall w, P w ->
    match m w with
    | Ok a w' => Q a w'
    | Raise _ w' => R w'
    | OutOfFuel => True
    end.

(** [m] keeps the invariant [I], however it ends. *)
Definition keeps {A : Type} (I : World -> Prop) (m : M A) : Prop :=
  triple I m (fun _ => I) I.

(** An invariant that does not look at the pending-holder, progress and
    pool files, at the pool, at the key cursor, nor at how often the clock
    was read; one that does not look at how often the flag was read; one
    that does not look at the requests sent; one that does not look at
    [processed_contracts.json]. *)
Definition quiet (I : World -> Prop) : Prop :=
  forall w, I w ->
    (forall v, I (with_pending_holders_file v w))
    /\ (forall v, I (with_parsing_progress_file v w))
    /\ (forall v, I (with_proxies_data_file v w))
    /\ (forall v, I (with_proxies v w))
    /\ (forall v, I (with_current_proxy_index v w))
    /\ (forall v, I (with_key_index v w))
    /\ (forall v, I (with_clock_reads v w)).

Definition ignores_flag (I : World -> Prop) : Prop :=
  forall w v, I w -> I (with_flag_reads v w).

Definition ignores_requests (I : World -> Prop) : Prop :=
  forall w v, I w -> I (with_sent v w).

Definition ignores_records (I : World -> Prop) : Prop :=
  forall w v, I w -> I (with_processed_contracts_file v w).

(** [n] calls of [m], one after the other; an exception ends the
    sequence. *)
Fixpoint in_a_row (n : nat) (m : M unit) : M unit :=
  match n with
  | O => ret tt
  | S n' => m ;;; in_a_row n' m
  end.

(** ** What a run leaves to see of its last request and of the flag *)

(** The answer the last request sent got, when it got one. *)
Definition last_answer (w : World) : option ApiResponse.t :=
  match rev (sent w) with
  | [] => None
  | r :: earlier =>
      match network w (List.length earlier) r with
      | NetResponse status body => Some (ApiResponse.from_response status body)
      | NetException => None
      end
  end.

(** What the last read of [is_interrupted] gave. *)
Definition last_flag (w : World) : option bool :=
  match flag_reads w with
  | O => None
  | S n => Some (is_interrupted w n)
  end.

(** Once set, the flag stays set: [handle_interrupt] only assigns [True]. *)
Definition flag_stays_set (w : World) : Prop :=
  forall n, is_interrupted w n = true -> is_interrupted w (S n) = true.

(** The stored record of the contract is not completed, and the flag
    stays set once it is set. *)
Definition open_run (address : string) (w : World) : Prop :=
  file_satisfies not_completed address w /\ flag_stays_set w.

(** The response in hand is the answer to the last request sent. *)
Definition answered (response : option ApiResponse.t) (w : World) : Prop :=
  forall r, response = Some r -> last_answer w = Some r.

(** How the [while not is_interrupted] loop of [get_holders.py] can end:
    the flag was read set, or a [break] after a failed request, or a
    [break] after a page that names no next page. *)
Definition loop_exit (l : GetHolders.Locals) (w : World) : Prop :=
  last_flag w = Some true
  \/ exists response,
       GetHolders.l_response l = Some response
       /\ answered response w
       /\ (failed response = true
           \/ exists r, response = Some r
                        /\ ApiResponse.has_next_page r = false).

(** A crawl that reached the last page: the flag was not set when it was
    last read, and the last request sent was answered with a success that
    names no next page. *)
Definition clean_finish (w : World) : Prop :=
  last_flag w = Some false
  /\ exists r, last_answer w = Some r
               /\ ApiResponse.is_success r = true
               /\ ApiResponse.has_next_page r = false.

(** ** More of the checkpoint store *)

(** The first entry of the record list that is a record of [address], as
    the file has it. *)
Definition stored_entry (address : string) (w : World) : option (option json) :=
  match stored_list w with
  | Some l => first_record address l
  | None => None
  end.

(** The holders queued for an address: what [get_pending_holders]
    returns. *)
Definition queued (address : string) (w : World) : list TokenHolder.t :=
  match DBManager.get_pending_holders address w with
  | Ok hs _ => hs
  | _ => []
  end.

(** [pending_holders.json], as loaded, has an object under [pending]. *)
Definition pending_dict (w : World) : option dict :=
  let data :=
    match pending_holders_file w with
    | Some (JDict d) => d
    | _ => DBManager._get_default_data DBManager.pending_holders
    end in
  match Py.get_default "pending" (JDict []) data with
  | JDict pending => Some pending
  | _ => None
  end.

(** What [get_pending_holders] reads, in terms of the dictionary under
    [pending]. *)
Definition queue_of (address : string) (pending : dict) : list TokenHolder.t :=
  match Py.lookup address pending with
  | Some v =>
      match Py.iter v with
      | Some items =>
          match traverse TokenHolder.from_dict items with
          | Some hs => hs
          | None => []
          end
      | None => []
      end
  | None => []
  end.

(** The addresses [get_unfinished_contracts] lists. *)
Definition listed_unfinished (w : World) : list string :=
  match DBManager.get_unfinished_contracts w with
  | Ok l _ => l
  | _ => []
  end.

(** No key occurs twice, as in every dictionary that [json.load]
    returns. *)
Fixpoint distinct_keys (d : dict) : bool :=
  match d with
  | [] => true
  | (k, _) :: d' => negb (Py.mem k d') && distinct_keys d'
  end.

(** Every progress record of the dictionary has a status that
    [db_manager.ParsingStatus] knows. *)
Definition statuses_readable (pr : dict) : bool :=
  match DBManager.unfinished_of pr with Some _ => true | None => false end.

(** ** More of the proxy pool *)

(** The cool-down of an entry, if it has one, had ended when the clock was
    last read. *)
Definition cooled_down (st : ProxyStatus.t) (w : World) : Prop :=
  match ProxyStatus.cooldown_until st with
  | None => True
  | Some c =>
      c = 0 \/ exists n, clock_reads w = S n /\ c <= time_time w n
  end.

(** The entry of [proxy_url] is marked as working, is below its request
    quota and is in no cool-down. *)
Definition usable (proxy_url : string) (w : World) : Prop :=
  exists st,
    ProxyManager.lookup proxy_url (proxies w) = Some st
    /\ ProxyStatus.is_working st = true
    /\ ProxyStatus.requests_count st < ProxyConfig.MAX_REQUESTS_PER_PROXY
    /\ cooled_down st w.

(** An entry that the selection hands out as it is, whatever the clock
    reads. *)
Definition entry_ready (entry : string * ProxyStatus.t) : bool :=
  negb (String.eqb (fst entry) "")
  && ProxyStatus.is_working (snd entry)
  && match ProxyStatus.cooldown_until (snd entry) with
     | None => true
     | Some c => c =? 0
     end
  && (ProxyStatus.requests_count (snd entry)
        <? ProxyConfig.MAX_REQUESTS_PER_PROXY).

(** [n] selections in a row, and what they returned. *)
Fixpoint selections (n : nat) : M (list (option string)) :=
  match n with
  | O => ret []
  | S n' =>
      r <- ProxyManager._get_next_available_proxy ;;
      rs <- selections n' ;;
      ret (r :: rs)
  end.

(** The key under which [_load_proxies] files a line of
    [config/proxies.txt]. *)
Definition proxy_url_of (line : string) : string :=
  if negb (Py.startswith line "http") then "http://" ++ line else line.

Definition set_is_working (b : bool) (st : ProxyStatus.t) : ProxyStatus.t :=
  ProxyStatus.mk (ProxyStatus.url st) b (ProxyStatus.fails_count st)
    (ProxyStatus.last_used st) (ProxyStatus.cooldown_until st)
    (ProxyStatus.requests_count st).

(** A status as [ProxyStatus(url=...)] builds it. *)
Definition fresh_status (st : ProxyStatus.t) : bool :=
  ProxyStatus.is_working st
  && (ProxyStatus.fails_count st =? 0)
  && match ProxyStatus.cooldown_until st with None => true | Some _ => false end
  && (ProxyStatus.requests_count st =? 0).

(** The entries that [_load_proxies] makes: the key starts with [http],
    the status is fresh, and its [url] is the key. *)
Definition loaded_entry (entry : string * ProxyStatus.t) : Prop :=
  Py.startswith (fst entry) "http" = true
  /\ fresh_status (snd entry) = true
  /\ ProxyStatus.url (snd entry) = fst entry.

(** Every proxy of the pool is marked as not working. *)
Definition all_marked_failed (w : World) : bool :=
  forallb (fun entry => negb (ProxyStatus.is_working (snd entry))) (proxies w).

(** [holder] is among the holders of the record stored for [address]. *)
Definition holder_stored (address holder : string) (w : World) : Prop :=
  exists pc,
    stored address w = Some pc
    /\ In holder (map TokenHolder.address (ProcessedContract.holders pc)).

(** The requests of [w] are those of [before] and more. *)
Definition sent_after (before : list Request) (w : World) : Prop :=
  exists rest, sent w = (before ++ rest)%list.

(** Since [before], nothing was sent, or the first request sent asks for
    [page] of the contract at [address]. *)
Definition first_request_asks (before : list Request) (page address : string)
  (w : World) : Prop :=
  sent w = before
  \/ exists r rest,
       sent w = (before ++ r :: rest)%list
       /\ req_page r = page
       /\ req_contract_address r = address.

(** What a request function leaves when started at [before]: no answer
    and nothing sent, or one request sent, for [page] of [address]. *)
Definition one_request (before : list Request) (address : string)
  (page : json) (response : option ApiResponse.t) (w : World) : Prop :=
  (response = None /\ sent w = before)
  \/ exists r,
       sent w = (before ++ [r])%list
       /\ req_page r = Py.str page
       /\ req_contract_address r = address.

(** ** Loaders *)

(** [n] calls of [m] in a row, and what they returned. *)
Fixpoint results_of {A : Type} (n : nat) (m : M A) : M (list A) :=
  match n with
  | O => ret []
  | S n' =>
      r <- m ;;
      rs <- results_of n' m ;;
      ret (r :: rs)
  end.

(** [contract.address in unfinished_contracts]. *)
Definition is_unfinished (unfinished_contracts : list string)
  (contract : Contract.t) : bool :=
  existsb (String.eqb (Contract.address contract)) unfinished_contracts.

(** A line feed, as it ends the lines of a text file. *)
Definition newline : string := String (ascii_of_N 10) EmptyString.

(** ** Sample values *)

Module Sample.

Definition t0 : DateTime.t := DateTime.mk 2024 1 1 0 0 0 0 eq_refl.
Definition t1 : DateTime.t := DateTime.mk 2024 2 29 13 5 9 1500 eq_refl.

Definition progress : ParsingProgress.t :=
  ParsingProgress.mk (JStr "0xABC") (JInt 5) JNull t1
    (ParsingStatus.Db DbParsingStatus.IN_PROGRESS) JNull.

Definition holder1 : TokenHolder.t := TokenHolder.Db "0x1" "0" false None.
Definition holder2 : TokenHolder.t := TokenHolder.Db "0x2" "17" true (Some t1).

Definition contract : ProcessedContract.t :=
  ProcessedContract.mk "0xABC" "ethereum" t0 2 [holder1; holder2]
    (ParsingStatus.Db DbParsingStatus.IN_PROGRESS).

(** A stored record whose status is not a status. *)
Definition broken_record : json :=
  JDict [("address", JStr "0xABC"); ("chain", JStr "ethereum");
         ("processed_at", JStr "2024-01-01T00:00:00");
         ("holders_count", JInt 1);
         ("holders", JList [JDict [("address", JStr "0xOLD"); ("balance", JStr "0")]]);
         ("status", JStr "done")].

Definition other_record : json :=
  JDict [("address", JStr "0xDEF"); ("chain", JStr "bsc");
         ("processed_at", JStr "2024-01-01T00:00:00");
         ("holders_count", JInt 0); ("holders", JList []);
         ("status", JStr "completed")].

Definition holder3 : TokenHolder.t := TokenHolder.Models "0x3" "0".

Definition contract' : ProcessedContract.t :=
  ProcessedContract.mk "0xABC" "ethereum" t1 2 [holder2; holder3]
    (ParsingStatus.Models ModelsParsingStatus.COMPLETED).

(** A record with the same holder twice and a count of seven. *)
Definition miscounted : ProcessedContract.t :=
  ProcessedContract.mk "0xABC" "ethereum" t0 7 [holder1; holder1]
    (ParsingStatus.Db DbParsingStatus.IN_PROGRESS).

Definition proxy1 : ProxyStatus.t :=
  ProxyStatus.mk "http://p1" true 0 0 None 0.

(** A fresh installation: the three files as [_initialize_db] writes them,
    one proxy, one API key, and an environment given by [clock], [net] and
    [flag]. *)
Definition fresh (clock : nat -> Z) (net : nat -> Request -> NetOutcome)
  (flag : nat -> bool) : World :=
  mkWorld (Some (JDict [("contracts", JList [])]))
          (Some (JDict [("pending", JDict [])]))
          (Some (JDict [("progress", JDict [])]))
          None true false [("http://p1", proxy1)] 0 ["key1"] 0 0
          clock (fun _ => t0) [] net 0 flag.

Definition no_network : nat -> Request -> NetOutcome :=
  fun _ _ => NetException.

(** The holder endpoint of the contract: page 1 has two holders and points
    to page 2. *)
Definition page1 : Body :=
  mkBody 0 (Some "ok") [ItemStr "0x1"; ItemStr "0x2"] (Some 2) 2.

(** Page 2 has the last holder. *)
Definition page2 : Body := mkBody 0 (Some "ok") [ItemStr "0x3"] None 1.

(** An error body without a message. *)
Definition error_body : Body := mkBody 500 None [] None 0.

(** A server that answers page 1 and fails with HTTP 500 on every other
    page. *)
Definition fails_after_page_1 : nat -> Request -> NetOutcome :=
  fun _ r =>
    if String.eqb (req_page r) "1" then NetResponse 200 page1
    else NetResponse 500 error_body.

(** A server that answers every page it has. *)
Definition healthy : nat -> Request -> NetOutcome :=
  fun _ r =>
    if String.eqb (req_page r) "1" then NetResponse 200 page1
    else if String.eqb (req_page r) "2" then NetResponse 200 page2
    else NetResponse 404 error_body.

(** A server that fails with HTTP 500 on every request. *)
Definition broken : nat -> Request -> NetOutcome :=
  fun _ _ => NetResponse 500 error_body.

Definition never : nat -> bool := fun _ => false.

Definition the_contract : Contract.t := Contract.mk "0xABC" "ethereum".


(** A crawl that stopped after page 4: one holder is stored, and the
    progress record says that page 5 comes next. *)
Definition interrupted_crawl (net : nat -> Request -> NetOutcome) : World :=
  with_parsing_progress_file
    (Some (JDict [("progress",
                   JDict [("0xABC",
                           ParsingProgress.to_dict
                             (ParsingProgress.mk (JStr "0xABC") (JInt 5) JNull t0
                                (ParsingStatus.Db DbParsingStatus.IN_PROGRESS)
                                JNull))])]))
    (with_processed_contracts_file
       (Some (JDict [("contracts",
                      JList [ProcessedContract.to_dict
                               (ProcessedContract.mk "0xABC" "ethereum" t0 1
                                  [holder1]
                                  (ParsingStatus.Db DbParsingStatus.IN_PROGRESS))])]))
       (fresh (fun _ => 1000) net never)).

Definition quiet : World := fresh (fun _ => 1000) no_network (fun _ => false).

(** The only proxy has used up its request quota. *)
Definition pool_at_quota : World :=
  with_proxies
    [("http://p1", ProxyStatus.mk "http://p1" true 0 0 None 200)] quiet.

(** The same, with two records in [processed_contracts.json]. *)
Definition with_broken_record : World :=
  with_processed_contracts_file
    (Some (JDict [("contracts", JList [other_record; broken_record])])) quiet.

(** The pool after twenty failures of its only proxy in a row, all of them
    at time [1000]. *)
Definition pool_after_failures : World :=
  world_after
    (repeat_calls 20 (ProxyManager._handle_proxy_error "http://p1"))
    (fresh (fun _ => 1000) no_network (fun _ => false)).

(** A pool of two proxies, both marked as not working. *)
Definition dead_pool : World :=
  with_proxies
    [("http://p1", ProxyStatus.mk "http://p1" false 20 0 (Some 1120) 0);
     ("http://p2", ProxyStatus.mk "http://p2" false 20 0 (Some 1120) 0)]
    (fresh (fun _ => 5000) healthy never).

(** The pending file with a queue of two holders for one contract and a
    queue of one holder for another. *)
Definition with_pending_queues : World :=
  with_pending_holders_file
    (Some (JDict
       [("pending",
         JDict [("0xABC", JList [TokenHolder.to_dict holder1;
                                 TokenHolder.to_dict holder2]);
                ("0xDEF", JList [TokenHolder.to_dict holder3])])]))
    quiet.

(** A key file of three lines, the second of them blank. *)
Definition key_file : list string :=
  [(" key1 " ++ newline)%string; newline; ("key2" ++ newline)%string].

(** The fresh installation with the keys of [key_file]. *)
Definition with_loaded_keys : World :=
  mkWorld (Some (JDict [("contracts", JList [])]))
          (Some (JDict [("pending", JDict [])]))
          (Some (JDict [("progress", JDict [])]))
          None true false [("http://p1", proxy1)] 0
          (ApiKeyManager._load_api_keys (Some key_file)) 0 0
          (fun _ => 1000) (fun _ => t0) [] no_network 0 never.

(** A progress entry whose [status] is no value of [ParsingStatus]. *)
Definition paused_entry : json := JDict [("status", JStr "paused")].

(** The interrupted crawl, with such an entry for a second contract. *)
Definition with_unreadable_status : World :=
  with_parsing_progress_file
    (Some (JDict [("progress",
                   JDict [("0xABC",
                           ParsingProgress.to_dict
                             (ParsingProgress.mk (JStr "0xABC") (JInt 5) JNull t0
                                (ParsingStatus.Db DbParsingStatus.IN_PROGRESS)
                                JNull));
                          ("0xDEF", paused_entry)])]))
    (interrupted_crawl healthy).

(** A contracts file of two lines. *)
Definition contracts_file : list string :=
  [("0x123 base" ++ newline)%string; ("0xABC ethereum" ++ newline)%string].

End Sample.

(* ================================================================== *)
(** * Facts about [datetime] *)
(* ================================================================== *)

Module DateTimeFacts.
Import DateTime.

Lemma digit_val_char (d : Z) :
  0 <= d < 10 -> Py.digit_val (Py.digit_char d) = Some d.
Proof.
  intros H.
  assert (d = 0 \/ d = 1 \/ d = 2 \/ d = 3 \/ d = 4 \/ d = 5 \/ d = 6
          \/ d = 7 \/ d = 8 \/ d = 9) as Hd by lia.
  repeat (destruct Hd as [-> | Hd]; [reflexivity |]).
  subst; reflexivity.
Qed.

Lemma pow10_succ (k : nat) : 10 ^ Z.of_nat (S k) = 10 * 10 ^ Z.of_nat k.
Proof. rewrite Nat2Z.inj_succ, Z.pow_succ_r by lia. reflexivity. Qed.

Lemma pow10_pos (k : nat) : 0 < 10 ^ Z.of_nat k.
Proof. apply Z.pow_pos_nonneg; lia. Qed.

Lemma read_digits_pad (k : nat) : forall (acc n : Z) (rest : string),
  0 <= n ->
  read_digits k acc (pad k n ++ rest)
  = Some (acc * 10 ^ Z.of_nat k + n mod 10 ^ Z.of_nat k, rest).
Proof.
  induction k as [| k IH]; intros acc n rest Hn.
  - simpl. rewrite Z.mod_1_r. do 2 f_equal. lia.
  - cbn [pad append read_digits].
    pose proof (pow10_pos k) as Hp.
    rewrite digit_val_char by (apply Z.mod_pos_bound; lia).
    rewrite IH by assumption.
    do 2 f_equal.
    rewrite pow10_succ.
    rewrite (Z.mul_comm 10 (10 ^ Z.of_nat k)).
    rewrite Z.rem_mul_r by lia.
    ring.
Qed.

Lemma read_digits_pad_exact (k : nat) (n : Z) (rest : string) :
  0 <= n < 10 ^ Z.of_nat k ->
  read_digits k 0 (pad k n ++ rest) = Some (n, rest).
Proof.
  intros H. rewrite read_digits_pad by lia.
  rewrite Z.mod_small by lia. reflexivity.
Qed.

Lemma append_empty (s : string) : s ++ "" = s.
Proof. induction s as [| c s IH]; simpl; [reflexivity | now rewrite IH]. Qed.

Lemma read_digits_pad_end (k : nat) (n : Z) :
  0 <= n < 10 ^ Z.of_nat k ->
  read_digits k 0 (pad k n) = Some (n, "").
Proof.
  intros H. rewrite <- (append_empty (pad k n)) at 1.
  now apply read_digits_pad_exact.
Qed.

Lemma make_eq (d : t) :
  make (year d) (month d) (day d) (hour d) (minute d) (second d)
       (microsecond d) = Some d.
Proof.
  destruct d as [y mo dd h mi s us H]. cbn [year month day hour minute second microsecond].
  unfold make.
  assert (forall (b : bool) (e : valid y mo dd h mi s us = b), b = true ->
            (if b as b' return (valid y mo dd h mi s us = b' -> option t)
             then fun H' => Some (mk y mo dd h mi s us H')
             else fun _ => None) e = Some (mk y mo dd h mi s us H)) as G.
  { intros b e ->. do 2 f_equal. apply UIP_dec. apply bool_dec. }
  apply G. exact H.
Qed.

Lemma days_in_month_le (y m : Z) : days_in_month y m <= 31.
Proof.
  unfold days_in_month.
  destruct (m =? 2); [destruct (is_leap y); lia |].
  destruct ((m =? 4) || (m =? 6) || (m =? 9) || (m =? 11)); lia.
Qed.

Lemma valid_bounds (d : t) :
  0 <= year d < 10 ^ Z.of_nat 4 /\ 0 <= month d < 10 ^ Z.of_nat 2
  /\ 0 <= day d < 10 ^ Z.of_nat 2 /\ 0 <= hour d < 10 ^ Z.of_nat 2
  /\ 0 <= minute d < 10 ^ Z.of_nat 2 /\ 0 <= second d < 10 ^ Z.of_nat 2
  /\ 0 <= microsecond d < 10 ^ Z.of_nat 6.
Proof.
  destruct d as [y mo dd h mi s us H]. cbn [year month day hour minute second microsecond].
  unfold valid in H.
  repeat (apply andb_prop in H; destruct H as [H ?]).
  pose proof (days_in_month_le y mo).
  change (10 ^ Z.of_nat 4) with 10000.
  change (10 ^ Z.of_nat 2) with 100.
  change (10 ^ Z.of_nat 6) with 1000000.
  lia.
Qed.

(** [fromisoformat] reads back what [isoformat] prints. *)
Lemma fromisoformat_isoformat (d : t) : fromisoformat (isoformat d) = Some d.
Proof.
  destruct (valid_bounds d) as (Hy & Hmo & Hd & Hh & Hmi & Hs & Hus).
  unfold fromisoformat, isoformat, parse_date.
  rewrite read_digits_pad_exact by assumption. cbn [append].
  rewrite read_digits_pad_exact by assumption. cbn [append].
  rewrite read_digits_pad_exact by assumption. cbn [append].
  unfold parse_time.
  rewrite read_digits_pad_exact by assumption. cbn [append].
  rewrite read_digits_pad_exact by assumption. cbn [append].
  rewrite read_digits_pad_exact by assumption.
  destruct (microsecond d =? 0) eqn:E.
  - apply Z.eqb_eq in E. rewrite <- E at 1. apply make_eq.
  - cbn [append]. unfold parse_frac.
    rewrite read_digits_pad_end by assumption. cbn [option_map].
    apply make_eq.
Qed.

End DateTimeFacts.

(* ================================================================== *)
(** * Reasoning about computations *)
(* ================================================================== *)

Lemma triple_raise {A : Type} (e : exn) (Q : A -> World -> Prop)
  (R : World -> Prop) :
  triple R (raise e) Q R.
Proof. intros w H. exact H. Qed.

Lemma triple_bind {A B : Type} (P : World -> Prop) (m : M A) (k : A -> M B)
  (Q : A -> World -> Prop) (Q' : B -> World -> Prop) (R : World -> Prop) :
  triple P m Q R ->
  (forall a, triple (Q a) (k a) Q' R) ->
  triple P (bind m k) Q' R.
Proof.
  intros Hm Hk w Hw. unfold bind. specialize (Hm w Hw).
  destruct (m w) as [a w' | e w' |]; [| exact Hm | exact I].
  exact (Hk a w' Hm).
Qed.

Lemma triple_ret {A : Type} (a : A) (P : World -> Prop)
  (Q : A -> World -> Prop) (R : World -> Prop) :
  (forall w, P w -> Q a w) -> triple P (ret a) Q R.
Proof. intros H w Hw. exact (H w Hw). Qed.

Lemma triple_consequence {A : Type} (P P' : World -> Prop) (m : M A)
  (Q Q' : A -> World -> Prop) (R R' : World -> Prop) :
  triple P m Q R ->
  (forall w, P' w -> P w) ->
  (forall a w, Q a w -> Q' a w) ->
  (forall w, R w -> R' w) ->
  triple P' m Q' R'.
Proof.
  intros Hm HP HQ HR w Hw. specialize (Hm w (HP w Hw)).
  destruct (m w) as [a w' | e w' |]; auto.
Qed.

(** A fact that does not depend on the world moves out of the
    precondition. *)
Lemma triple_fact {A : Type} (fact : Prop) (P : World -> Prop) (m : M A)
  (Q : A -> World -> Prop) (R : World -> Prop) :
  (fact -> triple P m Q R) ->
  triple (fun w => P w /\ fact) m Q R.
Proof. intros H w [HP Hf]. exact (H Hf w HP). Qed.

Lemma keeps_ret {A : Type} (I : World -> Prop) (a : A) : keeps I (ret a).
Proof. intros w H. exact H. Qed.

Lemma keeps_raise {A : Type} (I : World -> Prop) (e : exn) :
  keeps I (@raise A e).
Proof. intros w H. exact H. Qed.

Lemma keeps_log (I : World -> Prop) : keeps I log.
Proof. intros w H. exact H. Qed.

Lemma triple_log (P R : World -> Prop) : triple P log (fun _ => P) R.
Proof. intros w H. exact H. Qed.

Lemma triple_try {A : Type} (P : World -> Prop) (m : M A) (h : exn -> M A)
  (Q : A -> World -> Prop) (R R' : World -> Prop) :
  triple P m Q R' ->
  (forall e, triple R' (h e) Q R) ->
  triple P (try_except m h) Q R.
Proof.
  intros Hm Hh w Hw. unfold try_except. specialize (Hm w Hw).
  destruct (m w) as [a w' | e w' |]; [exact Hm | | exact I].
  exact (Hh e w' Hm).
Qed.

Lemma keeps_try {A : Type} (I : World -> Prop) (m : M A) (h : exn -> M A) :
  keeps I m -> (forall e, keeps I (h e)) -> keeps I (try_except m h).
Proof. intros Hm Hh. eapply triple_try; [exact Hm | exact Hh]. Qed.

Lemma keeps_bind {A B : Type} (I : World -> Prop) (m : M A) (k : A -> M B) :
  keeps I m -> (forall a, keeps I (k a)) -> keeps I (bind m k).
Proof. intros Hm Hk. eapply triple_bind; [exact Hm | exact Hk]. Qed.

Lemma keeps_modify (I : World -> Prop) (f : World -> World) :
  (forall w, I w -> I (f w)) -> keeps I (modify f).
Proof. intros Hf w H. exact (Hf w H). Qed.

Lemma keeps_get_world (I : World -> Prop) : keeps I get_world.
Proof. intros w H. exact H. Qed.

Lemma keeps_if {A : Type} (I : World -> Prop) (b : bool) (m1 m2 : M A) :
  keeps I m1 -> keeps I m2 -> keeps I (if b then m1 else m2).
Proof. destruct b; auto. Qed.

Lemma keeps_and {A : Type} (I1 I2 : World -> Prop) (m : M A) :
  keeps I1 m -> keeps I2 m -> keeps (fun w => I1 w /\ I2 w) m.
Proof.
  intros H1 H2 w [Ha Hb]. specialize (H1 w Ha). specialize (H2 w Hb).
  destruct (m w); auto.
Qed.

Lemma triple_exists {A X : Type} (P : X -> World -> Prop) (m : M A)
  (Q : A -> World -> Prop) (R : World -> Prop) :
  (forall x, triple (P x) m Q R) ->
  triple (fun w => exists x, P x w) m Q R.
Proof. intros H w [x Hx]. exact (H x w Hx). Qed.

Lemma triple_bind_ret {A B : Type} (a : A) (k : A -> M B)
  (P : World -> Prop) (Q : B -> World -> Prop) (R : World -> Prop) :
  triple P (k a) Q R -> triple P (bind (ret a) k) Q R.
Proof. intros H w Hw. exact (H w Hw). Qed.

Lemma triple_any_raise {A : Type} (P : World -> Prop) (m : M A)
  (Q : A -> World -> Prop) (R : World -> Prop) :
  triple P m Q R -> triple P m Q (fun _ => True).
Proof. intros H. eapply triple_consequence; [exact H | auto | auto | auto]. Qed.

(** A step that keeps the invariant, in a computation whose failures are
    not looked at. *)
Lemma keeps_then {A B : Type} (I : World -> Prop) (m : M A) (k : A -> M B)
  (Q : B -> World -> Prop) :
  keeps I m ->
  (forall a, triple I (k a) Q (fun _ => True)) ->
  triple I (bind m k) Q (fun _ => True).
Proof.
  intros Hm Hk. eapply triple_bind; [| exact Hk].
  eapply triple_consequence; [exact Hm | auto | auto | auto].
Qed.

(* ================================================================== *)
(** * Serialization round trip *)
(* ================================================================== *)

Section RoundTrip.

Local Arguments DateTime.isoformat : simpl never.
Local Arguments DateTime.fromisoformat : simpl never.

Lemma holder_round_trip (h : TokenHolder.t) :
  is_db_holder h = true ->
  TokenHolder.from_dict (TokenHolder.to_dict h) = Some h.
Proof.
  destruct h as [a b p pa | a b]; simpl; [| discriminate].
  intros _. destruct pa as [d |]; simpl.
  - rewrite DateTimeFacts.fromisoformat_isoformat.
    change (String.eqb (DateTime.isoformat d) "") with false.
    reflexivity.
  - reflexivity.
Qed.

Lemma holders_round_trip (hs : list TokenHolder.t) :
  forallb is_db_holder hs = true ->
  traverse TokenHolder.from_dict (map TokenHolder.to_dict hs) = Some hs.
Proof.
  induction hs as [| h hs IH]; intros H; [reflexivity |].
  apply andb_prop in H. destruct H as [Hh Hhs].
  cbn [map traverse]. rewrite holder_round_trip by assumption.
  rewrite IH by assumption. reflexivity.
Qed.

Lemma progress_round_trip (p : ParsingProgress.t) :
  db_progress p = true ->
  ParsingProgress.from_dict (ParsingProgress.to_dict p) = Some p.
Proof.
  destruct p as [ca cp tp at_ st em]. unfold db_progress. simpl.
  intros Hst. rewrite DateTimeFacts.fromisoformat_isoformat.
  destruct st as [s | s]; [| discriminate].
  destruct s; reflexivity.
Qed.

Lemma contract_round_trip (now : DateTime.t) (c : ProcessedContract.t) :
  db_contract c = true ->
  ProcessedContract.from_dict now (ProcessedContract.to_dict c) = Some c.
Proof.
  destruct c as [a ch pa n hs st]. unfold db_contract. simpl.
  intros H. apply andb_prop in H. destruct H as [Hst Hhs].
  unfold ProcessedContract.holders_of. simpl.
  rewrite holders_round_trip by assumption.
  rewrite DateTimeFacts.fromisoformat_isoformat.
  destruct st as [s | s]; [| discriminate].
  destruct s; reflexivity.
Qed.

End RoundTrip.

(** C9.  Serializing a [ParsingProgress] or a [ProcessedContract] of
    [db_manager.py] with [to_dict] and reading the dictionary back with
    [from_dict] gives the value again, equal in every field. *)
Theorem serialization_round_trip
  (p : ParsingProgress.t) (c : ProcessedContract.t) (now : DateTime.t) :
  db_progress p = true ->
  db_contract c = true ->
  ParsingProgress.from_dict (ParsingProgress.to_dict p) = Some p
  /\ ProcessedContract.from_dict now (ProcessedContract.to_dict c) = Some c.
Proof.
  intros Hp Hc. split.
  - now apply progress_round_trip.
  - now apply contract_round_trip.
Qed.

Lemma serialization_round_trip_witness :
  ParsingProgress.from_dict (ParsingProgress.to_dict Sample.progress)
  = Some Sample.progress
  /\ ProcessedContract.from_dict Sample.t0
       (ProcessedContract.to_dict Sample.contract)
     = Some Sample.contract.
Proof.
  apply (serialization_round_trip Sample.progress Sample.contract Sample.t0);
    reflexivity.
Defined.

(* ================================================================== *)
(** * The proxy pool *)
(* ================================================================== *)

Section Pool.

Import ProxyManager.

Lemma lookup_update (k u : string) (f : ProxyStatus.t -> ProxyStatus.t)
  (l : pool) :
  lookup k (update u f l)
  = if String.eqb k u then option_map f (lookup k l) else lookup k l.
Proof.
  induction l as [| [k' st] l IH]; simpl.
  - now destruct (String.eqb k u).
  - destruct (String.eqb u k') eqn:Eu; simpl.
    + apply String.eqb_eq in Eu. subst k'.
      destruct (String.eqb k u) eqn:Ek; simpl; reflexivity.
    + destruct (String.eqb k k') eqn:Ek; simpl.
      * apply String.eqb_eq in Ek. subst k'.
        rewrite String.eqb_sym in Eu. now rewrite Eu.
      * exact IH.
Qed.

Variable proxy_url : string.

(** An assignment that does not mark an entry as working keeps a disabled
    entry disabled. *)
Lemma keeps_assign (u : string) (f : ProxyStatus.t -> ProxyStatus.t) :
  (forall st, ProxyStatus.is_working st = false ->
              ProxyStatus.is_working (f st) = false) ->
  keeps (disabled proxy_url) (assign u f).
Proof.
  intros Hf. apply keeps_modify. intros w (st & Hl & Hw).
  unfold disabled. cbn [proxies with_proxies]. rewrite lookup_update.
  destruct (String.eqb proxy_url u).
  - rewrite Hl. exists (f st). split; [reflexivity | auto].
  - exists st. auto.
Qed.

Lemma keeps_the_status (u : string) : keeps (disabled proxy_url) (the_status u).
Proof.
  intros w H. unfold the_status. now destruct (lookup u (proxies w)).
Qed.

Lemma keeps_read_time : keeps (disabled proxy_url) read_time.
Proof. intros w H. exact H. Qed.

Lemma keeps_save_proxy_data : keeps (disabled proxy_url) _save_proxy_data.
Proof.
  intros w H. unfold _save_proxy_data.
  destruct (disk_writable w); [exact H |].
  now destruct (write_truncates w).
Qed.

Lemma keeps_set_cooldown (u : string) :
  keeps (disabled proxy_url) (_set_cooldown u).
Proof.
  unfold _set_cooldown.
  apply keeps_bind; [apply keeps_the_status | intros _].
  apply keeps_bind; [apply keeps_read_time | intros now].
  apply keeps_bind; [| intros _; apply keeps_save_proxy_data].
  apply keeps_assign. auto.
Qed.

Lemma keeps_handle_proxy_error (u : string) :
  keeps (disabled proxy_url) (_handle_proxy_error u).
Proof.
  unfold _handle_proxy_error.
  apply keeps_bind; [apply keeps_the_status | intros st].
  apply keeps_bind; [apply keeps_assign; auto | intros _].
  apply keeps_bind; [| intros _; apply keeps_save_proxy_data].
  apply keeps_if; [| apply keeps_ret].
  apply keeps_bind; [apply keeps_assign; auto | intros _].
  apply keeps_set_cooldown.
Qed.

Lemma keeps_handle_proxy_success (u : string) :
  keeps (disabled proxy_url) (_handle_proxy_success u).
Proof.
  unfold _handle_proxy_success.
  apply keeps_bind; [apply keeps_the_status | intros _].
  apply keeps_bind; [apply keeps_assign; auto | intros _].
  apply keeps_bind; [apply keeps_read_time | intros now].
  apply keeps_bind; [apply keeps_assign; auto | intros _].
  apply keeps_save_proxy_data.
Qed.

Lemma keeps_in_cooldown (st : ProxyStatus.t) :
  keeps (disabled proxy_url) (in_cooldown st).
Proof.
  unfold in_cooldown. destruct (ProxyStatus.cooldown_until st) as [c |];
    [| apply keeps_ret].
  apply keeps_if; [apply keeps_ret |].
  apply keeps_bind; [apply keeps_read_time | intros; apply keeps_ret].
Qed.

Lemma the_status_of_other (u : string) :
  triple (disabled proxy_url) (the_status u)
    (fun st w => disabled proxy_url w
                 /\ (ProxyStatus.is_working st = true -> u <> proxy_url))
    (disabled proxy_url).
Proof.
  intros w Hw. unfold the_status.
  destruct (lookup u (proxies w)) as [st |] eqn:El; [| exact Hw].
  split; [exact Hw |]. intros Ework E. subst u.
  destruct Hw as (st' & Hl & Hf). congruence.
Qed.

(** The scan never hands out a disabled entry, and leaves it disabled. *)
Lemma scan_skips_disabled (attempts : nat) :
  triple (disabled proxy_url) (scan attempts)
    (fun r w => r <> Some proxy_url /\ disabled proxy_url w)
    (disabled proxy_url).
Proof.
  induction attempts as [| n IH]; cbn [scan].
  - intros w H. split; [discriminate | exact H].
  - eapply triple_bind; [apply keeps_get_world | intros w0; cbv beta].
    eapply triple_bind;
      [apply keeps_modify; intros w H; exact H | intros ?; cbv beta].
    destruct (nth_error (map fst (proxies w0)) _) as [u |];
      [| apply triple_raise].
    eapply triple_bind; [apply the_status_of_other | intros st; cbv beta].
    apply triple_fact. intros Hne.
    destruct (ProxyStatus.is_working st); cbn [negb]; [| exact IH].
    eapply triple_bind; [apply keeps_in_cooldown | intros cooling; cbv beta].
    destruct cooling; [exact IH |].
    destruct (_ >=? _).
    + eapply triple_bind; [apply keeps_set_cooldown | intros ?; exact IH].
    + intros w Hw. split; [| exact Hw].
      intros E. injection E as E. now apply Hne.
Qed.

(** Once an entry is marked as not working, [_get_next_available_proxy]
    never returns it again, whatever the clock says, and the entry stays
    marked. *)
Lemma disabled_never_selected :
  triple (disabled proxy_url) _get_next_available_proxy
    (fun r w => r <> Some proxy_url /\ disabled proxy_url w)
    (disabled proxy_url).
Proof.
  unfold _get_next_available_proxy.
  eapply triple_bind; [apply keeps_get_world | intros w0; cbv beta].
  apply scan_skips_disabled.
Qed.

End Pool.

(** An entry that reached its request quota is put into cool-down without
    being marked: it is skipped until the cool-down ends, and handed out
    after it. *)
Example quota_cooldown_ends :
  exists w1 w2 w3,
    ProxyManager._get_next_available_proxy Sample.pool_at_quota = Ok None w1
    /\ option_map ProxyStatus.cooldown_until
         (ProxyManager.lookup "http://p1" (proxies w1)) = Some (Some 1120)
    /\ ProxyManager._get_next_available_proxy
         (with_time_time (fun _ => 1119) w1) = Ok None w2
    /\ ProxyManager._get_next_available_proxy
         (with_time_time (fun _ => 1121) w1) = Ok (Some "http://p1") w3.
Proof.
  eexists. eexists. eexists. split; [vm_compute; reflexivity |].
  split; [vm_compute; reflexivity |].
  split; vm_compute; reflexivity.
Qed.

(** C7.  The only proxy of the pool fails twenty times ([MAX_FAILS]) in a
    row at time 1000: it is marked as not working, its cool-down ends at
    1120 and its failure count is 20.  From then on
    [_get_next_available_proxy] answers [None] whatever the clock reads,
    also after 1120: the entry does not become eligible again. *)
Theorem failed_proxy_is_never_reactivated (later : nat -> Z) :
  proxies Sample.pool_after_failures
  = [("http://p1", ProxyStatus.mk "http://p1" false 20 0 (Some 1120) 0)]
  /\ exists w,
       ProxyManager._get_next_available_proxy
         (with_time_time later Sample.pool_after_failures) = Ok None w
       /\ proxies w = proxies Sample.pool_after_failures.
Proof.
  split; [reflexivity |].
  exists (world_after ProxyManager._get_next_available_proxy
            (with_time_time later Sample.pool_after_failures)).
  split; vm_compute; reflexivity.
Qed.

(* ================================================================== *)
(** * The checkpoint store *)
(* ================================================================== *)

Local Open Scope list_scope.

Ltac destruct_match :=
  match goal with
  | |- context [match ?x with _ => _ end] => destruct x eqn:?
  end.

Section Store.

Import DBManager.

Lemma lookup_set_same (k : string) (v : json) (d : dict) :
  Py.lookup k (Py.set k v d) = Some v.
Proof.
  induction d as [| [k' v'] d IH]; simpl.
  - now rewrite String.eqb_refl.
  - destruct (String.eqb k k') eqn:E; simpl; rewrite E; [reflexivity | exact IH].
Qed.

(** What [_load_json] hands to the two functions that read the record
    list. *)
Lemma load_record_list (w : World) (l : list json) :
  stored_list w = Some l ->
  exists data, _load_json processed_contracts w = Ok data w
               /\ Py.get_default "contracts" (JList []) data = JList l.
Proof.
  unfold stored_list, _load_json. cbn [read].
  destruct (processed_contracts_file w) as [[| | | | | d] |]; intros H;
    try (injection H as <-; eexists; split; reflexivity).
  destruct (Py.get_default "contracts" (JList []) d) eqn:E; try discriminate.
  injection H as <-. exists d. auto.
Qed.

(** [_save_json] never raises. *)
Lemma _save_json_returns (f : File) (data : json) (w : World) :
  _save_json f data w
  = Ok tt (if disk_writable w then write f data w else failed_write f w).
Proof.
  unfold _save_json, try_except. now destruct (disk_writable w).
Qed.

Lemma same_file (f : File) (w : World) :
  w = match f with
      | processed_contracts =>
          with_processed_contracts_file (processed_contracts_file w) w
      | pending_holders => with_pending_holders_file (pending_holders_file w) w
      | parsing_progress =>
          with_parsing_progress_file (parsing_progress_file w) w
      end.
Proof. destruct w, f; reflexivity. Qed.

(** A failed write of the progress file touches that file only. *)
Lemma failed_write_progress (w : World) :
  failed_write parsing_progress w
  = with_parsing_progress_file
      (if write_truncates w then None else parsing_progress_file w) w.
Proof.
  unfold failed_write. destruct (write_truncates w); [reflexivity |].
  apply (same_file parsing_progress).
Qed.

Lemma _load_json_returns (f : File) (w : World) :
  exists data, _load_json f w = Ok data w.
Proof.
  unfold _load_json. destruct (read f w) as [[| | | | |] |]; eexists; reflexivity.
Qed.

Lemma same_clock_reads (w : World) : w = with_clock_reads (clock_reads w) w.
Proof. destruct w; reflexivity. Qed.

Lemma same_progress_file (w : World) :
  w = with_parsing_progress_file (parsing_progress_file w) w.
Proof. destruct w; reflexivity. Qed.

(** [remove_parsing_progress] never raises and touches the progress file
    only. *)
Lemma remove_parsing_progress_returns (address : string) (w : World) :
  exists v, remove_parsing_progress address w
            = Ok tt (with_parsing_progress_file v w)
            /\ (disk_writable w = false ->
                v = parsing_progress_file w \/ v = None).
Proof.
  unfold remove_parsing_progress, try_except, bind, raise, log, ret.
  destruct (_load_json_returns parsing_progress w) as [data ->].
  destruct (Py.lookup "progress" data) as [[| | | | | pr] |].
  all: try (eexists; split; [f_equal; apply same_progress_file | now left]).
  destruct (Py.mem address pr).
  - rewrite _save_json_returns. destruct (disk_writable w).
    + cbn [write]. eexists. split; [reflexivity | discriminate].
    + rewrite failed_write_progress. eexists. split; [reflexivity |].
      intros _. destruct (write_truncates w); [now right | now left].
  - eexists; split; [f_equal; apply same_progress_file | now left].
Qed.

(** [save_parsing_progress] never raises and touches the progress file
    only; with a disk that cannot be written the file is left as it was, or
    cut off. *)
Lemma save_parsing_progress_returns (p : ParsingProgress.t) (w : World) :
  exists v, save_parsing_progress p w
            = Ok tt (with_parsing_progress_file v w)
            /\ (disk_writable w = false ->
                v = parsing_progress_file w \/ v = None).
Proof.
  unfold save_parsing_progress, try_except, bind, raise, log, ret.
  destruct (_load_json_returns parsing_progress w) as [data ->].
  destruct (Py.lookup "progress" data) as [[| | | | | pr] |].
  all: try (eexists; split; [f_equal; apply same_progress_file | now left]).
  destruct (Py.json_key (ParsingProgress.contract_address p)) as [addr |].
  - rewrite _save_json_returns. destruct (disk_writable w).
    + cbn [write]. eexists. split; [reflexivity | discriminate].
    + rewrite failed_write_progress. eexists. split; [reflexivity |].
      intros _. destruct (write_truncates w); [now right | now left].
  - eexists; split; [f_equal; apply same_progress_file | now left].
Qed.

(** The exception handler of [save_processed_contract] raises again what
    it caught. *)
Lemma try_reraise {A : Type} (m : M A) (w : World) :
  try_except m (fun e => log ;;; raise e) w = m w.
Proof. unfold try_except. now destruct (m w). Qed.

(** The scan of [upsert] passes the records of other addresses and
    replaces a record that [from_dict] cannot read by the incoming one. *)
Lemma upsert_replaces (c : ProcessedContract.t) (old : json) (after : list json)
  : forall (before : list json) (w : World),
  forallb (is_other_record (ProcessedContract.address c)) before = true ->
  is_record_of (ProcessedContract.address c) old = true ->
  ProcessedContract.from_dict (datetime_now w (clock_reads w)) old = None ->
  exists n, upsert c (before ++ old :: after) w
            = Ok (before ++ ProcessedContract.to_dict c :: after)
                 (with_clock_reads n w).
Proof.
  induction before as [| e before IH]; intros w Hb Ho Hf.
  - cbn [app upsert]. destruct old as [| | | | | d]; try discriminate.
    cbn [is_record_of] in Ho. rewrite Ho.
    unfold bind, from_dict at 1. rewrite Hf.
    destruct (ProcessedContract.reads_clock (JDict d)); unfold ret.
    + exists (S (clock_reads w)). reflexivity.
    + exists (clock_reads w). f_equal. apply same_clock_reads.
  - cbn [forallb] in Hb. apply andb_prop in Hb. destruct Hb as [He Hb].
    destruct e as [| | | | | d]; try discriminate.
    cbn [is_other_record] in He. apply negb_true_iff in He.
    cbn [app upsert]. rewrite He. unfold bind at 1.
    destruct (IH w Hb Ho Hf) as [n ->]. exists n. reflexivity.
Qed.

End Store.

(** C10.  When the first record stored for the address of the incoming
    contract cannot be read by [ProcessedContract.from_dict],
    [save_processed_contract] puts the incoming record in its place as it
    is: nothing of the old record, none of its holders, is kept. *)
Theorem undeserializable_record_is_replaced
  (w : World) (c : ProcessedContract.t) (before after : list json) (old : json) :
  disk_writable w = true ->
  stored_list w = Some (before ++ old :: after) ->
  forallb (is_other_record (ProcessedContract.address c)) before = true ->
  is_record_of (ProcessedContract.address c) old = true ->
  ProcessedContract.from_dict (datetime_now w (clock_reads w)) old = None ->
  exists w',
    DBManager.save_processed_contract c w = Ok tt w'
    /\ stored_list w'
       = Some (before ++ ProcessedContract.to_dict c :: after).
Proof.
  intros Hdisk Hlist Hb Ho Hf.
  unfold DBManager.save_processed_contract. rewrite try_reraise.
  destruct (load_record_list w _ Hlist) as (data & Hload & Hget).
  unfold bind at 1. rewrite Hload, Hget.
  unfold bind at 1.
  destruct (upsert_replaces c old after before w Hb Ho Hf) as [n ->].
  unfold bind at 1. rewrite _save_json_returns.
  cbn [disk_writable with_clock_reads]. rewrite Hdisk.
  destruct (ParsingStatus.eqb _ _).
  - destruct (remove_parsing_progress_returns (ProcessedContract.address c)
                (DBManager.write DBManager.processed_contracts
                   (JDict [("contracts",
                            JList (before ++ ProcessedContract.to_dict c :: after))])
                   (with_clock_reads n w))) as (v & -> & _).
    eexists. split; reflexivity.
  - eexists. split; reflexivity.
Qed.

Lemma undeserializable_record_is_replaced_witness :
  exists w',
    DBManager.save_processed_contract Sample.contract Sample.with_broken_record
    = Ok tt w'
    /\ stored_list w'
       = Some ([Sample.other_record]
               ++ ProcessedContract.to_dict Sample.contract :: []).
Proof.
  apply (undeserializable_record_is_replaced Sample.with_broken_record
           Sample.contract [Sample.other_record] [] Sample.broken_record);
    reflexivity.
Defined.

(** C8, the claim as stated fails: with a disk that cannot be written,
    [save_processed_contract] returns normally, and [_save_proxy_data]
    raises. *)
Lemma write_failure_counterexample :
  DBManager.save_processed_contract Sample.contract
    (with_disk_writable false Sample.quiet)
  = Ok tt (with_disk_writable false Sample.quiet)
  /\ ProxyManager._save_proxy_data (with_disk_writable false Sample.quiet)
     = Raise OSError (with_disk_writable false Sample.quiet).
Proof. split; reflexivity. Qed.

(** C8, as the code has it.  When writing a file fails, saving a progress
    record returns normally, and saving the pool snapshot raises the error
    to its caller.  In both cases the file is left as it was, or cut
    off. *)
Theorem write_failure_handling (w : World) (p : ParsingProgress.t) :
  disk_writable w = false ->
  (exists v,
     DBManager.save_parsing_progress p w
     = Ok tt (with_parsing_progress_file v w)
     /\ (v = parsing_progress_file w \/ v = None))
  /\ (exists v,
        ProxyManager._save_proxy_data w
        = Raise OSError (with_proxies_data_file v w)
        /\ (v = proxies_data_file w \/ v = None)).
Proof.
  intros Hdisk. split.
  - destruct (save_parsing_progress_returns p w) as (v & E & Hv).
    exists v. split; [exact E | exact (Hv Hdisk)].
  - unfold ProxyManager._save_proxy_data. rewrite Hdisk.
    destruct (write_truncates w).
    + exists None. split; [reflexivity | now right].
    + exists (proxies_data_file w). split; [| now left].
      f_equal. now destruct w.
Qed.

Lemma write_failure_handling_witness :
  (exists v,
     DBManager.save_parsing_progress Sample.progress
       (with_write_truncates true (with_disk_writable false Sample.quiet))
     = Ok tt
         (with_parsing_progress_file v
            (with_write_truncates true (with_disk_writable false Sample.quiet)))
     /\ (v = parsing_progress_file
               (with_write_truncates true
                  (with_disk_writable false Sample.quiet))
         \/ v = None))
  /\ (exists v,
        ProxyManager._save_proxy_data
          (with_write_truncates true (with_disk_writable false Sample.quiet))
        = Raise OSError
            (with_proxies_data_file v
               (with_write_truncates true
                  (with_disk_writable false Sample.quiet)))
        /\ (v = proxies_data_file
                  (with_write_truncates true
                     (with_disk_writable false Sample.quiet))
            \/ v = None)).
Proof.
  apply (write_failure_handling
           (with_write_truncates true (with_disk_writable false Sample.quiet))
           Sample.progress).
  reflexivity.
Defined.

(* ================================================================== *)
(** * The holder list of a stored record *)
(* ================================================================== *)

Section Dedup.

Import DBManager.

Local Arguments DateTime.isoformat : simpl never.
Local Arguments DateTime.fromisoformat : simpl never.

(** ** Reading a record back *)

(** The holders and the count that [from_dict] reads do not depend on the
    clock. *)
Lemma from_dict_clock (now now' : DateTime.t) (e : json) (c : ProcessedContract.t) :
  ProcessedContract.from_dict now e = Some c ->
  exists c', ProcessedContract.from_dict now' e = Some c'
             /\ ProcessedContract.holders c' = ProcessedContract.holders c
             /\ ProcessedContract.holders_count c'
                = ProcessedContract.holders_count c
             /\ ProcessedContract.status c' = ProcessedContract.status c.
Proof.
  unfold ProcessedContract.from_dict.
  destruct e as [| | | | | d]; try discriminate.
  destruct (ProcessedContract.holders_of d) as [hs |]; [| discriminate].
  destruct (Py.int _) as [n |]; [| destruct_match; [destruct_match |]; discriminate].
  destruct (DbParsingStatus.of_value _) as [st |];
    [| destruct_match; [destruct_match |]; discriminate].
  destruct (Py.get "processed_at" d) as [| | | s | |];
    try (intros H; injection H as <-; eexists; split; [reflexivity | auto]).
  destruct (DateTime.fromisoformat s); [| discriminate].
  intros H; injection H as <-; eexists; split; [reflexivity | auto].
Qed.

(** Every record [from_dict] returns has a status of [db_manager.py]. *)
Lemma from_dict_db_status (now : DateTime.t) (e : json) (c : ProcessedContract.t) :
  ProcessedContract.from_dict now e = Some c ->
  is_db_status (ProcessedContract.status c) = true.
Proof.
  unfold ProcessedContract.from_dict.
  repeat (destruct_match; try discriminate).
  all: intros H; injection H as <-; reflexivity.
Qed.

Lemma holder_read_back (h : TokenHolder.t) :
  exists h', TokenHolder.from_dict (TokenHolder.to_dict h) = Some h'
             /\ TokenHolder.address h' = TokenHolder.address h.
Proof.
  destruct h as [a b p [d |] | a b]; simpl.
  - rewrite DateTimeFacts.fromisoformat_isoformat.
    change (String.eqb (DateTime.isoformat d) "") with false.
    eexists; split; reflexivity.
  - eexists; split; reflexivity.
  - eexists; split; reflexivity.
Qed.

Lemma holders_read_back (hs : list TokenHolder.t) :
  exists hs', traverse TokenHolder.from_dict (map TokenHolder.to_dict hs) = Some hs'
              /\ map TokenHolder.address hs' = map TokenHolder.address hs.
Proof.
  induction hs as [| h hs (hs' & E & Ha)].
  - exists []. split; reflexivity.
  - destruct (holder_read_back h) as (h' & Eh & Hh).
    exists (h' :: hs'). cbn [map traverse]. rewrite Eh, E.
    split; [reflexivity |]. cbn [map]. now rewrite Hh, Ha.
Qed.

(** A record read back from what [to_dict] wrote has the same holder
    addresses and the same count. *)
Lemma contract_read_back (now : DateTime.t) (c c' : ProcessedContract.t) :
  ProcessedContract.from_dict now (ProcessedContract.to_dict c) = Some c' ->
  map TokenHolder.address (ProcessedContract.holders c')
  = map TokenHolder.address (ProcessedContract.holders c)
  /\ ProcessedContract.holders_count c' = ProcessedContract.holders_count c
  /\ option_map ParsingStatus.Db
       (DbParsingStatus.of_value
          (JStr (ParsingStatus.value (ProcessedContract.status c))))
     = Some (ProcessedContract.status c').
Proof.
  destruct c as [a ch pa n hs st].
  unfold ProcessedContract.to_dict, ProcessedContract.from_dict,
    ProcessedContract.holders_of.
  cbn [ProcessedContract.address ProcessedContract.chain
       ProcessedContract.processed_at ProcessedContract.holders_count
       ProcessedContract.holders ProcessedContract.status].
  cbn [Py.get Py.get_default Py.lookup String.eqb Ascii.eqb Bool.eqb Py.iter
       Py.int].
  destruct (holders_read_back hs) as (hs' & -> & Ha).
  rewrite DateTimeFacts.fromisoformat_isoformat.
  destruct (DbParsingStatus.of_value _); [| discriminate].
  intros H. injection H as <-. cbn. auto.
Qed.

Lemma to_dict_is_record (c : ProcessedContract.t) :
  is_record_of (ProcessedContract.address c) (ProcessedContract.to_dict c) = true.
Proof.
  unfold ProcessedContract.to_dict, is_record_of, address_is.
  cbn [Py.lookup String.eqb Ascii.eqb Bool.eqb]. apply String.eqb_refl.
Qed.

Lemma first_record_to_dict (a : string) (c : ProcessedContract.t)
  (rest : list json) :
  ProcessedContract.address c = a ->
  first_record a (ProcessedContract.to_dict c :: rest)
  = Some (Some (ProcessedContract.to_dict c)).
Proof.
  intros <-. pose proof (to_dict_is_record c) as H.
  unfold ProcessedContract.to_dict in *. cbn [is_record_of] in H.
  cbn [first_record]. now rewrite H.
Qed.

(** ** Merging *)

Lemma NoDup_map_filter {A B : Type} (g : A -> B) (f : A -> bool) (l : list A) :
  NoDup (map g l) -> NoDup (map g (filter f l)).
Proof.
  induction l as [| x l IH]; intros H; [exact H |].
  cbn [map] in H. inversion H as [| ? ? Hx Hl]; subst.
  cbn [filter]. destruct (f x); [| now apply IH].
  cbn [map]. constructor; [| now apply IH].
  intros Hin. apply Hx. apply in_map_iff in Hin.
  destruct Hin as (y & Hy & Hyin). apply filter_In in Hyin.
  apply in_map_iff. exists y. tauto.
Qed.

Lemma known_iff (existing : list TokenHolder.t) (h : TokenHolder.t) :
  known existing h = true
  <-> In (TokenHolder.address h) (map TokenHolder.address existing).
Proof.
  unfold known. rewrite existsb_exists. split.
  - intros (e & He & Heq). apply String.eqb_eq in Heq.
    apply in_map_iff. exists e. auto.
  - intros Hin. apply in_map_iff in Hin. destruct Hin as (e & Heq & He).
    exists e. split; [exact He | now apply String.eqb_eq].
Qed.

(** The merge of two duplicate-free lists is duplicate-free. *)
Lemma merge_holders_NoDup (existing incoming : list TokenHolder.t) :
  NoDup (map TokenHolder.address existing) ->
  NoDup (map TokenHolder.address incoming) ->
  NoDup (map TokenHolder.address (merge_holders existing incoming)).
Proof.
  intros He Hi. unfold merge_holders. rewrite map_app.
  apply NoDup_app; [exact He | now apply NoDup_map_filter |].
  intros a Ha Hin. apply in_map_iff in Hin.
  destruct Hin as (h & <- & Hh). apply filter_In in Hh.
  destruct Hh as [_ Hk]. apply negb_true_iff in Hk.
  apply known_iff in Ha. congruence.
Qed.

(** ** The scans *)

Lemma find_contract_spec (address : string) (l : list json) (w : World) :
  find_contract address l w
  = match first_record address l with
    | None => Raise AttributeError w
    | Some None => Ok None w
    | Some (Some e) => from_dict e w
    end.
Proof.
  induction l as [| e l IH]; [reflexivity |].
  destruct e as [| | | | | d]; try reflexivity.
  cbn [find_contract first_record].
  destruct (address_is address d); [reflexivity | exact IH].
Qed.

Lemma stored_spec (address : string) (w : World) :
  stored address w
  = match stored_list w with
    | Some l =>
        match first_record address l with
        | Some (Some e) =>
            ProcessedContract.from_dict (datetime_now w (clock_reads w)) e
        | _ => None
        end
    | None => None
    end.
Proof.
  unfold stored, get_processed_contract, try_except, bind, stored_list,
    _load_json.
  cbn [read].
  destruct (processed_contracts_file w) as [[| | | | | d] |];
    try reflexivity.
  destruct (Py.get_default "contracts" (JList []) d) as [| | | s | l | kv];
    try reflexivity.
  - now destruct s.
  - rewrite find_contract_spec.
    destruct (first_record address l) as [[e |] |]; reflexivity.
  - now destruct kv.
Qed.

End Dedup.

(** ** [save_processed_contract] keeps a property of the stored record *)

Section RecordInvariant.

Import DBManager.

(** A property that looks at the holders, the count and the status. *)
Variable P : ProcessedContract.t -> Prop.
Hypothesis P_ext : forall c c',
  ProcessedContract.holders c' = ProcessedContract.holders c ->
  ProcessedContract.holders_count c' = ProcessedContract.holders_count c ->
  ProcessedContract.status c' = ProcessedContract.status c ->
  P c -> P c'.

(** The two ways of saying that the stored record has the property
    agree. *)
Lemma store_satisfies_iff (address : string) (w : World) :
  store_satisfies P address w <-> file_satisfies P address w.
Proof.
  unfold store_satisfies, file_satisfies, list_satisfies, record_satisfies.
  split.
  - intros H l Hl e He now c Hc.
    destruct (from_dict_clock now (datetime_now w (clock_reads w)) e c Hc)
      as (c' & Hc' & Hh & Hn & Hs).
    apply (P_ext c' c); [congruence | congruence | congruence |].
    apply H. rewrite stored_spec, Hl, He. exact Hc'.
  - intros H c Hc. rewrite stored_spec in Hc.
    destruct (stored_list w) as [l |]; [| discriminate].
    destruct (first_record address l) as [[e |] |] eqn:He; try discriminate.
    exact (H l eq_refl e He _ c Hc).
Qed.

(** The incoming record has the property when it is read back, and so has
    its merge with a stored record that has it. *)
Variable c : ProcessedContract.t.
Hypothesis incoming_ok : record_satisfies P (ProcessedContract.to_dict c).
Hypothesis merged_ok : forall existing now,
  P existing ->
  record_satisfies P
    (ProcessedContract.to_dict
       (ProcessedContract.mk (ProcessedContract.address c)
          (ProcessedContract.chain c) now
          (Z.of_nat
             (List.length
                (merge_holders (ProcessedContract.holders existing)
                   (ProcessedContract.holders c))))
          (merge_holders (ProcessedContract.holders existing)
             (ProcessedContract.holders c))
          (ProcessedContract.status c))).

Lemma upsert_keeps (l : list json) : forall (w : World),
  list_satisfies P (ProcessedContract.address c) l ->
  match upsert c l w with
  | Ok l' w' =>
      (exists n, w' = with_clock_reads n w)
      /\ list_satisfies P (ProcessedContract.address c) l'
  | Raise _ w' => w' = w
  | OutOfFuel => False
  end.
Proof.
  induction l as [| e l IH]; intros w Hl.
  - cbn [upsert]. unfold ret. split.
    + exists (clock_reads w). apply same_clock_reads.
    + intros e He. rewrite first_record_to_dict in He by reflexivity.
      injection He as <-. apply incoming_ok.
  - destruct e as [| | | | | d]; try reflexivity.
    cbn [upsert]. destruct (address_is (ProcessedContract.address c) d) eqn:Ed.
    + unfold bind at 1. unfold from_dict at 1.
      destruct (ProcessedContract.from_dict _ (JDict d)) as [existing |] eqn:Ex.
      * unfold bind, read_now, ret. cbn [clock_reads datetime_now]. split.
        -- destruct (ProcessedContract.reads_clock (JDict d));
             eexists; reflexivity.
        -- intros e He. rewrite first_record_to_dict in He by reflexivity.
           injection He as <-.
           apply merged_ok.
           refine (Hl (JDict d) _ _ existing Ex).
           cbn [first_record]. now rewrite Ed.
      * unfold ret. split.
        -- destruct (ProcessedContract.reads_clock (JDict d));
             [eexists; reflexivity |].
           exists (clock_reads w). apply same_clock_reads.
        -- intros e He. rewrite first_record_to_dict in He by reflexivity.
           injection He as <-. apply incoming_ok.
    + assert (list_satisfies P (ProcessedContract.address c) l) as Hrest.
      { intros e He. apply Hl. cbn [first_record]. now rewrite Ed. }
      unfold bind. specialize (IH w Hrest).
      destruct (upsert c l w) as [l' w' | e w' |]; [| exact IH | exact IH].
      unfold ret. destruct IH as [Hn Hl']. split; [exact Hn |].
      intros e He. cbn [first_record] in He. rewrite Ed in He. now apply Hl'.
Qed.

Lemma save_keeps (w : World) :
  file_satisfies P (ProcessedContract.address c) w ->
  file_satisfies P (ProcessedContract.address c)
    (world_after (save_processed_contract c) w).
Proof.
  intros Hw. unfold world_after, save_processed_contract.
  rewrite try_reraise. unfold bind at 1.
  assert (exists data, _load_json processed_contracts w = Ok data w
                       /\ stored_list w
                          = match Py.get_default "contracts" (JList []) data with
                            | JList l => Some l
                            | _ => None
                            end) as (data & -> & Hdata).
  { unfold _load_json, stored_list. cbn [read].
    destruct (processed_contracts_file w) as [[| | | | | d] |];
      eexists; split; reflexivity. }
  destruct (Py.get_default "contracts" (JList []) data) as [| | | s | l | kv];
    try exact Hw.
  unfold bind at 1. pose proof (upsert_keeps l w (Hw l Hdata)) as Hup.
  destruct (upsert c l w) as [l' w1 | e w1 |]; [| now subst w1 | contradiction].
  destruct Hup as [[n ->] Hl']. unfold bind at 1.
  rewrite _save_json_returns. cbn [disk_writable with_clock_reads].
  assert (file_satisfies P (ProcessedContract.address c)
            (if disk_writable w
             then write processed_contracts (JDict [("contracts", JList l')])
                    (with_clock_reads n w)
             else failed_write processed_contracts (with_clock_reads n w)))
    as Hw2.
  { destruct (disk_writable w).
    - intros l2 Hl2. cbn in Hl2. injection Hl2 as <-. exact Hl'.
    - unfold failed_write. cbn [write_truncates with_clock_reads].
      destruct (write_truncates w); [| exact Hw].
      intros l2 Hl2. cbn in Hl2. injection Hl2 as <-.
      intros e He. discriminate He. }
  destruct (ParsingStatus.eqb _ _); [| exact Hw2].
  match goal with
  | |- context [remove_parsing_progress ?a ?w2] =>
      destruct (remove_parsing_progress_returns a w2) as (v & -> & _)
  end.
  exact Hw2.
Qed.

End RecordInvariant.

(** ** Consistent records *)

Section Counted.

Lemma counted_ext (c c' : ProcessedContract.t) :
  ProcessedContract.holders c' = ProcessedContract.holders c ->
  ProcessedContract.holders_count c' = ProcessedContract.holders_count c ->
  ProcessedContract.status c' = ProcessedContract.status c ->
  counted c -> counted c'.
Proof. unfold counted. intros -> -> _. auto. Qed.

Variable c : ProcessedContract.t.
Hypothesis c_counted : counted c.

Lemma incoming_record_counted :
  record_satisfies counted (ProcessedContract.to_dict c).
Proof.
  intros now c' Hc'. destruct (contract_read_back now c c' Hc') as (Ha & Hn & _).
  destruct c_counted as [Hnd Hcnt]. split.
  - now rewrite Ha.
  - rewrite Hn, Hcnt. rewrite <- (length_map TokenHolder.address).
    rewrite <- (length_map TokenHolder.address (ProcessedContract.holders c')).
    now rewrite Ha.
Qed.

Lemma merged_record_counted (existing : ProcessedContract.t) (now : DateTime.t) :
  counted existing ->
  record_satisfies counted
    (ProcessedContract.to_dict
       (ProcessedContract.mk (ProcessedContract.address c)
          (ProcessedContract.chain c) now
          (Z.of_nat
             (List.length
                (DBManager.merge_holders (ProcessedContract.holders existing)
                   (ProcessedContract.holders c))))
          (DBManager.merge_holders (ProcessedContract.holders existing)
             (ProcessedContract.holders c))
          (ProcessedContract.status c))).
Proof.
  intros [Hnd _] now' c' Hc'.
  destruct (contract_read_back now' _ c' Hc') as (Ha & Hn & _).
  cbn [ProcessedContract.holders ProcessedContract.holders_count] in Ha, Hn.
  split.
  - rewrite Ha. apply merge_holders_NoDup; [exact Hnd | apply c_counted].
  - rewrite Hn. rewrite <- (length_map TokenHolder.address).
    rewrite <- (length_map TokenHolder.address (ProcessedContract.holders c')).
    now rewrite Ha.
Qed.

Lemma save_keeps_counted (w : World) :
  file_satisfies counted (ProcessedContract.address c) w ->
  file_satisfies counted (ProcessedContract.address c)
    (world_after (DBManager.save_processed_contract c) w).
Proof.
  apply save_keeps;
    [exact incoming_record_counted | exact merged_record_counted].
Qed.

End Counted.

(** C2, the claim as stated fails: the first save of a record that lists a
    holder twice and claims seven holders stores it as it is. *)
Lemma dedup_counterexample :
  exists c,
    stored "0xABC" (run_saves [(true, Sample.miscounted)] Sample.quiet) = Some c
    /\ ~ NoDup (map TokenHolder.address (ProcessedContract.holders c))
    /\ ProcessedContract.holders_count c
       <> Z.of_nat (List.length (ProcessedContract.holders c)).
Proof.
  eexists. split; [vm_compute; reflexivity |].
  cbn [ProcessedContract.holders ProcessedContract.holders_count map
       TokenHolder.address List.length].
  split; [| discriminate].
  intros H. inversion H as [| ? ? Hin _]; subst. apply Hin. now left.
Qed.

(** C2, as the code has it.  Start from a store whose record for the
    address is absent or consistent, and save any sequence of records for
    that address, each with a duplicate-free holder list and a
    [holders_count] equal to the length of that list; the disk may fail at
    any of the calls.  Then the stored record has no two holders with the
    same address, and its [holders_count] is the length of its holder
    list. *)
Theorem dedup_invariant
  (address : string) (calls : list (bool * ProcessedContract.t)) (w : World) :
  store_consistent address w ->
  Forall (call_ok address) calls ->
  store_consistent address (run_saves calls w).
Proof.
  intros Hw Hcalls. apply (store_satisfies_iff counted counted_ext).
  apply (store_satisfies_iff counted counted_ext) in Hw.
  revert w Hw. induction Hcalls as [| [writable c] calls [Ha Hc] _ IH];
    intros w Hw; [exact Hw |].
  cbn [run_saves]. apply IH. cbn [snd] in Ha, Hc. subst address.
  apply (save_keeps_counted c Hc (with_disk_writable writable w)).
  exact Hw.
Qed.

Lemma dedup_invariant_witness :
  store_consistent "0xABC"
    (run_saves [(true, Sample.contract); (false, Sample.contract');
                (true, Sample.contract')] Sample.quiet).
Proof.
  apply dedup_invariant.
  - intros c H. vm_compute in H. discriminate H.
  - repeat constructor; simpl; intuition discriminate.
Defined.

(* ================================================================== *)
(** * The steps of an engine run *)
(* ================================================================== *)

Section Getters.

Import DBManager.

(** [get_processed_contract] never raises, and only the clock moves. *)
Lemma get_processed_contract_returns (address : string) (w : World) :
  exists n, get_processed_contract address w
            = Ok (stored address w) (with_clock_reads n w).
Proof.
  unfold stored.
  unfold get_processed_contract, try_except, bind, _load_json, raise, log, ret.
  cbn [read].
  assert (forall r : option ProcessedContract.t,
            exists n, Ok r w = Ok r (with_clock_reads n w)) as Hsame.
  { intros r. exists (clock_reads w). f_equal. apply same_clock_reads. }
  destruct (processed_contracts_file w) as [[| | | | | d] |];
    try apply Hsame.
  destruct (Py.get_default "contracts" (JList []) d) as [| | | s | l | kv];
    try apply Hsame.
  - destruct s; apply Hsame.
  - rewrite find_contract_spec.
    destruct (first_record address l) as [[e |] |]; try apply Hsame.
    unfold from_dict.
    destruct (ProcessedContract.reads_clock e);
      [eexists; reflexivity | apply Hsame].
  - destruct kv; apply Hsame.
Qed.

Lemma stored_db_status (address : string) (w : World) (c : ProcessedContract.t) :
  stored address w = Some c ->
  is_db_status (ProcessedContract.status c) = true.
Proof.
  rewrite stored_spec.
  destruct (stored_list w) as [l |]; [| discriminate].
  destruct (first_record address l) as [[e |] |]; try discriminate.
  apply from_dict_db_status.
Qed.

(** [get_parsing_progress] never raises and changes nothing. *)
Lemma get_parsing_progress_returns (address : string) (w : World) :
  get_parsing_progress address w = Ok (stored_progress address w) w.
Proof.
  unfold stored_progress.
  unfold get_parsing_progress, try_except, bind, raise, log, ret.
  destruct (_load_json_returns parsing_progress w) as [data ->].
  destruct (progress_data address data) as [[pd |] |]; try reflexivity.
  destruct (Py.truthy pd); [| reflexivity].
  destruct (ParsingProgress.from_dict pd); reflexivity.
Qed.

Lemma progress_from_dict_db_status (pd : json) (p : ParsingProgress.t) :
  ParsingProgress.from_dict pd = Some p ->
  is_db_status (ParsingProgress.status p) = true.
Proof.
  unfold ParsingProgress.from_dict.
  repeat (destruct_match; try discriminate).
  intros H. injection H as <-. reflexivity.
Qed.

Lemma stored_progress_db_status (address : string) (w : World)
  (p : ParsingProgress.t) :
  stored_progress address w = Some p ->
  is_db_status (ParsingProgress.status p) = true.
Proof.
  unfold stored_progress.
  unfold get_parsing_progress, try_except, bind, raise, log, ret.
  destruct (_load_json_returns parsing_progress w) as [data ->].
  destruct (progress_data address data) as [[pd |] |]; try discriminate.
  destruct (Py.truthy pd); [| discriminate].
  destruct (ParsingProgress.from_dict pd) as [p' |] eqn:E; [| discriminate].
  intros H. injection H as <-. exact (progress_from_dict_db_status _ _ E).
Qed.

(** A status of [db_manager.py] equals no status of [models.py]. *)
Lemma db_status_is_no_models_status (s : ParsingStatus.t)
  (m : ModelsParsingStatus.t) :
  is_db_status s = true -> ParsingStatus.eqb s (ParsingStatus.Models m) = false.
Proof. destruct s as [[] | ]; [| | | | discriminate]; reflexivity. Qed.



End Getters.

(* ================================================================== *)
(** * What the operations leave alone *)
(* ================================================================== *)

Section Frames.

Variable I : World -> Prop.
Hypothesis I_quiet : quiet I.

Lemma so_pending_holders_file (v : option json) (w : World) :
  I w -> I (with_pending_holders_file v w).
Proof. intros H. apply (I_quiet w H). Qed.

Lemma so_parsing_progress_file (v : option json) (w : World) :
  I w -> I (with_parsing_progress_file v w).
Proof. intros H. apply (I_quiet w H). Qed.

Lemma so_proxies_data_file (v : option (list (string * ProxyStatus.t)))
  (w : World) : I w -> I (with_proxies_data_file v w).
Proof. intros H. apply (I_quiet w H). Qed.

Lemma so_proxies (v : list (string * ProxyStatus.t)) (w : World) :
  I w -> I (with_proxies v w).
Proof. intros H. apply (I_quiet w H). Qed.

Lemma so_current_proxy_index (v : nat) (w : World) :
  I w -> I (with_current_proxy_index v w).
Proof. intros H. apply (I_quiet w H). Qed.

Lemma so_key_index (v : nat) (w : World) : I w -> I (with_key_index v w).
Proof. intros H. apply (I_quiet w H). Qed.

Lemma so_clock_reads (v : nat) (w : World) : I w -> I (with_clock_reads v w).
Proof. intros H. apply (I_quiet w H). Qed.

Ltac so :=
  repeat first
    [ assumption
    | apply so_pending_holders_file
    | apply so_parsing_progress_file
    | apply so_proxies_data_file
    | apply so_proxies
    | apply so_current_proxy_index
    | apply so_key_index
    | apply so_clock_reads ].

(** ** The clock *)

Lemma frame_read_now : keeps I read_now.
Proof. intros w H. unfold read_now. so. Qed.

Lemma frame_read_time : keeps I read_time.
Proof. intros w H. unfold read_time. so. Qed.

Lemma frame_get_next_key : keeps I ApiKeyManager.get_next_key.
Proof.
  intros w H. unfold ApiKeyManager.get_next_key.
  destruct (api_keys w); so.
Qed.

(** ** The proxy pool *)

Lemma frame_the_status (u : string) : keeps I (ProxyManager.the_status u).
Proof.
  intros w H. unfold ProxyManager.the_status.
  now destruct (ProxyManager.lookup u (proxies w)).
Qed.

Lemma frame_assign (u : string) (f : ProxyStatus.t -> ProxyStatus.t) :
  keeps I (ProxyManager.assign u f).
Proof. apply keeps_modify. intros w H. so. Qed.

Lemma frame_save_proxy_data : keeps I ProxyManager._save_proxy_data.
Proof.
  intros w H. unfold ProxyManager._save_proxy_data.
  destruct (disk_writable w); [so |].
  destruct (write_truncates w); so.
Qed.

Lemma frame_set_cooldown (u : string) : keeps I (ProxyManager._set_cooldown u).
Proof.
  unfold ProxyManager._set_cooldown.
  apply keeps_bind; [apply frame_the_status | intros ?].
  apply keeps_bind; [apply frame_read_time | intros ?].
  apply keeps_bind; [apply frame_assign | intros ?].
  apply frame_save_proxy_data.
Qed.

Lemma frame_handle_proxy_error (u : string) :
  keeps I (ProxyManager._handle_proxy_error u).
Proof.
  unfold ProxyManager._handle_proxy_error.
  apply keeps_bind; [apply frame_the_status | intros ?].
  apply keeps_bind; [apply frame_assign | intros ?].
  apply keeps_bind; [| intros ?; apply frame_save_proxy_data].
  apply keeps_if; [| apply keeps_ret].
  apply keeps_bind; [apply frame_assign | intros ?].
  apply frame_set_cooldown.
Qed.

Lemma frame_handle_proxy_success (u : string) :
  keeps I (ProxyManager._handle_proxy_success u).
Proof.
  unfold ProxyManager._handle_proxy_success.
  apply keeps_bind; [apply frame_the_status | intros ?].
  apply keeps_bind; [apply frame_assign | intros ?].
  apply keeps_bind; [apply frame_read_time | intros ?].
  apply keeps_bind; [apply frame_assign | intros ?].
  apply frame_save_proxy_data.
Qed.

Lemma frame_in_cooldown (st : ProxyStatus.t) :
  keeps I (ProxyManager.in_cooldown st).
Proof.
  unfold ProxyManager.in_cooldown.
  destruct (ProxyStatus.cooldown_until st) as [c |]; [| apply keeps_ret].
  apply keeps_if; [apply keeps_ret |].
  apply keeps_bind; [apply frame_read_time | intros; apply keeps_ret].
Qed.

Lemma frame_scan (attempts : nat) : keeps I (ProxyManager.scan attempts).
Proof.
  induction attempts as [| n IH]; cbn [ProxyManager.scan]; [apply keeps_ret |].
  apply keeps_bind; [apply keeps_get_world | intros w0].
  apply keeps_bind; [apply keeps_modify; intros w H; so | intros ?].
  destruct (nth_error _ _) as [u |]; [| apply keeps_raise].
  apply keeps_bind; [apply frame_the_status | intros st].
  apply keeps_if; [exact IH |].
  apply keeps_bind; [apply frame_in_cooldown | intros cooling].
  apply keeps_if; [exact IH |].
  apply keeps_if; [| apply keeps_ret].
  apply keeps_bind; [apply frame_set_cooldown | intros ?; exact IH].
Qed.

Lemma frame_get_next_available_proxy :
  keeps I ProxyManager._get_next_available_proxy.
Proof.
  unfold ProxyManager._get_next_available_proxy.
  apply keeps_bind; [apply keeps_get_world | intros w0; apply frame_scan].
Qed.

Lemma frame_with_proxy {A : Type} (func : string -> M A) :
  (forall u, keeps I (func u)) -> keeps I (ProxyManager.with_proxy func).
Proof.
  intros Hf. unfold ProxyManager.with_proxy.
  apply keeps_bind; [apply frame_get_next_available_proxy | intros [u |]];
    [| apply keeps_raise].
  apply keeps_if; [apply keeps_raise |].
  apply keeps_try.
  - apply keeps_bind; [apply Hf | intros r].
    apply keeps_bind; [apply frame_handle_proxy_success | intros ?].
    apply keeps_ret.
  - intros e. apply keeps_bind; [apply frame_handle_proxy_error | intros ?].
    apply keeps_raise.
Qed.

(** ** The checkpoint store *)

Lemma frame_load_json (f : DBManager.File) : keeps I (DBManager._load_json f).
Proof.
  intros w H. destruct (_load_json_returns f w) as [data ->]. exact H.
Qed.

Lemma frame_save_parsing_progress (p : ParsingProgress.t) :
  keeps I (DBManager.save_parsing_progress p).
Proof.
  intros w H. destruct (save_parsing_progress_returns p w) as (v & -> & _). so.
Qed.

Lemma frame_remove_parsing_progress (a : string) :
  keeps I (DBManager.remove_parsing_progress a).
Proof.
  intros w H. destruct (remove_parsing_progress_returns a w) as (v & -> & _). so.
Qed.

Lemma frame_get_processed_contract (a : string) :
  keeps I (DBManager.get_processed_contract a).
Proof.
  intros w H. destruct (get_processed_contract_returns a w) as (n & ->). so.
Qed.

Lemma frame_get_parsing_progress (a : string) :
  keeps I (DBManager.get_parsing_progress a).
Proof. intros w H. rewrite get_parsing_progress_returns. exact H. Qed.

Lemma frame_get_pending_holders (a : string) :
  keeps I (DBManager.get_pending_holders a).
Proof.
  unfold DBManager.get_pending_holders.
  apply keeps_try; [| intros e; apply keeps_bind;
                      [apply keeps_log | intros ?; apply keeps_ret]].
  apply keeps_bind; [apply frame_load_json | intros data].
  repeat (destruct_match; try apply keeps_raise; try apply keeps_ret).
Qed.

Lemma frame_save_pending (data : json) :
  keeps I (DBManager._save_json DBManager.pending_holders data).
Proof.
  intros w H. rewrite _save_json_returns.
  destruct (disk_writable w); [cbn [DBManager.write]; so |].
  unfold DBManager.failed_write. destruct (write_truncates w); so.
Qed.

Lemma frame_add_pending_holders (a : string) (holders : list TokenHolder.t) :
  keeps I (DBManager.add_pending_holders a holders).
Proof.
  unfold DBManager.add_pending_holders.
  apply keeps_try; [| intros e; apply keeps_log].
  apply keeps_bind; [apply frame_load_json | intros data].
  apply keeps_bind; [apply frame_get_pending_holders | intros existing].
  destruct_match; try apply keeps_raise. apply frame_save_pending.
Qed.

(** ** The request *)

Section Requests.

Hypothesis I_requests : ignores_requests I.

Lemma frame_session_get (r : Request) : keeps I (session_get r).
Proof. intros w H. unfold session_get. now apply I_requests. Qed.

Lemma frame_make_async_request (c : Contract.t) (page : json) (limit : Z) :
  keeps I (_make_async_request c page limit).
Proof.
  apply frame_with_proxy. intros u. unfold make_request.
  destruct (Contract.chain_id c) as [id |]; [| apply keeps_ret].
  apply keeps_if; [apply keeps_ret |].
  apply keeps_bind; [apply frame_get_next_key | intros [key |]];
    [| apply keeps_ret].
  apply keeps_if; [apply keeps_ret |].
  apply keeps_bind; [apply frame_session_get | intros [| status body]];
    (apply keeps_bind; [apply keeps_log | intros ?; apply keeps_ret]).
Qed.

End Requests.

(** ** The flag *)

Section Flag.

Hypothesis I_flag : ignores_flag I.

Lemma frame_read_flag : keeps I GetHolders.read_flag.
Proof. intros w H. unfold GetHolders.read_flag. now apply I_flag. Qed.

End Flag.

End Frames.

Section Requests.

Import ProxyManager.

(** With a usable next entry, the selection returns it at once; only the
    index moves. *)
Lemma select_ready (w : World) :
  proxy_ready w = true ->
  exists proxy_url st,
    _get_next_available_proxy w
    = Ok (Some proxy_url) (with_current_proxy_index (next_index w) w)
    /\ String.eqb proxy_url "" = false
    /\ lookup proxy_url (proxies w) = Some st.
Proof.
  unfold proxy_ready. intros H.
  destruct (nth_error (map fst (proxies w)) (next_index w)) as [u |] eqn:En;
    [| discriminate].
  apply andb_prop in H. destruct H as [Hu H]. apply negb_true_iff in Hu.
  destruct (lookup u (proxies w)) as [st |] eqn:El; [| discriminate].
  apply andb_prop in H. destruct H as [H Hq].
  apply andb_prop in H. destruct H as [Hwk Hc].
  exists u, st. split; [| auto].
  unfold _get_next_available_proxy, bind at 1, get_world.
  destruct (List.length (proxies w)) as [| k] eqn:Elen.
  { destruct (proxies w); [now destruct (next_index w) | discriminate]. }
  cbn [scan]. unfold bind at 1, get_world. unfold bind at 1, modify.
  fold (next_index w) in *. unfold next_index in En |- *.
  rewrite Elen in En |- *. rewrite En.
  unfold bind at 1, the_status. cbn [proxies with_current_proxy_index].
  rewrite El, Hwk. cbn [negb].
  unfold bind at 1, in_cooldown.
  assert (Z.geb (ProxyStatus.requests_count st)
            ProxyConfig.MAX_REQUESTS_PER_PROXY = false) as Hq'.
  { rewrite Z.geb_leb. apply Z.leb_gt. now apply Z.ltb_lt. }
  destruct (ProxyStatus.cooldown_until st) as [c |].
  - rewrite Hc. unfold ret. now rewrite Hq'.
  - unfold ret. now rewrite Hq'.
Qed.




End Requests.

Section Saves.

Import DBManager.



End Saves.

(* ================================================================== *)
(** * [token_holders_service.py]: a run that fails at its first request *)
(* ================================================================== *)

Section FirstRequest.

Local Arguments DateTime.isoformat : simpl never.
Local Arguments DateTime.fromisoformat : simpl never.




End FirstRequest.

Section ServiceRun.

(** What [_get_holders_async] of [token_holders_service.py] comes to,
    whatever the store holds: the statuses it reads from the store are of
    [db_manager.ParsingStatus] and equal none of [models.ParsingStatus], so
    the run never ends early on [COMPLETED] and always starts the loop at
    page 1. *)
Lemma service_run_unfolded (fuel : nat) (c : Contract.t) (limit : Z) (w : World) :
  exists n,
    TokenHoldersService._get_holders_async fuel c limit w
    = (all_holders <-
         TokenHoldersService.page_loop fuel c limit
           (existing_holders (Contract.address c) w) [] (JInt 1) ;;
       (match all_holders, existing_holders (Contract.address c) w with
        | [], [] => ret tt
        | _, _ =>
            TokenHoldersService._save_holders c all_holders
              (existing_holders (Contract.address c) w)
              TokenHoldersService.COMPLETED
        end) ;;;
       ret all_holders) (with_clock_reads n w).
Proof.
  destruct (get_processed_contract_returns (Contract.address c) w) as [n E].
  exists n. unfold TokenHoldersService._get_holders_async.
  unfold bind at 1. rewrite E. unfold existing_holders.
  unfold TokenHoldersService.COMPLETED, TokenHoldersService.IN_PROGRESS.
  destruct (stored (Contract.address c) w) as [pc |] eqn:Es.
  - rewrite (db_status_is_no_models_status _ _
               (stored_db_status _ _ _ Es)).
    unfold bind at 1. rewrite get_parsing_progress_returns.
    destruct (stored_progress (Contract.address c) (with_clock_reads n w))
      as [p |] eqn:Ep; [| reflexivity].
    now rewrite (db_status_is_no_models_status _ _
                   (stored_progress_db_status _ _ _ Ep)).
  - unfold bind at 1. rewrite get_parsing_progress_returns.
    destruct (stored_progress (Contract.address c) (with_clock_reads n w))
      as [p |] eqn:Ep; [| reflexivity].
    now rewrite (db_status_is_no_models_status _ _
                   (stored_progress_db_status _ _ _ Ep)).
Qed.

End ServiceRun.

Section FailingRuns.




End FailingRuns.




Section FirstPageFailure.




End FirstPageFailure.


(** After the same failure, [get_holders.py] overwrites the failure record:
    the progress record is [in_progress] and has no error message. *)
Example get_holders_overwrites_the_failure :
  exists w,
    GetHolders._get_holders_async 1 Sample.the_contract 100
      (Sample.fresh (fun _ => 1000) Sample.broken Sample.never) = Ok [] w
    /\ progress_summary "0xABC" w
       = Some (ParsingStatus.Db DbParsingStatus.IN_PROGRESS, JInt 1, JNull).
Proof.
  eexists. split; [vm_compute; reflexivity |].
  vm_compute; reflexivity.
Qed.



(* ================================================================== *)
(** * [token_holders_service.py]: the snapshot after the loop *)
(* ================================================================== *)

Section RecordFrames.

Variable I : World -> Prop.
Hypothesis I_quiet : quiet I.
Hypothesis I_records : ignores_records I.

Lemma frame_from_dict (e : json) : keeps I (DBManager.from_dict e).
Proof.
  intros w H. unfold DBManager.from_dict.
  destruct (ProcessedContract.reads_clock e);
    [now apply so_clock_reads | exact H].
Qed.

Lemma frame_upsert (c : ProcessedContract.t) (l : list json) :
  keeps I (DBManager.upsert c l).
Proof.
  induction l as [| e l IH]; cbn [DBManager.upsert]; [apply keeps_ret |].
  destruct e as [| | | | | d]; try apply keeps_raise.
  apply keeps_if.
  - apply keeps_bind; [apply frame_from_dict | intros [existing |]].
    + apply keeps_bind; [now apply frame_read_now | intros ?; apply keeps_ret].
    + apply keeps_ret.
  - apply keeps_bind; [exact IH | intros ?; apply keeps_ret].
Qed.

Lemma frame_save_processed_contract (c : ProcessedContract.t) :
  keeps I (DBManager.save_processed_contract c).
Proof.
  unfold DBManager.save_processed_contract.
  apply keeps_try;
    [| intros e; apply keeps_bind; [apply keeps_log | intros ?; apply keeps_raise]].
  apply keeps_bind; [now apply frame_load_json | intros data].
  destruct (Py.get_default "contracts" (JList []) data) as [| | | | l |];
    try apply keeps_raise.
  apply keeps_bind; [apply frame_upsert | intros l'].
  apply keeps_bind.
  - intros w H. rewrite _save_json_returns.
    destruct (disk_writable w); [cbn [DBManager.write]; now apply I_records |].
    unfold DBManager.failed_write.
    destruct (write_truncates w); [now apply I_records | exact H].
  - intros ?. apply keeps_if; [now apply frame_remove_parsing_progress |].
    apply keeps_ret.
Qed.

Lemma frame_service_save_progress (a : string) (page total : json)
  (st : ParsingStatus.t) (msg : json) :
  keeps I (TokenHoldersService._save_progress a page total st msg).
Proof.
  unfold TokenHoldersService._save_progress.
  apply keeps_bind; [now apply frame_read_now | intros now].
  now apply frame_save_parsing_progress.
Qed.

Lemma frame_service_save_holders (c : Contract.t) (new_holders : list Item)
  (existing : list TokenHolder.t) (st : ParsingStatus.t) :
  keeps I (TokenHoldersService._save_holders c new_holders existing st).
Proof.
  unfold TokenHoldersService._save_holders.
  apply keeps_bind; [now apply frame_read_now | intros now].
  apply keeps_bind; [apply frame_save_processed_contract | intros ?].
  apply keeps_bind; [| intros ?; apply keeps_log].
  destruct (map _ _); [apply keeps_ret | now apply frame_add_pending_holders].
Qed.

Hypothesis I_requests : ignores_requests I.

(** The loop keeps every invariant that does not look at what the program
    writes. *)
Lemma frame_service_page_loop (fuel : nat) (c : Contract.t) (limit : Z)
  (existing : list TokenHolder.t) :
  forall (all : list Item) (page : json),
    keeps I (TokenHoldersService.page_loop fuel c limit existing all page).
Proof.
  induction fuel as [| fuel IH]; intros all page;
    cbn [TokenHoldersService.page_loop]; [intros w H; trivial |].
  apply keeps_bind; [apply keeps_log | intros ?].
  apply keeps_bind; [now apply frame_make_async_request | intros [r |]].
  - apply keeps_if.
    + apply keeps_bind; [apply keeps_log | intros ?].
      apply keeps_bind; [apply frame_service_save_progress | intros ?].
      apply keeps_ret.
    + apply keeps_bind; [apply frame_service_save_progress | intros ?].
      apply keeps_bind; [apply frame_service_save_holders | intros ?].
      apply keeps_if; [apply keeps_ret | apply IH].
  - apply keeps_bind; [apply keeps_log | intros ?].
    apply keeps_bind; [apply frame_service_save_progress | intros ?].
    apply keeps_ret.
Qed.

End RecordFrames.

Section FinalSnapshot.

Local Arguments DateTime.isoformat : simpl never.
Local Arguments DateTime.fromisoformat : simpl never.

Lemma disk_writable_quiet : quiet (fun w => disk_writable w = true).
Proof. intros w H. repeat split; intros; exact H. Qed.

(** A record that [to_dict] wrote is read back with the status whose value
    was written. *)
Lemma contract_read_back_status (now : DateTime.t) (c : ProcessedContract.t)
  (s : DbParsingStatus.t) :
  DbParsingStatus.of_value (JStr (ParsingStatus.value (ProcessedContract.status c)))
  = Some s ->
  exists c', ProcessedContract.from_dict now (ProcessedContract.to_dict c) = Some c'
             /\ ProcessedContract.status c' = ParsingStatus.Db s.
Proof.
  destruct c as [a ch pa n hs st]. intros Hs.
  unfold ProcessedContract.to_dict, ProcessedContract.from_dict,
    ProcessedContract.holders_of.
  cbn [ProcessedContract.address ProcessedContract.chain
       ProcessedContract.processed_at ProcessedContract.holders_count
       ProcessedContract.holders ProcessedContract.status] in *.
  cbn [Py.get Py.get_default Py.lookup String.eqb Ascii.eqb Bool.eqb Py.iter
       Py.int].
  destruct (holders_read_back hs) as (hs' & -> & _).
  rewrite DateTimeFacts.fromisoformat_isoformat, Hs.
  eexists. split; reflexivity.
Qed.

(** The status read for an address depends on the record list only. *)
Lemma stored_status_frame (address : string) (w w' : World) :
  stored_list w' = stored_list w ->
  option_map ProcessedContract.status (stored address w')
  = option_map ProcessedContract.status (stored address w).
Proof.
  rewrite !stored_spec. intros ->.
  destruct (stored_list w) as [l |]; [| reflexivity].
  destruct (first_record address l) as [[e |] |]; try reflexivity.
  destruct (ProcessedContract.from_dict (datetime_now w (clock_reads w)) e)
    as [c |] eqn:E.
  - destruct (from_dict_clock _ (datetime_now w' (clock_reads w')) e c E)
      as (c' & -> & _ & _ & Hst). cbn. now rewrite Hst.
  - destruct (ProcessedContract.from_dict (datetime_now w' (clock_reads w')) e)
      as [c' |] eqn:E'; [| reflexivity].
    destruct (from_dict_clock _ (datetime_now w (clock_reads w)) e c' E')
      as (c2 & E2 & _). congruence.
Qed.

Lemma stored_status_quiet (address : string)
  (st : option ParsingStatus.t) :
  quiet
    (fun w => option_map ProcessedContract.status (stored address w) = st).
Proof.
  intros w H. repeat split; intros v;
    (rewrite (stored_status_frame address w); [exact H | reflexivity]).
Qed.

(** When [upsert] returns, the first record of the address is one that
    [to_dict] wrote with the incoming status. *)
Lemma upsert_ok_first_record (c : ProcessedContract.t) (l : list json) :
  forall (w w' : World) (l' : list json),
  DBManager.upsert c l w = Ok l' w' ->
  exists x,
    first_record (ProcessedContract.address c) l'
    = Some (Some (ProcessedContract.to_dict x))
    /\ ProcessedContract.status x = ProcessedContract.status c.
Proof.
  induction l as [| e l IH]; intros w w' l' H.
  - cbn [DBManager.upsert] in H. injection H as <- <-.
    exists c. split; [now apply first_record_to_dict | reflexivity].
  - destruct e as [| | | | | d]; try discriminate.
    cbn [DBManager.upsert] in H.
    destruct (DBManager.address_is (ProcessedContract.address c) d) eqn:Ed.
    + unfold bind at 1, DBManager.from_dict in H.
      destruct (ProcessedContract.from_dict _ (JDict d)) as [existing |].
      * unfold bind, read_now, ret in H. injection H as <- <-.
        eexists. split; [now apply first_record_to_dict | reflexivity].
      * unfold ret in H. injection H as <- <-.
        exists c. split; [now apply first_record_to_dict | reflexivity].
    + unfold bind in H.
      destruct (DBManager.upsert c l w) as [l1 w1 | |] eqn:E; try discriminate.
      unfold ret in H. injection H as <- <-.
      destruct (IH w w1 l1 E) as (x & Hx & Hs). exists x.
      split; [| exact Hs]. cbn [first_record]. now rewrite Ed.
Qed.

(** After a save that returned, on a writable disk, the stored record has
    the status that was saved. *)
Lemma save_ok_stored_status (c : ProcessedContract.t) (s : DbParsingStatus.t)
  (w w' : World) :
  DBManager.save_processed_contract c w = Ok tt w' ->
  disk_writable w = true ->
  DbParsingStatus.of_value (JStr (ParsingStatus.value (ProcessedContract.status c)))
  = Some s ->
  option_map ProcessedContract.status (stored (ProcessedContract.address c) w')
  = Some (ParsingStatus.Db s).
Proof.
  intros H Hw Hs. unfold DBManager.save_processed_contract in H.
  rewrite try_reraise in H. unfold bind at 1 in H.
  destruct (_load_json_returns DBManager.processed_contracts w) as [data E].
  rewrite E in H.
  destruct (Py.get_default "contracts" (JList []) data) as [| | | | l |];
    try discriminate.
  unfold bind at 1 in H.
  pose proof (frame_upsert _ disk_writable_quiet c l w Hw) as Hw1.
  destruct (DBManager.upsert c l w) as [l' w1 | |] eqn:Eup; try discriminate.
  destruct (upsert_ok_first_record c l w w1 l' Eup) as (x & Hx & Hsx).
  unfold bind at 1 in H. rewrite _save_json_returns, Hw1 in H.
  assert (option_map ProcessedContract.status
            (stored (ProcessedContract.address c)
               (DBManager.write DBManager.processed_contracts
                  (JDict [("contracts", JList l')]) w1))
          = Some (ParsingStatus.Db s)) as Hst.
  { rewrite stored_spec.
    change (stored_list
              (DBManager.write DBManager.processed_contracts
                 (JDict [("contracts", JList l')]) w1)) with (Some l').
    cbv beta iota. rewrite Hx. rewrite <- Hsx in Hs.
    destruct (contract_read_back_status
                (datetime_now
                   (DBManager.write DBManager.processed_contracts
                      (JDict [("contracts", JList l')]) w1)
                   (clock_reads
                      (DBManager.write DBManager.processed_contracts
                         (JDict [("contracts", JList l')]) w1)))
                x s Hs) as (c' & -> & Hc').
    cbn. now rewrite Hc'. }
  destruct (ParsingStatus.eqb _ _).
  - match goal with
    | H : DBManager.remove_parsing_progress ?a ?w2 = _ |- _ =>
        destruct (remove_parsing_progress_returns a w2) as (v & Er & _);
        rewrite Er in H
    end.
    injection H as <-.
    rewrite (stored_status_frame _
               (DBManager.write DBManager.processed_contracts
                  (JDict [("contracts", JList l')]) w1)); [exact Hst | reflexivity].
  - unfold ret in H. injection H as <-. exact Hst.
Qed.

End FinalSnapshot.

(** X24.  Whenever a run of [_get_holders_async] of
    [token_holders_service.py] returns and any holder is known, whether
    found by this run or stored before it, the stored contract is tagged
    [completed], however the loop ended. *)
Theorem service_tags_every_crawl_completed
  (fuel : nat) (c : Contract.t) (limit : Z) (w w' : World) (res : list Item) :
  disk_writable w = true ->
  TokenHoldersService._get_holders_async fuel c limit w = Ok res w' ->
  res <> [] \/ existing_holders (Contract.address c) w <> [] ->
  option_map ProcessedContract.status (stored (Contract.address c) w')
  = Some (ParsingStatus.Db DbParsingStatus.COMPLETED).
Proof.
  intros Hw H Hknown.
  destruct (service_run_unfolded fuel c limit w) as [n E]. rewrite E in H.
  clear E. unfold bind at 1 in H.
  pose proof (frame_service_page_loop _ disk_writable_quiet
                (fun _ _ H => H) (fun _ _ H => H) fuel c limit
                (existing_holders (Contract.address c) w) [] (JInt 1)
                (with_clock_reads n w) Hw) as Hw1.
  destruct (TokenHoldersService.page_loop fuel c limit _ [] (JInt 1)
              (with_clock_reads n w)) as [all w1 | |]; try discriminate.
  unfold bind at 1 in H.
  assert (exists w2,
            TokenHoldersService._save_holders c all
              (existing_holders (Contract.address c) w)
              TokenHoldersService.COMPLETED w1 = Ok tt w2
            /\ Ok all w2 = Ok res w') as (w2 & Hsave & Hres).
  { destruct all as [| i all];
      [destruct (existing_holders (Contract.address c) w) as [| h t] eqn:Ex |].
    - unfold ret in H. injection H as <- <-. destruct Hknown; contradiction.
    - destruct (TokenHoldersService._save_holders c [] (h :: t) _ w1)
        as [[] w2 | |]; try discriminate. exists w2. auto.
    - destruct (TokenHoldersService._save_holders c (i :: all) _ _ w1)
        as [[] w2 | |]; try discriminate. exists w2. auto. }
  injection Hres as _ <-. clear H.
  unfold TokenHoldersService._save_holders in Hsave.
  unfold bind at 1, read_now in Hsave. unfold bind at 1 in Hsave.
  match type of Hsave with
  | context [DBManager.save_processed_contract ?pc ?w1'] =>
      destruct (DBManager.save_processed_contract pc w1') as [[] w3 | |] eqn:Es;
        try discriminate;
      pose proof (save_ok_stored_status pc DbParsingStatus.COMPLETED w1' w3 Es
                    Hw1 eq_refl) as Hst
  end.
  cbn [ProcessedContract.address] in Hst.
  unfold bind at 1 in Hsave.
  match type of Hsave with
  | context [match ?m w3 with _ => _ end] =>
      assert (keeps
                (fun w => option_map ProcessedContract.status
                            (stored (Contract.address c) w)
                          = Some (ParsingStatus.Db DbParsingStatus.COMPLETED)) m)
        as Hk;
        [| specialize (Hk w3 Hst); destruct (m w3) as [[] w4 | |];
           try discriminate]
  end.
  { destruct (map _ _); [apply keeps_ret |].
    apply frame_add_pending_holders. apply stored_status_quiet. }
  unfold log, ret in Hsave. injection Hsave as <-. exact Hk.
Qed.

Lemma service_tags_every_crawl_completed_witness :
  exists w,
    TokenHoldersService._get_holders_async 2 Sample.the_contract 100
      (Sample.fresh (fun _ => 1000) Sample.fails_after_page_1 Sample.never)
    = Ok [ItemStr "0x1"; ItemStr "0x2"] w
    /\ option_map ProcessedContract.status (stored "0xABC" w)
       = Some (ParsingStatus.Db DbParsingStatus.COMPLETED).
Proof.
  eexists. split; [vm_compute; reflexivity |].
  apply (service_tags_every_crawl_completed 2 Sample.the_contract 100
           (Sample.fresh (fun _ => 1000) Sample.fails_after_page_1 Sample.never)
           _ [ItemStr "0x1"; ItemStr "0x2"]);
    [reflexivity | vm_compute; reflexivity | left; discriminate].
Defined.

(* ================================================================== *)
(** * [get_holders.py]: when the stored contract becomes [completed] *)
(* ================================================================== *)

Section GetHoldersFrames.

Variable I : World -> Prop.
Hypothesis I_quiet : quiet I.

Lemma frame_get_holders_save_progress (a : string) (page total : json)
  (st : ParsingStatus.t) (msg : json) :
  keeps I (GetHolders.save_progress a page total st msg).
Proof.
  unfold GetHolders.save_progress.
  apply keeps_bind; [now apply frame_read_now | intros now].
  apply keeps_bind; [now apply frame_save_parsing_progress | intros ?].
  apply keeps_ret.
Qed.

Hypothesis I_records : ignores_records I.

Lemma frame_get_holders_save_intermediate_holders (c : Contract.t)
  (new_holders : list Item) (existing : list TokenHolder.t)
  (st : ParsingStatus.t) :
  keeps I (GetHolders._save_intermediate_holders c new_holders existing st).
Proof.
  unfold GetHolders._save_intermediate_holders.
  apply keeps_bind; [now apply frame_read_now | intros now].
  apply keeps_bind; [now apply frame_save_processed_contract | intros ?].
  apply keeps_bind; [| intros ?; apply keeps_log].
  destruct (map _ _); [apply keeps_ret | now apply frame_add_pending_holders].
Qed.

End GetHoldersFrames.

(** ** A record list without a [completed] record of the contract *)

Section OpenRecord.

Lemma file_satisfies_quiet (P : ProcessedContract.t -> Prop) (a : string) :
  quiet (file_satisfies P a).
Proof. intros w H. repeat split; intros v l Hl; exact (H l Hl). Qed.

Lemma file_satisfies_requests (P : ProcessedContract.t -> Prop) (a : string) :
  ignores_requests (file_satisfies P a).
Proof. intros w v H l Hl. exact (H l Hl). Qed.

Lemma not_completed_ext (c c' : ProcessedContract.t) :
  ProcessedContract.holders c' = ProcessedContract.holders c ->
  ProcessedContract.holders_count c' = ProcessedContract.holders_count c ->
  ProcessedContract.status c' = ProcessedContract.status c ->
  not_completed c -> not_completed c'.
Proof. unfold not_completed. intros _ _ ->. auto. Qed.

(** A record saved as [in_progress] is read back as not completed. *)
Lemma in_progress_record_is_open (c : ProcessedContract.t) :
  ProcessedContract.status c = GetHolders.IN_PROGRESS ->
  record_satisfies not_completed (ProcessedContract.to_dict c).
Proof.
  intros Hs now c' Hc'.
  destruct (contract_read_back now c c' Hc') as (_ & _ & Hst).
  rewrite Hs in Hst. cbn in Hst. injection Hst as Hst.
  unfold not_completed. rewrite <- Hst. discriminate.
Qed.

(** Saving a record as [in_progress] leaves the stored record of its
    address not completed. *)
Lemma save_in_progress_keeps_open (c : ProcessedContract.t) :
  ProcessedContract.status c = GetHolders.IN_PROGRESS ->
  keeps (file_satisfies not_completed (ProcessedContract.address c))
    (DBManager.save_processed_contract c).
Proof.
  intros Hs w H.
  pose proof (save_keeps not_completed c
                (in_progress_record_is_open c Hs)
                (fun existing now _ =>
                   in_progress_record_is_open
                     (ProcessedContract.mk _ _ now _ _ _) Hs) w H)
    as Hk.
  unfold world_after in Hk.
  destruct (DBManager.save_processed_contract c w); auto.
Qed.

Lemma save_intermediate_holders_keeps_open (c : Contract.t)
  (new_holders : list Item) (existing : list TokenHolder.t) :
  keeps (file_satisfies not_completed (Contract.address c))
    (GetHolders._save_intermediate_holders c new_holders existing
       GetHolders.IN_PROGRESS).
Proof.
  unfold GetHolders._save_intermediate_holders.
  apply keeps_bind;
    [apply frame_read_now, file_satisfies_quiet | intros now].
  apply keeps_bind.
  - match goal with
    | |- keeps _ (DBManager.save_processed_contract ?pc) =>
        exact (save_in_progress_keeps_open pc eq_refl)
    end.
  - intros ?. apply keeps_bind; [| intros ?; apply keeps_log].
    destruct (map _ _); [apply keeps_ret |].
    apply frame_add_pending_holders, file_satisfies_quiet.
Qed.

End OpenRecord.

(** ** The answer in hand is the answer to the last request *)

Section Answers.

Lemma answered_quiet (response : option ApiResponse.t) :
  quiet (answered response).
Proof. intros w H. repeat split; intros v r Hr; exact (H r Hr). Qed.

Lemma answered_records (response : option ApiResponse.t) :
  ignores_records (answered response).
Proof. intros w v H r Hr. exact (H r Hr). Qed.

Lemma last_answer_session_get (req : Request) (w : World) :
  last_answer (with_sent (sent w ++ [req]) w)
  = match network w (List.length (sent w)) req with
    | NetResponse status body => Some (ApiResponse.from_response status body)
    | NetException => None
    end.
Proof.
  unfold last_answer. cbn [sent network with_sent].
  rewrite rev_app_distr. cbn [rev app]. now rewrite length_rev.
Qed.

Variable I : World -> Prop.
Hypothesis I_quiet : quiet I.
Hypothesis I_requests : ignores_requests I.

Lemma make_request_answered (c : Contract.t) (page : json) (limit : Z)
  (u : string) :
  triple I (make_request c page limit u)
    (fun response w => I w /\ answered response w) I.
Proof.
  assert (forall w, I w -> I w /\ answered None w) as Hnone.
  { intros w H. split; [exact H | intros r Hr; discriminate Hr]. }
  unfold make_request.
  destruct (Contract.chain_id c) as [id |]; [| now apply triple_ret].
  destruct (String.eqb id ""); [now apply triple_ret |].
  eapply triple_bind; [now apply frame_get_next_key | intros [key |]];
    [| now apply triple_ret].
  destruct (String.eqb key ""); [now apply triple_ret |].
  intros w H. unfold bind at 1, session_get.
  pose proof (last_answer_session_get
                (mkRequest
                   (ChainbaseConfig.BASE_URL ++ ChainbaseConfig.HOLDERS_ENDPOINT)
                   key id (Py.str (JInt limit)) (Py.str page)
                   (Contract.address c) u) w) as Hlast.
  destruct (network w _ _) as [| status body]; cbn.
  - split; [now apply I_requests | intros r Hr; discriminate Hr].
  - split; [now apply I_requests |].
    intros r Hr. injection Hr as <-. exact Hlast.
Qed.

Lemma make_async_request_answered (c : Contract.t) (page : json) (limit : Z) :
  triple I (_make_async_request c page limit)
    (fun response w => I w /\ answered response w) I.
Proof.
  unfold _make_async_request, ProxyManager.with_proxy.
  eapply triple_bind;
    [now apply frame_get_next_available_proxy | intros [u |]];
    [| apply triple_raise].
  destruct (String.eqb u ""); [apply triple_raise |].
  apply triple_try with (R' := I).
  - eapply triple_bind; [apply make_request_answered | intros response].
    eapply triple_consequence with
      (P := fun w => I w /\ answered response w)
      (Q := fun (a : option ApiResponse.t) w =>
              I w /\ answered response w /\ a = response)
      (R := fun w => I w /\ answered response w).
    + eapply triple_bind.
      * apply keeps_and;
          [now apply frame_handle_proxy_success
          | apply frame_handle_proxy_success, answered_quiet].
      * intros ?. apply triple_ret. intros w [H1 H2]. auto.
    + auto.
    + intros a w (H1 & H2 & ->). auto.
    + intros w [H1 _]. exact H1.
  - intros e. eapply triple_bind;
      [now apply frame_handle_proxy_error | intros ?; apply triple_raise].
Qed.

End Answers.

(** ** The loop and what follows it *)

Section GetHoldersRun.

Variable c : Contract.t.
Variable limit : Z.
Variable existing : list TokenHolder.t.

Let open_run := open_run (Contract.address c).

Lemma flag_stays_set_quiet : quiet flag_stays_set.
Proof. intros w H. repeat apply conj; intros v; exact H. Qed.

Lemma open_run_quiet : quiet open_run.
Proof.
  intros w [H1 H2].
  pose proof (file_satisfies_quiet not_completed (Contract.address c) w H1)
    as (A1 & A2 & A3 & A4 & A5 & A6 & A7).
  repeat apply conj; intros v; (split; [auto | exact H2]).
Qed.

Lemma open_run_requests : ignores_requests open_run.
Proof. intros w v [H1 H2]. split; [intros l Hl; exact (H1 l Hl) | exact H2]. Qed.

Lemma save_progress_keeps_open_run (page total : json)
  (st : ParsingStatus.t) (msg : json) (response : option ApiResponse.t) :
  keeps (fun w => open_run w /\ answered response w)
    (GetHolders.save_progress (Contract.address c) page total st msg).
Proof.
  apply keeps_and; apply frame_get_holders_save_progress;
    [apply open_run_quiet | apply answered_quiet].
Qed.

Lemma save_intermediate_holders_keeps_open_run (new_holders : list Item)
  (response : option ApiResponse.t) :
  keeps (fun w => open_run w /\ answered response w)
    (GetHolders._save_intermediate_holders c new_holders existing
       GetHolders.IN_PROGRESS).
Proof.
  apply keeps_and; [apply keeps_and |].
  - apply save_intermediate_holders_keeps_open.
  - apply frame_get_holders_save_intermediate_holders;
      [apply flag_stays_set_quiet | intros w v H; exact H].
  - apply frame_get_holders_save_intermediate_holders;
      [apply answered_quiet | apply answered_records].
Qed.

Lemma triple_drop_raise {A : Type} (I1 I2 : World -> Prop) (m : M A) :
  keeps (fun w => I1 w /\ I2 w) m ->
  triple (fun w => I1 w /\ I2 w) m (fun _ w => I1 w /\ I2 w) I1.
Proof.
  intros H. eapply triple_consequence; [exact H | auto | auto |].
  now intros w [H1 _].
Qed.

Lemma open_run_flag : ignores_flag open_run.
Proof. intros w v [H1 H2]. split; [intros l Hl; exact (H1 l Hl) | exact H2]. Qed.

Lemma read_flag_last_flag (P : World -> Prop) :
  ignores_flag P ->
  triple P GetHolders.read_flag
    (fun stop w => P w /\ last_flag w = Some stop) P.
Proof.
  intros HP w H. unfold GetHolders.read_flag. split; [| reflexivity].
  now apply HP.
Qed.

(** The loop never stores the contract as completed, and it ends in one of
    the three ways of [loop_exit]. *)
Lemma page_loop_exit (fuel : nat) : forall (l : GetHolders.Locals),
  triple open_run (GetHolders.page_loop fuel c limit existing l)
    (fun l' w => open_run w /\ loop_exit l' w) open_run.
Proof.
  induction fuel as [| fuel IH]; intros l; cbn [GetHolders.page_loop];
    [intros w H; exact I |].
  eapply triple_bind;
    [apply (read_flag_last_flag open_run open_run_flag) | intros stop].
  destruct stop.
  { apply triple_ret. intros w [H1 H2]. split; [exact H1 | now left]. }
  eapply triple_consequence with (P := open_run)
    (Q := fun l' w => open_run w /\ loop_exit l' w) (R := open_run);
    [| now intros w [H _] | auto | auto].
  eapply triple_bind; [apply keeps_log | intros ?].
  eapply triple_bind;
    [apply (make_async_request_answered open_run open_run_quiet
              open_run_requests)
    | intros response].
  assert (triple (fun w => open_run w /\ answered response w)
            (log ;;;
             progress <- GetHolders.save_progress (Contract.address c)
                           (GetHolders.l_current_page l) JNull GetHolders.FAILED
                           (JStr (error_msg_of response)) ;;
             ret (GetHolders.mkLocals (GetHolders.l_all_holders l)
                    (GetHolders.l_current_page l) (Some response)
                    (Some progress)))
            (fun l' w => failed response = true ->
                         open_run w /\ loop_exit l' w)
            open_run) as Hfail.
  { eapply triple_bind; [apply triple_log | intros ?].
    eapply triple_bind;
      [apply triple_drop_raise, save_progress_keeps_open_run
      | intros progress].
    apply triple_ret. intros w [H1 H2] E.
    split; [exact H1 |]. right. exists response. cbn. auto. }
  destruct response as [r |].
  - destruct (negb (ApiResponse.is_success r)) eqn:E.
    + eapply triple_consequence; [exact Hfail | auto | | auto].
      intros l' w H. apply H. exact E.
    + eapply triple_bind;
        [apply triple_drop_raise, save_progress_keeps_open_run
        | intros progress].
      eapply triple_bind with
        (Q := fun _ w => open_run w /\ answered (Some r) w).
      * apply triple_drop_raise.
        destruct (GetHolders.l_all_holders l ++ data_of r)%list;
          [apply keeps_ret | apply save_intermediate_holders_keeps_open_run].
      * intros ?. destruct (negb (ApiResponse.has_next_page r)) eqn:En.
        -- apply triple_ret. intros w [H1 H2]. split; [exact H1 |].
           right. exists (Some r). cbn. repeat split; [exact H2 |].
           right. exists r. split; [reflexivity |].
           now destruct (ApiResponse.has_next_page r).
        -- eapply triple_consequence; [apply IH | | auto | auto].
           now intros w [H _].
  - eapply triple_consequence; [exact Hfail | auto | | auto].
    intros l' w H. now apply H.
Qed.

Lemma save_intermediate_holders_keeps_the_run_open (new_holders : list Item) :
  keeps open_run
    (GetHolders._save_intermediate_holders c new_holders existing
       GetHolders.IN_PROGRESS).
Proof.
  apply keeps_and; [apply save_intermediate_holders_keeps_open |].
  apply frame_get_holders_save_intermediate_holders;
    [apply flag_stays_set_quiet | intros w v H; exact H].
Qed.

(** The read of the flag after the loop: when it is not set, the loop
    ended by a [break]. *)
Lemma read_flag_after_loop (l : GetHolders.Locals) :
  triple (fun w => open_run w /\ loop_exit l w) GetHolders.read_flag
    (fun interrupted w =>
       if interrupted then open_run w
       else exists response,
              (open_run w /\ last_flag w = Some false
               /\ answered response w)
              /\ (GetHolders.l_response l = Some response
                  /\ (failed response = true
                      \/ exists r, response = Some r
                                   /\ ApiResponse.has_next_page r = false)))
    (fun _ => True).
Proof.
  intros w [H1 H2]. unfold GetHolders.read_flag. cbv beta iota.
  pose proof (open_run_flag w (S (flag_reads w)) H1) as H1'.
  destruct (is_interrupted w (flag_reads w)) eqn:E; [exact H1' |].
  destruct H2 as [Hflag | (response & Hl & Hans & Hcase)].
  - exfalso. unfold last_flag in Hflag.
    destruct (flag_reads w) as [| n]; [discriminate Hflag |].
    injection Hflag as Hflag. apply (proj2 H1) in Hflag. congruence.
  - exists response.
    split; [split; [exact H1' | split; [| exact Hans]] | auto].
    unfold last_flag. cbn [flag_reads with_flag_reads is_interrupted].
    now rewrite E.
Qed.

Lemma last_flag_quiet (b : option bool) : quiet (fun w => last_flag w = b).
Proof. intros w H. repeat apply conj; intros v; exact H. Qed.

Lemma last_flag_records (b : option bool) :
  ignores_records (fun w => last_flag w = b).
Proof. intros w v H. exact H. Qed.

End GetHoldersRun.

Section GetHoldersOutcome.

Variable c : Contract.t.
Variable limit : Z.

(** A run of [get_holders.py] on a contract whose stored record is not
    completed leaves it so, unless the crawl reached the last page. *)
Lemma run_outcome (fuel : nat) :
  triple (open_run (Contract.address c))
    (GetHolders._get_holders_async fuel c limit)
    (fun _ w => open_run (Contract.address c) w \/ clean_finish w)
    (fun _ => True).
Proof.
  unfold GetHolders._get_holders_async.
  apply keeps_then;
    [apply frame_get_processed_contract, open_run_quiet | intros pc].
  match goal with
  | |- triple _ (match ?x with Some _ => _ | None => _ end) _ _ =>
      destruct x as [existing |]
  end.
  2: { apply keeps_then; [apply keeps_log | intros ?].
       apply triple_ret. auto. }
  apply keeps_then;
    [apply frame_get_parsing_progress | intros progress].
  cbv zeta.
  eapply triple_bind;
    [apply triple_any_raise with (R := open_run (Contract.address c)),
       (page_loop_exit c limit existing fuel)
    | intros l].
  eapply triple_bind; [apply (read_flag_after_loop c l) | intros interrupted].
  assert (triple (open_run (Contract.address c))
            (log ;;;
             _ <- GetHolders.save_progress (Contract.address c)
                    (GetHolders.l_current_page l)
                    (match GetHolders.l_progress l with
                     | Some p => ParsingProgress.total_pages p
                     | None => JNull
                     end)
                    GetHolders.IN_PROGRESS JNull ;;
             (match GetHolders.l_all_holders l with
              | [] => ret tt
              | _ => GetHolders._save_intermediate_holders c
                       (GetHolders.l_all_holders l) existing
                       GetHolders.IN_PROGRESS
              end) ;;;
             ret (GetHolders.l_all_holders l))
            (fun _ w => open_run (Contract.address c) w \/ clean_finish w)
            (fun _ => True)) as Hunfinished.
  { apply keeps_then; [apply keeps_log | intros ?].
    apply keeps_then;
      [apply frame_get_holders_save_progress, open_run_quiet | intros ?].
    apply keeps_then; [| intros ?; apply triple_ret; auto].
    destruct (GetHolders.l_all_holders l);
      [apply keeps_ret | apply save_intermediate_holders_keeps_the_run_open]. }
  destruct interrupted; [apply triple_bind_ret; exact Hunfinished |].
  apply triple_exists. intros response. apply triple_fact.
  intros [Hl Hcase]. rewrite Hl. apply triple_bind_ret.
  destruct (failed response) eqn:E.
  { eapply triple_consequence; [exact Hunfinished | | auto | auto].
    now intros w [H _]. }
  destruct Hcase as [Hcase | (r & -> & Hnext)]; [discriminate Hcase |].
  eapply triple_consequence with
    (P := fun w => last_flag w = Some false /\ answered (Some r) w)
    (Q := fun _ w => last_flag w = Some false /\ answered (Some r) w)
    (R := fun _ => True); [| now intros w [_ H] | | auto].
  - eapply triple_bind with
      (Q := fun _ w => last_flag w = Some false /\ answered (Some r) w);
      [| intros ?; apply triple_ret; auto].
    apply triple_any_raise with
      (R := fun w => last_flag w = Some false /\ answered (Some r) w).
    assert (keeps (fun w => last_flag w = Some false /\ answered (Some r) w)
              (GetHolders._save_intermediate_holders c
                 (GetHolders.l_all_holders l) existing GetHolders.COMPLETED))
      as Hsave.
    { apply keeps_and; apply frame_get_holders_save_intermediate_holders;
        [apply last_flag_quiet | apply last_flag_records
        | apply answered_quiet | apply answered_records]. }
    destruct (GetHolders.l_all_holders l); [destruct existing |];
      [intros w H; exact H | exact Hsave | exact Hsave].
  - intros _ w [Hflag Hans]. right. split; [exact Hflag |].
    exists r. repeat split; [now apply Hans | | exact Hnext].
    cbn in E. now destruct (ApiResponse.is_success r).
Qed.

End GetHoldersOutcome.

(** X25.  A run of [_get_holders_async] of [get_holders.py] on a contract
    that is not yet stored as completed stores it as completed only when the
    crawl reached the last page, that is, when the flag was not set at its
    last read and the last request sent was answered with a success that
    names no next page. *)
Theorem get_holders_completes_only_clean_crawls
  (fuel : nat) (c : Contract.t) (limit : Z) (w w' : World) (res : list Item) :
  flag_stays_set w ->
  store_open (Contract.address c) w ->
  GetHolders._get_holders_async fuel c limit w = Ok res w' ->
  option_map ProcessedContract.status (stored (Contract.address c) w')
  = Some (ParsingStatus.Db DbParsingStatus.COMPLETED) ->
  clean_finish w'.
Proof.
  intros Hflag Hopen Hrun Hdone.
  apply (store_satisfies_iff not_completed not_completed_ext) in Hopen.
  pose proof (run_outcome c limit fuel w (conj Hopen Hflag)) as H.
  rewrite Hrun in H. destruct H as [[H _] | H]; [exfalso | exact H].
  apply (store_satisfies_iff not_completed not_completed_ext) in H.
  destruct (stored (Contract.address c) w') as [pc |] eqn:E;
    [| discriminate Hdone].
  injection Hdone as Hdone. exact (H pc E Hdone).
Qed.

Lemma get_holders_completes_only_clean_crawls_witness :
  exists w,
    GetHolders._get_holders_async 2 Sample.the_contract 100
      (Sample.fresh (fun _ => 1000) Sample.healthy Sample.never)
    = Ok [ItemStr "0x1"; ItemStr "0x2"; ItemStr "0x3"] w
    /\ clean_finish w.
Proof.
  eexists. split; [vm_compute; reflexivity |].
  apply (get_holders_completes_only_clean_crawls 2 Sample.the_contract 100
           (Sample.fresh (fun _ => 1000) Sample.healthy Sample.never)
           _ [ItemStr "0x1"; ItemStr "0x2"; ItemStr "0x3"]).
  - intros n H. discriminate H.
  - intros pc H. vm_compute in H. discriminate H.
  - vm_compute; reflexivity.
  - vm_compute; reflexivity.
Defined.

(* ================================================================== *)
(** * Runs of the two engines *)
(* ================================================================== *)

(** C1.  [token_holders_service.py], fresh store: page 1 is fetched, page 2
    fails with HTTP 500.  The loop ends by the error, the progress record
    says [failed] at page 2, and the snapshot written after the loop tags
    the stored contract as [completed]. *)
Theorem service_completes_a_failed_crawl (fuel : nat) :
  exists w,
    TokenHoldersService._get_holders_async (2 + fuel) Sample.the_contract 100
      (Sample.fresh (fun _ => 1000) Sample.fails_after_page_1 Sample.never)
    = Ok [ItemStr "0x1"; ItemStr "0x2"] w
    /\ map req_page (sent w) = ["1"; "2"]
    /\ option_map ProcessedContract.status (stored "0xABC" w)
       = Some (ParsingStatus.Db DbParsingStatus.COMPLETED)
    /\ option_map ParsingProgress.status (stored_progress "0xABC" w)
       = Some (ParsingStatus.Db DbParsingStatus.FAILED).
Proof.
  eexists. split; [vm_compute; reflexivity |].
  repeat split; vm_compute; reflexivity.
Qed.

(** The same run of [get_holders.py] leaves the stored contract and the
    progress record [in_progress]. *)
Example get_holders_keeps_a_failed_crawl_open (fuel : nat) :
  exists w,
    GetHolders._get_holders_async (2 + fuel) Sample.the_contract 100
      (Sample.fresh (fun _ => 1000) Sample.fails_after_page_1 Sample.never)
    = Ok [ItemStr "0x1"; ItemStr "0x2"] w
    /\ option_map ProcessedContract.status (stored "0xABC" w)
       = Some (ParsingStatus.Db DbParsingStatus.IN_PROGRESS)
    /\ option_map ParsingProgress.status (stored_progress "0xABC" w)
       = Some (ParsingStatus.Db DbParsingStatus.IN_PROGRESS).
Proof.
  eexists. split; [vm_compute; reflexivity |].
  repeat split; vm_compute; reflexivity.
Qed.

(** C3.  [token_holders_service.py], with a stored progress record
    [in_progress] at page 5: the first and only request is for page 1.
    The holder [0x1], stored before the run, is stored once after it. *)
Theorem service_restarts_at_page_1 (fuel : nat) :
  option_map (fun p => (ParsingProgress.status p, ParsingProgress.current_page p))
    (stored_progress "0xABC" (Sample.interrupted_crawl Sample.healthy))
  = Some (ParsingStatus.Db DbParsingStatus.IN_PROGRESS, JInt 5)
  /\ exists w,
       TokenHoldersService._get_holders_async (2 + fuel) Sample.the_contract 100
         (Sample.interrupted_crawl Sample.healthy)
       = Ok [ItemStr "0x1"; ItemStr "0x2"; ItemStr "0x3"] w
       /\ map req_page (sent w) = ["1"; "2"]
       /\ option_map (fun c => map TokenHolder.address (ProcessedContract.holders c))
            (stored "0xABC" w)
          = Some ["0x1"; "0x2"; "0x3"].
Proof.
  split; [vm_compute; reflexivity |].
  eexists. split; [vm_compute; reflexivity |].
  repeat split; vm_compute; reflexivity.
Qed.

(** [get_holders.py] resumes the same crawl at page 5. *)
Example get_holders_resumes_at_page_5 (fuel : nat) :
  exists w,
    GetHolders._get_holders_async (1 + fuel) Sample.the_contract 100
      (Sample.interrupted_crawl Sample.healthy)
    = Ok [] w
    /\ map req_page (sent w) = ["5"].
Proof.
  eexists. split; [vm_compute; reflexivity |].
  vm_compute; reflexivity.
Qed.

(** C4.  [token_holders_service.py], fresh store and a healthy server: the
    first run fetches both pages and stores the contract as [completed].
    The progress record is still there, and a second run sends the two
    requests again and returns the three holders again. *)
Theorem service_ignores_completion (fuel : nat) :
  exists w1 w2,
    TokenHoldersService._get_holders_async (2 + fuel) Sample.the_contract 100
      (Sample.fresh (fun _ => 1000) Sample.healthy Sample.never)
    = Ok [ItemStr "0x1"; ItemStr "0x2"; ItemStr "0x3"] w1
    /\ option_map ProcessedContract.status (stored "0xABC" w1)
       = Some (ParsingStatus.Db DbParsingStatus.COMPLETED)
    /\ option_map ParsingProgress.status (stored_progress "0xABC" w1)
       = Some (ParsingStatus.Db DbParsingStatus.IN_PROGRESS)
    /\ TokenHoldersService._get_holders_async (2 + fuel) Sample.the_contract 100 w1
       = Ok [ItemStr "0x1"; ItemStr "0x2"; ItemStr "0x3"] w2
    /\ map req_page (sent w1) = ["1"; "2"]
    /\ map req_page (sent w2) = ["1"; "2"; "1"; "2"].
Proof.
  eexists. eexists. split; [vm_compute; reflexivity |].
  repeat split; vm_compute; reflexivity.
Qed.

(** The same two runs of [get_holders.py]: the progress record is removed
    on completion, and the second run sends nothing and returns nothing. *)
Example get_holders_honours_completion (fuel : nat) :
  exists w1 w2,
    GetHolders._get_holders_async (2 + fuel) Sample.the_contract 100
      (Sample.fresh (fun _ => 1000) Sample.healthy Sample.never)
    = Ok [ItemStr "0x1"; ItemStr "0x2"; ItemStr "0x3"] w1
    /\ option_map ProcessedContract.status (stored "0xABC" w1)
       = Some (ParsingStatus.Db DbParsingStatus.COMPLETED)
    /\ stored_progress "0xABC" w1 = None
    /\ GetHolders._get_holders_async (2 + fuel) Sample.the_contract 100 w1
       = Ok [] w2
    /\ sent w2 = sent w1.
Proof.
  eexists. eexists. split; [vm_compute; reflexivity |].
  repeat split; vm_compute; reflexivity.
Qed.

(* ================================================================== *)
(** * More of the checkpoint store: progress records *)
(* ================================================================== *)

Section ProgressRecords.

Import DBManager.

Local Arguments DateTime.isoformat : simpl never.
Local Arguments DateTime.fromisoformat : simpl never.

Lemma lookup_set_other (k k' : string) (v : json) (d : dict) :
  String.eqb k k' = false -> Py.lookup k (Py.set k' v d) = Py.lookup k d.
Proof.
  intros Hk. induction d as [| [k0 v0] d IH]; simpl.
  - now rewrite Hk.
  - destruct (String.eqb k' k0) eqn:E; simpl.
    + apply String.eqb_eq in E. subst k0. now rewrite Hk.
    + destruct (String.eqb k k0); [reflexivity | exact IH].
Qed.

Lemma lookup_del_other (k k' : string) (d : dict) :
  String.eqb k k' = false -> Py.lookup k (Py.del k' d) = Py.lookup k d.
Proof.
  intros Hk. induction d as [| [k0 v0] d IH]; simpl; [reflexivity |].
  destruct (String.eqb k' k0) eqn:E; simpl.
  - apply String.eqb_eq in E. subst k0. now rewrite Hk.
  - destruct (String.eqb k k0); [reflexivity | exact IH].
Qed.

Lemma lookup_del_same (k : string) (d : dict) :
  distinct_keys d = true -> Py.lookup k (Py.del k d) = None.
Proof.
  induction d as [| [k0 v0] d IH]; simpl; [reflexivity |].
  intros H. apply andb_prop in H. destruct H as [Hk Hd].
  destruct (String.eqb k k0) eqn:E; simpl.
  - apply String.eqb_eq in E. subst k0. unfold Py.mem in Hk.
    now destruct (Py.lookup k d).
  - rewrite E. now apply IH.
Qed.

(** The progress dictionary after the file was written. *)
Lemma progress_dict_written (data x : dict) (w : World) :
  progress_dict
    (with_parsing_progress_file
       (Some (JDict (Py.set "progress" (JDict x) data))) w)
  = Some (Py.set "progress" (JDict x) data, x).
Proof.
  unfold progress_dict. cbn [parsing_progress_file with_parsing_progress_file].
  now rewrite lookup_set_same.
Qed.

Lemma load_progress (w : World) :
  _load_json parsing_progress w
  = Ok (match parsing_progress_file w with
        | Some (JDict d) => d
        | _ => _get_default_data parsing_progress
        end) w.
Proof.
  unfold _load_json. cbn [read].
  now destruct (parsing_progress_file w) as [[| | | | |] |].
Qed.

(** What the three progress functions and [get_unfinished_contracts] come
    to. *)
Lemma save_parsing_progress_spec (p : ParsingProgress.t) (address : string)
  (w : World) :
  ParsingProgress.contract_address p = JStr address ->
  save_parsing_progress p w
  = Ok tt
      (match progress_dict w with
       | Some (data, pr) =>
           if disk_writable w
           then with_parsing_progress_file
                  (Some (JDict
                     (Py.set "progress"
                        (JDict (Py.set address (ParsingProgress.to_dict p) pr))
                        data))) w
           else failed_write parsing_progress w
       | None => w
       end).
Proof.
  intros Ha. unfold save_parsing_progress, try_except, bind.
  rewrite load_progress. unfold progress_dict.
  destruct (Py.lookup "progress" _) as [[| | | | | pr] |]; try reflexivity.
  rewrite Ha. cbn [Py.json_key]. rewrite _save_json_returns.
  now destruct (disk_writable w).
Qed.

Lemma remove_parsing_progress_spec (address : string) (w : World) :
  remove_parsing_progress address w
  = Ok tt
      (match progress_dict w with
       | Some (data, pr) =>
           if Py.mem address pr
           then if disk_writable w
                then with_parsing_progress_file
                       (Some (JDict
                          (Py.set "progress" (JDict (Py.del address pr)) data)))
                       w
                else failed_write parsing_progress w
           else w
       | None => w
       end).
Proof.
  unfold remove_parsing_progress, try_except, bind.
  rewrite load_progress. unfold progress_dict.
  destruct (Py.lookup "progress" _) as [[| | | | | pr] |]; try reflexivity.
  destruct (Py.mem address pr); [| reflexivity].
  rewrite _save_json_returns. now destruct (disk_writable w).
Qed.

Lemma stored_progress_spec (address : string) (w : World) :
  stored_progress address w
  = match progress_dict w with
    | Some (_, pr) =>
        match Py.lookup address pr with
        | Some pd => if Py.truthy pd then ParsingProgress.from_dict pd else None
        | None => None
        end
    | None => None
    end.
Proof.
  unfold stored_progress, get_parsing_progress, try_except, bind.
  rewrite load_progress. unfold progress_dict, progress_data.
  destruct (Py.lookup "progress" _) as [[| | | | | pr] |]; try reflexivity.
  destruct (Py.lookup address pr) as [pd |]; [| reflexivity].
  destruct (Py.truthy pd); [| reflexivity].
  now destruct (ParsingProgress.from_dict pd).
Qed.

Lemma get_unfinished_contracts_spec (w : World) :
  get_unfinished_contracts w
  = Ok (match progress_dict w with
        | Some (_, pr) =>
            match unfinished_of pr with Some l => l | None => [] end
        | None => []
        end) w.
Proof.
  unfold get_unfinished_contracts, try_except, bind.
  rewrite load_progress. unfold progress_dict.
  destruct (Py.lookup "progress" _) as [[| | | | | pr] |]; try reflexivity.
  now destruct (unfinished_of pr).
Qed.

(** A record that [to_dict] wrote is read back with the status of
    [db_manager.py] that has the same value, when there is one. *)
Lemma progress_read_back (p : ParsingProgress.t) :
  Py.truthy (ParsingProgress.to_dict p) = true
  /\ ParsingProgress.from_dict (ParsingProgress.to_dict p)
     = option_map
         (fun s =>
            ParsingProgress.mk (ParsingProgress.contract_address p)
              (ParsingProgress.current_page p) (ParsingProgress.total_pages p)
              (ParsingProgress.last_processed_at p) (ParsingStatus.Db s)
              (ParsingProgress.error_message p))
         (DbParsingStatus.of_value
            (JStr (ParsingStatus.value (ParsingProgress.status p)))).
Proof.
  destruct p as [ca cp tp at_ st em]. split; [reflexivity |].
  unfold ParsingProgress.to_dict, ParsingProgress.from_dict.
  cbn [ParsingProgress.contract_address ParsingProgress.current_page
       ParsingProgress.total_pages ParsingProgress.last_processed_at
       ParsingProgress.status ParsingProgress.error_message
       Py.get Py.get_default Py.lookup String.eqb Ascii.eqb Bool.eqb].
  rewrite DateTimeFacts.fromisoformat_isoformat.
  now destruct (DbParsingStatus.of_value _).
Qed.

(** The listing after a record was put into the dictionary. *)
Lemma unfinished_of_set (address : string) (v : json) (pr : dict) :
  unfinished v = Some true ->
  forall l, unfinished_of pr = Some l ->
  exists l', unfinished_of (Py.set address v pr) = Some l' /\ In address l'.
Proof.
  intros Hv. induction pr as [| [k x] pr IH]; intros l Hl.
  - cbn [Py.set unfinished_of]. rewrite Hv. cbn [option_map].
    eexists. split; [reflexivity | now left].
  - cbn [unfinished_of] in Hl.
    destruct (unfinished x) as [keep |] eqn:Ex; [| discriminate].
    destruct (unfinished_of pr) as [l0 |] eqn:El0; [| discriminate].
    cbn [Py.set]. destruct (String.eqb address k) eqn:E.
    + apply String.eqb_eq in E. subst k.
      cbn [unfinished_of]. rewrite Hv, El0. cbn [option_map].
      eexists. split; [reflexivity | now left].
    + destruct (IH l0 eq_refl) as (l' & El' & Hin).
      cbn [unfinished_of]. rewrite Ex, El'. cbn [option_map].
      eexists. split; [reflexivity |].
      destruct keep; [now right | exact Hin].
Qed.

(** The addresses listed are keys of the dictionary. *)
Lemma unfinished_of_keys (pr : dict) : forall l a,
  unfinished_of pr = Some l -> In a l ->
  exists pd, Py.lookup a pr = Some pd.
Proof.
  induction pr as [| [k x] pr IH]; intros l a Hl Hin.
  - injection Hl as <-. destruct Hin.
  - cbn [unfinished_of] in Hl.
    destruct (unfinished x) as [keep |]; [| discriminate].
    destruct (unfinished_of pr) as [l0 |]; [| discriminate].
    cbn [option_map] in Hl. injection Hl as <-.
    cbn [Py.lookup]. destruct (String.eqb a k) eqn:E; [eexists; reflexivity |].
    apply (IH l0 a eq_refl).
    destruct keep; [| exact Hin].
    destruct Hin as [<- | Hin]; [| exact Hin].
    now rewrite String.eqb_refl in E.
Qed.

End ProgressRecords.

(** X1.  A progress record saved for an address is what
    [get_parsing_progress] returns for it afterwards, field by field,
    except that the status is read as the member of
    [db_manager.ParsingStatus] with the same value; a record saved with a
    status whose value that enumeration does not have ([pending],
    [rate_limited] of [models.py]) is not returned at all. *)
Theorem saved_progress_is_read_back
  (w : World) (p : ParsingProgress.t) (address : string) :
  progress_ready w = true ->
  disk_writable w = true ->
  ParsingProgress.contract_address p = JStr address ->
  exists w',
    DBManager.save_parsing_progress p w = Ok tt w'
    /\ DBManager.get_parsing_progress address w'
       = Ok (option_map
               (fun s =>
                  ParsingProgress.mk (JStr address)
                    (ParsingProgress.current_page p)
                    (ParsingProgress.total_pages p)
                    (ParsingProgress.last_processed_at p) (ParsingStatus.Db s)
                    (ParsingProgress.error_message p))
               (DbParsingStatus.of_value
                  (JStr (ParsingStatus.value (ParsingProgress.status p)))))
            w'.
Proof.
  intros Hr Hw Ha. unfold progress_ready in Hr.
  destruct (progress_dict w) as [[data pr] |] eqn:Hd; [| discriminate].
  eexists. split.
  - rewrite (save_parsing_progress_spec p address w Ha), Hd, Hw. reflexivity.
  - rewrite get_parsing_progress_returns. f_equal.
    rewrite stored_progress_spec, progress_dict_written, lookup_set_same.
    destruct (progress_read_back p) as [-> ->]. now rewrite Ha.
Qed.

Lemma saved_progress_is_read_back_witness :
  exists w',
    DBManager.save_parsing_progress
      (ParsingProgress.mk (JStr "0xABC") (JInt 3) JNull Sample.t1
         (ParsingStatus.Models ModelsParsingStatus.FAILED) (JStr "boom"))
      Sample.quiet = Ok tt w'
    /\ DBManager.get_parsing_progress "0xABC" w'
       = Ok (Some (ParsingProgress.mk (JStr "0xABC") (JInt 3) JNull Sample.t1
                     (ParsingStatus.Db DbParsingStatus.FAILED) (JStr "boom")))
            w'.
Proof.
  apply (saved_progress_is_read_back Sample.quiet
           (ParsingProgress.mk (JStr "0xABC") (JInt 3) JNull Sample.t1
              (ParsingStatus.Models ModelsParsingStatus.FAILED) (JStr "boom"))
           "0xABC"); reflexivity.
Defined.

(** X2.  On a disk that can be written, saving or removing the progress
    record of one address leaves the progress record of every other address
    as it was, whatever the file holds. *)
Theorem progress_of_other_contracts_is_kept
  (w : World) (p : ParsingProgress.t) (address other : string) :
  disk_writable w = true ->
  ParsingProgress.contract_address p = JStr address ->
  String.eqb other address = false ->
  (exists w', DBManager.save_parsing_progress p w = Ok tt w'
              /\ stored_progress other w' = stored_progress other w)
  /\ (exists w', DBManager.remove_parsing_progress address w = Ok tt w'
                 /\ stored_progress other w' = stored_progress other w).
Proof.
  intros Hw Ha Hne. split; eexists; (split; [| rewrite !stored_progress_spec]).
  - apply (save_parsing_progress_spec p address w Ha).
  - destruct (progress_dict w) as [[data pr] |] eqn:Hd; [| now rewrite ?Hd].
    rewrite Hw. now rewrite progress_dict_written, lookup_set_other.
  - apply remove_parsing_progress_spec.
  - destruct (progress_dict w) as [[data pr] |] eqn:Hd; [| now rewrite ?Hd].
    rewrite Hw. destruct (Py.mem address pr); [| now rewrite Hd].
    now rewrite progress_dict_written, lookup_del_other.
Qed.

Lemma progress_of_other_contracts_is_kept_witness :
  (exists w',
     DBManager.save_parsing_progress
       (ParsingProgress.mk (JStr "0xDEF") (JInt 1) JNull Sample.t0
          (ParsingStatus.Db DbParsingStatus.FAILED) JNull)
       Sample.with_unreadable_status = Ok tt w'
     /\ stored_progress "0xABC" w'
        = stored_progress "0xABC" Sample.with_unreadable_status)
  /\ (exists w',
        DBManager.remove_parsing_progress "0xDEF"
          Sample.with_unreadable_status = Ok tt w'
        /\ stored_progress "0xABC" w'
           = stored_progress "0xABC" Sample.with_unreadable_status).
Proof.
  apply (progress_of_other_contracts_is_kept
           Sample.with_unreadable_status
           (ParsingProgress.mk (JStr "0xDEF") (JInt 1) JNull Sample.t0
              (ParsingStatus.Db DbParsingStatus.FAILED) JNull)
           "0xDEF" "0xABC"); reflexivity.
Defined.

(** X3.  After [remove_parsing_progress] on a writable disk the address
    has no progress record any more, and [get_unfinished_contracts] does
    not list it. *)
Theorem removed_progress_is_gone
  (w : World) (data pr : dict) (address : string) :
  progress_dict w = Some (data, pr) ->
  distinct_keys pr = true ->
  disk_writable w = true ->
  exists w',
    DBManager.remove_parsing_progress address w = Ok tt w'
    /\ DBManager.get_parsing_progress address w' = Ok None w'
    /\ ~ In address (listed_unfinished w').
Proof.
  intros Hd Hk Hw. eexists. split; [apply remove_parsing_progress_spec |].
  rewrite Hd, Hw.
  assert (match (if Py.mem address pr
                 then Some (Py.del address pr) else Some pr) with
          | Some pr' => Py.lookup address pr' = None
          | None => True
          end) as Hgone.
  { destruct (Py.mem address pr) eqn:Em; [now apply lookup_del_same |].
    unfold Py.mem in Em. now destruct (Py.lookup address pr). }
  split.
  - rewrite get_parsing_progress_returns. f_equal.
    rewrite stored_progress_spec.
    destruct (Py.mem address pr).
    + now rewrite progress_dict_written, Hgone.
    + now rewrite Hd, Hgone.
  - unfold listed_unfinished. rewrite get_unfinished_contracts_spec.
    intros Hin.
    destruct (Py.mem address pr).
    + rewrite progress_dict_written in Hin.
      destruct (DBManager.unfinished_of (Py.del address pr)) as [l |] eqn:El;
        [| destruct Hin].
      destruct (unfinished_of_keys _ l address El Hin) as [pd Hpd]. congruence.
    + rewrite Hd in Hin.
      destruct (DBManager.unfinished_of pr) as [l |] eqn:El; [| destruct Hin].
      destruct (unfinished_of_keys _ l address El Hin) as [pd Hpd]. congruence.
Qed.

Lemma removed_progress_is_gone_witness :
  exists w',
    DBManager.remove_parsing_progress "0xABC"
      (Sample.interrupted_crawl Sample.healthy) = Ok tt w'
    /\ DBManager.get_parsing_progress "0xABC" w' = Ok None w'
    /\ ~ In "0xABC" (listed_unfinished w').
Proof.
  eapply (removed_progress_is_gone (Sample.interrupted_crawl Sample.healthy));
    reflexivity.
Defined.

(** X4.  After a progress record with status [in_progress] or [failed] is
    saved for an address, [get_unfinished_contracts] lists the address,
    provided no record of the file has a status the store does not
    know. *)
Theorem saved_failure_is_listed_as_unfinished
  (w : World) (data pr : dict) (p : ParsingProgress.t) (address : string) :
  progress_dict w = Some (data, pr) ->
  statuses_readable pr = true ->
  disk_writable w = true ->
  ParsingProgress.contract_address p = JStr address ->
  DBManager.unfinished (ParsingProgress.to_dict p) = Some true ->
  exists w' l,
    DBManager.save_parsing_progress p w = Ok tt w'
    /\ DBManager.get_unfinished_contracts w' = Ok l w'
    /\ In address l.
Proof.
  intros Hd Hr Hw Ha Hp. unfold statuses_readable in Hr.
  destruct (DBManager.unfinished_of pr) as [l0 |] eqn:El0; [| discriminate].
  destruct (unfinished_of_set address _ pr Hp l0 El0) as (l & El & Hin).
  eexists. exists l. split; [apply (save_parsing_progress_spec p address w Ha) |].
  rewrite Hd, Hw. split; [| exact Hin].
  now rewrite get_unfinished_contracts_spec, progress_dict_written, El.
Qed.

Lemma saved_failure_is_listed_as_unfinished_witness :
  exists w' l,
    DBManager.save_parsing_progress
      (ParsingProgress.mk (JStr "0xDEF") (JInt 2) JNull Sample.t0
         (ParsingStatus.Models ModelsParsingStatus.FAILED) (JStr "boom"))
      (Sample.interrupted_crawl Sample.healthy) = Ok tt w'
    /\ DBManager.get_unfinished_contracts w' = Ok l w'
    /\ In "0xDEF" l.
Proof.
  eapply (saved_failure_is_listed_as_unfinished
            (Sample.interrupted_crawl Sample.healthy)); reflexivity.
Defined.

(* ================================================================== *)
(** * More of the checkpoint store: processed contracts *)
(* ================================================================== *)

Section ProcessedRecords.

Import DBManager.

Local Arguments DateTime.isoformat : simpl never.
Local Arguments DateTime.fromisoformat : simpl never.

Lemma stored_list_quiet (x : option (list json)) :
  quiet (fun w => stored_list w = x).
Proof. intros w H. repeat apply conj; intros v; exact H. Qed.

Lemma disk_flag_quiet (b : bool) : quiet (fun w => disk_writable w = b).
Proof. intros w H. repeat apply conj; intros v; exact H. Qed.

(** A record of one address is no record of another. *)
Lemma address_is_other (a b : string) (d : dict) :
  address_is a d = true -> String.eqb b a = false -> address_is b d = false.
Proof.
  unfold address_is.
  destruct (Py.lookup "address" d) as [[| | | s | |] |]; try discriminate.
  intros Hs Hb. apply String.eqb_eq in Hs. subst s.
  now rewrite String.eqb_sym.
Qed.

Lemma first_record_skips_to_dict (b : string) (x : ProcessedContract.t)
  (rest : list json) :
  String.eqb b (ProcessedContract.address x) = false ->
  first_record b (ProcessedContract.to_dict x :: rest) = first_record b rest.
Proof.
  intros Hb. pose proof (to_dict_is_record x) as H.
  unfold ProcessedContract.to_dict in *. cbn [is_record_of] in H.
  cbn [first_record]. now rewrite (address_is_other _ b _ H Hb).
Qed.

(** [upsert] leaves the records of the other addresses where they are. *)
Lemma upsert_other_records (c : ProcessedContract.t) (b : string)
  (l : list json) : forall (w w' : World) (l' : list json),
  String.eqb b (ProcessedContract.address c) = false ->
  upsert c l w = Ok l' w' ->
  first_record b l' = first_record b l.
Proof.
  induction l as [| e l IH]; intros w w' l' Hb H.
  - cbn [upsert] in H. injection H as <- <-.
    now rewrite first_record_skips_to_dict.
  - destruct e as [| | | | | d]; try discriminate.
    cbn [upsert] in H.
    destruct (address_is (ProcessedContract.address c) d) eqn:Ed.
    + assert (first_record b (JDict d :: l) = first_record b l) as ->.
      { cbn [first_record]. now rewrite (address_is_other _ b _ Ed Hb). }
      unfold bind at 1, from_dict in H.
      destruct (ProcessedContract.from_dict _ (JDict d)).
      * unfold bind, read_now, ret in H. injection H as <- <-.
        now rewrite first_record_skips_to_dict.
      * unfold ret in H. injection H as <- <-.
        now rewrite first_record_skips_to_dict.
    + unfold bind in H.
      destruct (upsert c l w) as [l1 w1 | |] eqn:E; try discriminate.
      unfold ret in H. injection H as <- <-.
      cbn [first_record]. destruct (address_is b d); [reflexivity |].
      exact (IH w w1 l1 Hb E).
Qed.

(** A [save_processed_contract] that returns on a disk that can be written
    has scanned the record list and has written the new list. *)
Lemma save_processed_contract_ok (c : ProcessedContract.t) (w w' : World) :
  disk_writable w = true ->
  save_processed_contract c w = Ok tt w' ->
  exists l l' w1,
    stored_list w = Some l
    /\ upsert c l w = Ok l' w1
    /\ stored_list w' = Some l'.
Proof.
  intros Hw H. unfold save_processed_contract in H. rewrite try_reraise in H.
  unfold bind at 1 in H.
  assert (exists data, _load_json processed_contracts w = Ok data w
                       /\ stored_list w
                          = match Py.get_default "contracts" (JList []) data with
                            | JList l => Some l
                            | _ => None
                            end) as (data & E & Hdata).
  { unfold _load_json, stored_list. cbn [read].
    destruct (processed_contracts_file w) as [[| | | | | d] |];
      eexists; split; reflexivity. }
  rewrite E in H.
  destruct (Py.get_default "contracts" (JList []) data) as [| | | | l |];
    try discriminate.
  unfold bind at 1 in H.
  pose proof (frame_upsert _ (stored_list_quiet (Some l)) c l w Hdata) as Hl1.
  pose proof (frame_upsert _ (disk_flag_quiet (disk_writable w)) c l w eq_refl)
    as Hw1.
  destruct (upsert c l w) as [l' w1 | |] eqn:Eup; try discriminate.
  exists l, l', w1. split; [exact Hdata |]. split; [exact Eup |].
  unfold bind at 1 in H. rewrite _save_json_returns in H.
  rewrite Hw1, Hw in H.
  assert (stored_list (write processed_contracts
                         (JDict [("contracts", JList l')]) w1)
          = Some l') as Hst by reflexivity.
  destruct (ParsingStatus.eqb _ _).
  - match goal with
    | H : remove_parsing_progress ?a ?w2 = _ |- _ =>
        destruct (remove_parsing_progress_returns a w2) as (v & Er & _);
        rewrite Er in H
    end.
    injection H as <-. exact Hst.
  - unfold ret in H. injection H as <-. exact Hst.
Qed.

(** When the stored record of the address can be read, [upsert] puts the
    merged record in its place. *)
Lemma upsert_merges (c : ProcessedContract.t) (old : ProcessedContract.t)
  (e : json) (l : list json) : forall (w : World),
  first_record (ProcessedContract.address c) l = Some (Some e) ->
  ProcessedContract.from_dict (datetime_now w (clock_reads w)) e = Some old ->
  exists now l' w1,
    upsert c l w = Ok l' w1
    /\ first_record (ProcessedContract.address c) l'
       = Some (Some (ProcessedContract.to_dict
                       (ProcessedContract.mk (ProcessedContract.address c)
                          (ProcessedContract.chain c) now
                          (Z.of_nat
                             (List.length
                                (merge_holders (ProcessedContract.holders old)
                                   (ProcessedContract.holders c))))
                          (merge_holders (ProcessedContract.holders old)
                             (ProcessedContract.holders c))
                          (ProcessedContract.status c)))).
Proof.
  induction l as [| x l IH]; intros w Hf Hold; [discriminate |].
  destruct x as [| | | | | d]; try discriminate.
  cbn [first_record] in Hf. cbn [upsert].
  destruct (address_is (ProcessedContract.address c) d) eqn:Ed.
  - injection Hf as <-. unfold bind at 1, from_dict. rewrite Hold.
    unfold bind, read_now, ret. eexists. eexists. eexists.
    split; [reflexivity |]. now apply first_record_to_dict.
  - destruct (IH w Hf Hold) as (now & l' & w1 & E & Hl').
    unfold bind. rewrite E. unfold ret. exists now. eexists. eexists.
    split; [reflexivity |]. cbn [first_record]. now rewrite Ed.
Qed.

End ProcessedRecords.

(** X5.  On a disk that can be written, a [save_processed_contract] that
    returns leaves the first record of every other address in
    [processed_contracts.json] exactly as it was. *)
Theorem save_keeps_the_records_of_other_contracts
  (w w' : World) (c : ProcessedContract.t) (other : string) :
  disk_writable w = true ->
  String.eqb other (ProcessedContract.address c) = false ->
  DBManager.save_processed_contract c w = Ok tt w' ->
  stored_entry other w' = stored_entry other w.
Proof.
  intros Hw Hne H.
  destruct (save_processed_contract_ok c w w' Hw H)
    as (l & l' & w1 & Hl & Hup & Hl').
  unfold stored_entry. rewrite Hl, Hl'.
  exact (upsert_other_records c other l w w1 l' Hne Hup).
Qed.

Lemma save_keeps_the_records_of_other_contracts_witness :
  exists w',
    DBManager.save_processed_contract Sample.contract Sample.with_broken_record
    = Ok tt w'
    /\ stored_entry "0xDEF" w' = stored_entry "0xDEF" Sample.with_broken_record.
Proof.
  eexists. split; [vm_compute; reflexivity |].
  apply (save_keeps_the_records_of_other_contracts
           Sample.with_broken_record _ Sample.contract "0xDEF");
    [reflexivity | reflexivity | vm_compute; reflexivity].
Defined.

(** X6.  When the store holds a readable record for the address,
    [save_processed_contract] drops none of its holders: the record stored
    afterwards has the stored holders first, then the incoming holders
    whose address was not stored, and its count is the length of that
    list. *)
Theorem save_never_drops_a_stored_holder
  (w : World) (c old : ProcessedContract.t) (s : DbParsingStatus.t) :
  disk_writable w = true ->
  stored (ProcessedContract.address c) w = Some old ->
  DbParsingStatus.of_value (JStr (ParsingStatus.value (ProcessedContract.status c)))
  = Some s ->
  exists w' new,
    DBManager.save_processed_contract c w = Ok tt w'
    /\ stored (ProcessedContract.address c) w' = Some new
    /\ map TokenHolder.address (ProcessedContract.holders new)
       = map TokenHolder.address
           (DBManager.merge_holders (ProcessedContract.holders old)
              (ProcessedContract.holders c))
    /\ ProcessedContract.holders_count new
       = Z.of_nat (List.length (ProcessedContract.holders new))
    /\ ProcessedContract.status new = ParsingStatus.Db s.
Proof.
  intros Hw Hold Hs. rewrite stored_spec in Hold.
  destruct (stored_list w) as [l |] eqn:Hl; [| discriminate].
  destruct (first_record (ProcessedContract.address c) l) as [[e |] |] eqn:Hf;
    try discriminate.
  destruct (upsert_merges c old e l w Hf Hold) as (now & l' & w1 & Hup & Hl').
  assert (exists w', DBManager.save_processed_contract c w = Ok tt w')
    as [w' Hsave].
  { unfold DBManager.save_processed_contract. rewrite try_reraise.
    destruct (load_record_list w l Hl) as (data & Hload & Hget).
    unfold bind at 1. rewrite Hload, Hget. unfold bind at 1. rewrite Hup.
    unfold bind at 1. rewrite _save_json_returns.
    destruct (ParsingStatus.eqb _ _); [| eexists; reflexivity].
    match goal with
    | |- context [DBManager.remove_parsing_progress ?a ?w2] =>
        destruct (remove_parsing_progress_returns a w2) as (v & -> & _)
    end.
    eexists; reflexivity. }
  destruct (save_processed_contract_ok c w w' Hw Hsave)
    as (l0 & l0' & w0 & Hl0 & Hup0 & Hst).
  rewrite Hl in Hl0. injection Hl0 as <-. rewrite Hup in Hup0.
  injection Hup0 as <- <-.
  exists w'. rewrite stored_spec, Hst, Hl'.
  match goal with
  | |- context [ProcessedContract.from_dict ?t (ProcessedContract.to_dict ?x)] =>
      destruct (contract_read_back_status t x s Hs) as (new & Hnew & Hstatus);
      destruct (contract_read_back t x new Hnew) as (Ha & Hn & _)
  end.
  exists new. split; [exact Hsave |]. split; [exact Hnew |].
  cbn [ProcessedContract.holders ProcessedContract.holders_count] in Ha, Hn.
  split; [exact Ha |]. split; [| exact Hstatus].
  rewrite Hn. rewrite <- (length_map TokenHolder.address).
  rewrite <- (length_map TokenHolder.address (ProcessedContract.holders new)).
  now rewrite Ha.
Qed.

Lemma save_never_drops_a_stored_holder_witness :
  exists w' new,
    DBManager.save_processed_contract Sample.contract'
      (Sample.interrupted_crawl Sample.healthy) = Ok tt w'
    /\ stored "0xABC" w' = Some new
    /\ map TokenHolder.address (ProcessedContract.holders new)
       = ["0x1"; "0x2"; "0x3"]
    /\ ProcessedContract.holders_count new
       = Z.of_nat (List.length (ProcessedContract.holders new))
    /\ ProcessedContract.status new
       = ParsingStatus.Db DbParsingStatus.COMPLETED.
Proof.
  apply (save_never_drops_a_stored_holder
           (Sample.interrupted_crawl Sample.healthy) Sample.contract'
           (ProcessedContract.mk "0xABC" "ethereum" Sample.t0 1
              [Sample.holder1] (ParsingStatus.Db DbParsingStatus.IN_PROGRESS))
           DbParsingStatus.COMPLETED);
    [reflexivity | vm_compute; reflexivity | reflexivity].
Defined.

(** X7.  After a [save_processed_contract] that returns on a writable
    disk, [is_contract_processed] answers [True] for the address exactly
    when the value of the saved status is [completed], also when the
    status saved was the [COMPLETED] of [models.py]. *)
Theorem is_contract_processed_after_save
  (w w' : World) (c : ProcessedContract.t) (s : DbParsingStatus.t) :
  disk_writable w = true ->
  DbParsingStatus.of_value (JStr (ParsingStatus.value (ProcessedContract.status c)))
  = Some s ->
  DBManager.save_processed_contract c w = Ok tt w' ->
  exists w'',
    DBManager.is_contract_processed (ProcessedContract.address c) w'
    = Ok (match s with DbParsingStatus.COMPLETED => true | _ => false end) w''.
Proof.
  intros Hw Hs Hsave.
  pose proof (save_ok_stored_status c s w w' Hsave Hw Hs) as Hst.
  unfold DBManager.is_contract_processed, bind.
  destruct (get_processed_contract_returns (ProcessedContract.address c) w')
    as [n ->].
  destruct (stored (ProcessedContract.address c) w') as [pc |];
    [| discriminate Hst].
  injection Hst as ->. unfold ret. eexists. now destruct s.
Qed.

Lemma is_contract_processed_after_save_witness :
  exists w',
    DBManager.save_processed_contract Sample.contract' Sample.quiet = Ok tt w'
    /\ exists w'', DBManager.is_contract_processed "0xABC" w' = Ok true w''.
Proof.
  eexists. split; [vm_compute; reflexivity |].
  apply (is_contract_processed_after_save Sample.quiet _ Sample.contract'
           DbParsingStatus.COMPLETED);
    [reflexivity | reflexivity | vm_compute; reflexivity].
Defined.

(* ================================================================== *)
(** * More of the checkpoint store: the queue of pending holders *)
(* ================================================================== *)

Section PendingHolders.

Import DBManager.

Lemma load_pending (w : World) :
  _load_json pending_holders w
  = Ok (match pending_holders_file w with
        | Some (JDict d) => d
        | _ => _get_default_data pending_holders
        end) w.
Proof.
  unfold _load_json. cbn [read].
  now destruct (pending_holders_file w) as [[| | | | |] |].
Qed.

(** [get_pending_holders] never raises and changes nothing. *)
Lemma get_pending_holders_returns (address : string) (w : World) :
  get_pending_holders address w
  = Ok (match pending_dict w with
        | Some pending => queue_of address pending
        | None => []
        end) w.
Proof.
  unfold get_pending_holders, try_except, bind. rewrite load_pending.
  unfold pending_dict, queue_of.
  destruct (Py.get_default "pending" (JDict []) _) as [| | | | | pending];
    try reflexivity.
  destruct (Py.lookup address pending) as [v |]; [| reflexivity].
  destruct (Py.iter v) as [items |]; [| reflexivity].
  now destruct (traverse TokenHolder.from_dict items).
Qed.

Lemma queued_spec (address : string) (w : World) :
  queued address w
  = match pending_dict w with
    | Some pending => queue_of address pending
    | None => []
    end.
Proof. unfold queued. now rewrite get_pending_holders_returns. Qed.

(** [add_pending_holders] never raises; it writes the queue of the
    address, merged, and nothing else. *)
Lemma add_pending_holders_spec (address : string) (holders : list TokenHolder.t)
  (w : World) :
  add_pending_holders address holders w
  = Ok tt
      (match pending_dict w with
       | Some pending =>
           if disk_writable w
           then with_pending_holders_file
                  (Some (JDict
                     [("pending",
                       JDict (Py.set address
                                (JList (map TokenHolder.to_dict
                                          (merge_holders (queued address w)
                                             holders)))
                                pending))])) w
           else failed_write pending_holders w
       | None => w
       end).
Proof.
  unfold add_pending_holders, try_except. unfold bind at 1.
  rewrite load_pending. unfold bind at 1.
  rewrite get_pending_holders_returns, <- queued_spec.
  unfold pending_dict.
  destruct (Py.get_default "pending" (JDict []) _) as [| | | | | pending];
    try reflexivity.
  rewrite _save_json_returns. now destruct (disk_writable w).
Qed.

Lemma pending_dict_written (x : dict) (w : World) :
  pending_dict (with_pending_holders_file (Some (JDict [("pending", JDict x)])) w)
  = Some x.
Proof. reflexivity. Qed.

Lemma queue_of_set_same (address : string) (hs : list TokenHolder.t)
  (pending : dict) :
  exists hs',
    queue_of address
      (Py.set address (JList (map TokenHolder.to_dict hs)) pending) = hs'
    /\ map TokenHolder.address hs' = map TokenHolder.address hs.
Proof.
  unfold queue_of. rewrite lookup_set_same. cbn [Py.iter].
  destruct (holders_read_back hs) as (hs' & -> & Ha). now exists hs'.
Qed.

Lemma queue_of_set_other (address other : string) (v : json) (pending : dict) :
  String.eqb other address = false ->
  queue_of other (Py.set address v pending) = queue_of other pending.
Proof. intros H. unfold queue_of. now rewrite lookup_set_other. Qed.

End PendingHolders.

(** X8.  After [add_pending_holders] on a writable disk,
    [get_pending_holders] returns for the address the holders that were
    queued before, followed by the added holders whose address was not
    queued; a queue that could not be read counts as empty, so the added
    holders take its place. *)
Theorem pending_holders_accumulate
  (w : World) (pending : dict) (address : string)
  (holders : list TokenHolder.t) :
  disk_writable w = true ->
  pending_dict w = Some pending ->
  exists w' hs,
    DBManager.add_pending_holders address holders w = Ok tt w'
    /\ DBManager.get_pending_holders address w' = Ok hs w'
    /\ map TokenHolder.address hs
       = map TokenHolder.address
           (DBManager.merge_holders (queued address w) holders).
Proof.
  intros Hw Hp.
  destruct (queue_of_set_same address
              (DBManager.merge_holders (queued address w) holders) pending)
    as (hs & Hq & Ha).
  eexists. exists hs. split; [apply add_pending_holders_spec |].
  rewrite Hp, Hw. split; [| exact Ha].
  now rewrite get_pending_holders_returns, pending_dict_written, Hq.
Qed.

Lemma pending_holders_accumulate_witness :
  exists w' hs,
    DBManager.add_pending_holders "0xABC" [Sample.holder2; Sample.holder3]
      Sample.quiet = Ok tt w'
    /\ DBManager.get_pending_holders "0xABC" w' = Ok hs w'
    /\ map TokenHolder.address hs
       = map TokenHolder.address
           (DBManager.merge_holders (queued "0xABC" Sample.quiet)
              [Sample.holder2; Sample.holder3]).
Proof.
  eapply (pending_holders_accumulate Sample.quiet); reflexivity.
Defined.

(** X9.  On a disk that can be written, [add_pending_holders] keeps a
    queue free of duplicates: when no address is queued twice for the
    contract and none comes twice in the added list, none is queued twice
    afterwards; and the queues of the other contracts are what they were,
    whatever the file holds. *)
Theorem pending_queue_stays_duplicate_free
  (w : World) (address other : string) (holders : list TokenHolder.t) :
  disk_writable w = true ->
  NoDup (map TokenHolder.address (queued address w)) ->
  NoDup (map TokenHolder.address holders) ->
  String.eqb other address = false ->
  exists w',
    DBManager.add_pending_holders address holders w = Ok tt w'
    /\ NoDup (map TokenHolder.address (queued address w'))
    /\ queued other w' = queued other w.
Proof.
  intros Hw Hq Hh Hne. eexists. split; [apply add_pending_holders_spec |].
  rewrite !queued_spec.
  destruct (pending_dict w) as [pending |] eqn:Hp;
    [| rewrite Hp; split; [constructor | reflexivity]].
  rewrite Hw, pending_dict_written.
  destruct (queue_of_set_same address
              (DBManager.merge_holders (queued address w) holders) pending)
    as (hs & Hs & Ha).
  rewrite queued_spec, Hp in Hs, Ha. rewrite Hs, Ha.
  split; [| now apply queue_of_set_other].
  apply merge_holders_NoDup; [| exact Hh].
  now rewrite queued_spec, Hp in Hq.
Qed.

Lemma pending_queue_stays_duplicate_free_witness :
  exists w',
    DBManager.add_pending_holders "0xABC" [Sample.holder2; Sample.holder3]
      Sample.with_pending_queues = Ok tt w'
    /\ NoDup (map TokenHolder.address (queued "0xABC" w'))
    /\ queued "0xDEF" w' = queued "0xDEF" Sample.with_pending_queues.
Proof.
  apply (pending_queue_stays_duplicate_free Sample.with_pending_queues
           "0xABC" "0xDEF" [Sample.holder2; Sample.holder3]).
  - reflexivity.
  - vm_compute. repeat constructor; simpl; intuition discriminate.
  - repeat constructor; simpl; intuition discriminate.
  - reflexivity.
Defined.

(* ================================================================== *)
(** * More of the proxy pool *)
(* ================================================================== *)

Section Selection.

Import ProxyManager.

Lemma the_status_found (u : string) :
  triple (fun _ => True) (the_status u)
    (fun st w => lookup u (proxies w) = Some st) (fun _ => True).
Proof.
  intros w _. unfold the_status.
  destruct (lookup u (proxies w)) eqn:E; [exact E | exact I].
Qed.

Lemma in_cooldown_spec (u : string) (st : ProxyStatus.t) :
  triple (fun w => lookup u (proxies w) = Some st) (in_cooldown st)
    (fun cooling w => lookup u (proxies w) = Some st
                      /\ (cooling = false -> cooled_down st w))
    (fun _ => True).
Proof.
  intros w H. unfold in_cooldown, cooled_down.
  destruct (ProxyStatus.cooldown_until st) as [c |]; [| now split].
  destruct (c =? 0) eqn:Ec.
  - split; [exact H |]. intros _. left. now apply Z.eqb_eq.
  - unfold bind, read_time, ret. split; [exact H |].
    intros Hlt. right. exists (clock_reads w). split; [reflexivity |].
    cbn [time_time with_clock_reads]. now apply Z.ltb_ge.
Qed.

(** Whatever the scan hands out is usable at that moment. *)
Lemma scan_usable (attempts : nat) :
  triple (fun _ => True) (scan attempts)
    (fun r w => forall u, r = Some u -> usable u w) (fun _ => True).
Proof.
  induction attempts as [| n IH]; cbn [scan].
  - apply triple_ret. intros w _ u H. discriminate H.
  - eapply triple_bind with (Q := fun _ _ => True);
      [intros w _; exact I | intros w0].
    eapply triple_bind with (Q := fun _ _ => True);
      [intros w _; exact I | intros ?].
    destruct (nth_error _ _) as [u0 |]; [| intros w _; exact I].
    eapply triple_bind; [apply the_status_found | intros st].
    destruct (ProxyStatus.is_working st) eqn:Ew; cbn [negb];
      [| eapply triple_consequence; [exact IH | intros; exact I | auto | auto]].
    eapply triple_bind; [apply in_cooldown_spec | intros cooling].
    destruct cooling;
      [eapply triple_consequence; [exact IH | intros; exact I | auto | auto] |].
    destruct (ProxyStatus.requests_count st
                >=? ProxyConfig.MAX_REQUESTS_PER_PROXY) eqn:Eq;
      cbv beta iota.
    + eapply triple_bind with (Q := fun _ _ => True);
        [intros w _; now destruct (_set_cooldown u0 w) | intros ?].
      exact IH.
    + apply triple_ret. intros w [Hl Hc] u E. injection E as <-.
      exists st. split; [exact Hl |]. split; [exact Ew |].
      split; [| now apply Hc].
      rewrite Z.geb_leb in Eq. now apply Z.leb_gt.
Qed.

End Selection.

(** X10.  Whatever proxy [_get_next_available_proxy] returns is, at that
    moment, marked as working and below its quota of
    [MAX_REQUESTS_PER_PROXY] requests, and if it has a cool-down time, that
    time is zero or was not after the last reading of the clock. *)
Theorem selected_proxy_is_usable (w w' : World) (proxy_url : string) :
  ProxyManager._get_next_available_proxy w = Ok (Some proxy_url) w' ->
  usable proxy_url w'.
Proof.
  intros H.
  assert (triple (fun _ => True) ProxyManager._get_next_available_proxy
            (fun r w => forall u, r = Some u -> usable u w) (fun _ => True))
    as Ht.
  { unfold ProxyManager._get_next_available_proxy.
    eapply triple_bind with (Q := fun _ _ => True);
      [intros w0 _; exact I | intros w0; apply scan_usable]. }
  specialize (Ht w I). rewrite H in Ht. now apply Ht.
Qed.

Lemma selected_proxy_is_usable_witness :
  usable "http://p1"
    (world_after ProxyManager._get_next_available_proxy
       (with_time_time (fun _ => 1121)
          (world_after ProxyManager._get_next_available_proxy
             Sample.pool_at_quota))).
Proof.
  apply (selected_proxy_is_usable
           (with_time_time (fun _ => 1121)
              (world_after ProxyManager._get_next_available_proxy
                 Sample.pool_at_quota))).
  vm_compute. reflexivity.
Defined.

Section Rotation.

Import ProxyManager.

Lemma lookup_key_in (pool : ProxyManager.pool) : forall (i : nat) (u : string),
  nth_error (map fst pool) i = Some u ->
  exists st, lookup u pool = Some st /\ In (u, st) pool.
Proof.
  induction pool as [| [k st] pool IH]; intros i u H.
  - now destruct i.
  - cbn [lookup]. destruct (String.eqb u k) eqn:E.
    + apply String.eqb_eq in E. subst k. exists st. split; [reflexivity | now left].
    + destruct i as [| i].
      * cbn in H. injection H as ->. now rewrite String.eqb_refl in E.
      * destruct (IH i u H) as (st' & Hl & Hin). exists st'.
        split; [exact Hl | now right].
Qed.

(** In a pool whose entries are all ready, the selection returns the entry
    after the current one; only the index moves. *)
Lemma select_next (w : World) :
  forallb entry_ready (proxies w) = true ->
  proxies w <> [] ->
  _get_next_available_proxy w
  = Ok (nth_error (map fst (proxies w)) (next_index w))
       (with_current_proxy_index (next_index w) w).
Proof.
  intros Hall Hne.
  assert (next_index w < List.length (map fst (proxies w)))%nat as Hlt.
  { rewrite length_map. unfold next_index. apply Nat.mod_upper_bound.
    destruct (proxies w); [contradiction | discriminate]. }
  destruct (nth_error (map fst (proxies w)) (next_index w)) as [u |] eqn:En;
    [| apply nth_error_None in En; lia].
  destruct (lookup_key_in _ _ _ En) as (st & Hl & Hin).
  rewrite forallb_forall in Hall. specialize (Hall _ Hin).
  unfold entry_ready in Hall. cbn [fst snd] in Hall.
  apply andb_prop in Hall. destruct Hall as [Hall Hq].
  apply andb_prop in Hall. destruct Hall as [Hall Hc].
  apply andb_prop in Hall. destruct Hall as [_ Hwk].
  unfold _get_next_available_proxy, bind at 1, get_world.
  destruct (List.length (proxies w)) as [| k] eqn:Elen.
  { destruct (proxies w); [contradiction | discriminate]. }
  cbn [scan]. unfold bind at 1, get_world. unfold bind at 1, modify.
  unfold next_index in En |- *. rewrite Elen in En |- *. rewrite En.
  unfold bind at 1, the_status. cbn [proxies with_current_proxy_index].
  rewrite Hl, Hwk. cbn [negb].
  unfold bind at 1, in_cooldown.
  assert (Z.geb (ProxyStatus.requests_count st)
            ProxyConfig.MAX_REQUESTS_PER_PROXY = false) as Hq'.
  { rewrite Z.geb_leb. apply Z.leb_gt. now apply Z.ltb_lt. }
  destruct (ProxyStatus.cooldown_until st) as [c |].
  - rewrite Hc. unfold ret. now rewrite Hq'.
  - unfold ret. now rewrite Hq'.
Qed.

Lemma selections_rotate (k : nat) : forall (w : World),
  forallb entry_ready (proxies w) = true ->
  proxies w <> [] ->
  exists w',
    selections k w
    = Ok (map (fun j =>
                 nth_error (map fst (proxies w))
                   ((current_proxy_index w + 1 + j)
                      mod List.length (proxies w))%nat)
              (seq 0 k)) w'
    /\ proxies w' = proxies w.
Proof.
  induction k as [| k IH]; intros w Hall Hne.
  - exists w. split; reflexivity.
  - cbn [selections]. unfold bind at 1.
    rewrite (select_next w Hall Hne).
    destruct (IH (with_current_proxy_index (next_index w) w) Hall Hne)
      as (w' & E & Hp).
    unfold bind at 1. rewrite E. unfold ret. exists w'. split; [| exact Hp].
    f_equal. cbn [seq map]. f_equal.
    + unfold next_index. now rewrite Nat.add_0_r.
    + rewrite <- seq_shift, map_map. apply map_ext. intros j.
      cbn [proxies current_proxy_index with_current_proxy_index].
      f_equal. unfold next_index.
      now rewrite <- Nat.add_assoc, Nat.Div0.add_mod_idemp_l.
Qed.

End Rotation.

(** X11.  In a pool whose proxies are all marked as working, below their
    quota and without cool-down, successive calls of
    [_get_next_available_proxy] go round the pool in the order of the
    file: the call number [j] returns the proxy [j + 1] places after the
    current one, counted modulo the size of the pool, and no entry is
    changed. *)
Theorem healthy_pool_rotates (w : World) (k : nat) :
  forallb entry_ready (proxies w) = true ->
  proxies w <> [] ->
  exists w',
    selections k w
    = Ok (map (fun j =>
                 nth_error (map fst (proxies w))
                   ((current_proxy_index w + 1 + j)
                      mod List.length (proxies w))%nat)
              (seq 0 k)) w'
    /\ proxies w' = proxies w.
Proof. apply selections_rotate. Qed.

Lemma healthy_pool_rotates_witness :
  exists w',
    selections 4
      (with_proxies
         [("http://a", Sample.proxy1); ("http://b", Sample.proxy1);
          ("http://c", Sample.proxy1)] Sample.quiet)
    = Ok [Some "http://b"; Some "http://c"; Some "http://a"; Some "http://b"] w'
    /\ proxies w'
       = [("http://a", Sample.proxy1); ("http://b", Sample.proxy1);
          ("http://c", Sample.proxy1)].
Proof.
  apply (healthy_pool_rotates
           (with_proxies
              [("http://a", Sample.proxy1); ("http://b", Sample.proxy1);
               ("http://c", Sample.proxy1)] Sample.quiet) 4);
    [reflexivity | discriminate].
Defined.

(** X12.  The cool-down that the request quota brings does end, unlike
    the one that follows [MAX_FAILS] failures.  When the only proxy of the
    pool has used up its [MAX_REQUESTS_PER_PROXY] requests, the selection
    returns none, opens a cool-down of [COOLDOWN_TIME] seconds and sets the
    request count back to zero, leaving the proxy marked as working; the
    next selection returns none while the clock is before the end of the
    cool-down, and the proxy from then on. *)
Theorem quota_cooldown_is_lifted
  (w : World) (u : string) (st : ProxyStatus.t) (later : nat -> Z) :
  proxies w = [(u, st)] ->
  ProxyStatus.is_working st = true ->
  ProxyStatus.cooldown_until st = None ->
  ProxyConfig.MAX_REQUESTS_PER_PROXY <= ProxyStatus.requests_count st ->
  disk_writable w = true ->
  0 <= time_time w (clock_reads w) ->
  exists w1,
    ProxyManager._get_next_available_proxy w = Ok None w1
    /\ proxies w1
       = [(u, ProxyStatus.mk (ProxyStatus.url st) true
                (ProxyStatus.fails_count st) (ProxyStatus.last_used st)
                (Some (time_time w (clock_reads w) + ProxyConfig.COOLDOWN_TIME))
                0)]
    /\ exists w2,
         ProxyManager._get_next_available_proxy (with_time_time later w1)
         = Ok (if later (clock_reads w1)
                    <? (time_time w (clock_reads w) + ProxyConfig.COOLDOWN_TIME)
               then None else Some u) w2.
Proof.
  intros Hp Hwk Hcd Hq Hw Ht.
  destruct st as [url wk fails lu cd rq]. cbn in Hwk, Hcd, Hq. subst wk cd.
  destruct w as [f1 f2 f3 f4 dw wt px idx keys ki cr clock now snt net fr fl].
  cbn in Hp, Hw, Ht. subst px dw.
  assert ((rq >=? ProxyConfig.MAX_REQUESTS_PER_PROXY) = true) as Hge.
  { rewrite Z.geb_leb. now apply Z.leb_le. }
  assert ((clock cr + ProxyConfig.COOLDOWN_TIME =? 0) = false) as Hz.
  { apply Z.eqb_neq. unfold ProxyConfig.COOLDOWN_TIME. lia. }
  eexists. split; [| split].
  - unfold ProxyManager._get_next_available_proxy, ProxyManager.scan,
      ProxyManager.in_cooldown, ProxyManager._set_cooldown,
      ProxyManager.the_status, read_time, ProxyManager.assign, modify,
      ProxyManager._save_proxy_data, bind, get_world, ret.
    repeat first
      [ rewrite String.eqb_refl | rewrite Hge | rewrite Nat.mod_1_r
      | progress cbn -[Z.geb Z.ltb Z.add Z.eqb String.eqb Nat.modulo] ].
    reflexivity.
  - reflexivity.
  - cbn [clock_reads with_proxies_data_file with_proxies with_clock_reads
         with_current_proxy_index time_time].
    unfold ProxyManager._get_next_available_proxy, ProxyManager.scan,
      ProxyManager.in_cooldown, ProxyManager._set_cooldown,
      ProxyManager.the_status, read_time, ProxyManager.assign, modify,
      ProxyManager._save_proxy_data, bind, get_world, ret.
    destruct (later (S cr) <? clock cr + ProxyConfig.COOLDOWN_TIME) eqn:El;
      eexists;
      repeat first
        [ rewrite String.eqb_refl | rewrite Nat.mod_1_r | rewrite Hz
        | rewrite El
        | progress cbn -[Z.geb Z.ltb Z.add Z.eqb String.eqb Nat.modulo] ];
      reflexivity.
Qed.

Lemma quota_cooldown_is_lifted_witness :
  exists w1,
    ProxyManager._get_next_available_proxy Sample.pool_at_quota = Ok None w1
    /\ proxies w1
       = [("http://p1", ProxyStatus.mk "http://p1" true 0 0 (Some 1120) 0)]
    /\ exists w2,
         ProxyManager._get_next_available_proxy
           (with_time_time (fun _ => 1120) w1)
         = Ok (Some "http://p1") w2.
Proof.
  apply (quota_cooldown_is_lifted Sample.pool_at_quota "http://p1"
           (ProxyStatus.mk "http://p1" true 0 0 None 200) (fun _ => 1120));
    try reflexivity; vm_compute; discriminate.
Defined.

Section Feedback.

Import ProxyManager.

Ltac pool_step Hl Ed :=
  repeat first
    [ rewrite lookup_update | rewrite String.eqb_refl | rewrite Hl
    | rewrite Ed
    | progress cbn [proxies with_proxies with_clock_reads with_proxies_data_file
                    disk_writable clock_reads time_time option_map
                    ProxyStatus.url ProxyStatus.is_working
                    ProxyStatus.fails_count ProxyStatus.last_used
                    ProxyStatus.cooldown_until ProxyStatus.requests_count] ].

(** One failure: the count goes up by one, and the entry is switched off
    when the count reaches [MAX_FAILS]. *)
Lemma handle_proxy_error_step (u : string) (st : ProxyStatus.t) (w : World) :
  disk_writable w = true ->
  lookup u (proxies w) = Some st ->
  exists w' st',
    _handle_proxy_error u w = Ok tt w'
    /\ lookup u (proxies w') = Some st'
    /\ ProxyStatus.fails_count st' = ProxyStatus.fails_count st + 1
    /\ ProxyStatus.is_working st'
       = (if ProxyStatus.fails_count st + 1 >=? ProxyConfig.MAX_FAILS
          then false else ProxyStatus.is_working st)
    /\ disk_writable w' = true.
Proof.
  intros Ed Hl.
  unfold _handle_proxy_error, bind at 1, the_status. rewrite Hl.
  unfold bind at 1, assign at 1, modify.
  destruct (ProxyStatus.fails_count st + 1 >=? ProxyConfig.MAX_FAILS);
    unfold _set_cooldown, bind, the_status, assign, modify, read_time, ret,
      _save_proxy_data;
    pool_step Hl Ed;
    eexists; eexists; (split; [reflexivity |]); pool_step Hl Ed;
    repeat split; try reflexivity; exact Ed.
Qed.

(** One success: the count is set back to zero, and the mark is left as
    it is. *)
Lemma handle_proxy_success_step (u : string) (st : ProxyStatus.t) (w : World) :
  disk_writable w = true ->
  lookup u (proxies w) = Some st ->
  exists w' st',
    _handle_proxy_success u w = Ok tt w'
    /\ lookup u (proxies w') = Some st'
    /\ ProxyStatus.fails_count st' = 0
    /\ ProxyStatus.is_working st' = ProxyStatus.is_working st
    /\ ProxyStatus.requests_count st' = ProxyStatus.requests_count st + 1.
Proof.
  intros Ed Hl.
  unfold _handle_proxy_success, bind, the_status, assign, modify,
    read_time, _save_proxy_data.
  pool_step Hl Ed;
    eexists; eexists; (split; [reflexivity |]); pool_step Hl Ed;
    repeat split; reflexivity.
Qed.

Lemma failures_in_a_row (u : string) (n : nat) : forall (w : World)
  (st : ProxyStatus.t),
  disk_writable w = true ->
  lookup u (proxies w) = Some st ->
  ProxyStatus.is_working st
  = (ProxyStatus.fails_count st <? ProxyConfig.MAX_FAILS) ->
  exists w' st',
    in_a_row n (_handle_proxy_error u) w = Ok tt w'
    /\ lookup u (proxies w') = Some st'
    /\ ProxyStatus.fails_count st' = ProxyStatus.fails_count st + Z.of_nat n
    /\ ProxyStatus.is_working st'
       = (ProxyStatus.fails_count st + Z.of_nat n <? ProxyConfig.MAX_FAILS).
Proof.
  induction n as [| n IH]; intros w st Ed Hl Hinv.
  - exists w, st. split; [reflexivity |]. split; [exact Hl |].
    rewrite Z.add_0_r. auto.
  - destruct (handle_proxy_error_step u st w Ed Hl)
      as (w1 & st1 & E1 & Hl1 & Hf1 & Hw1 & Ed1).
    assert (ProxyStatus.is_working st1
            = (ProxyStatus.fails_count st1 <? ProxyConfig.MAX_FAILS)) as Hinv1.
    { rewrite Hw1, Hf1, Hinv. rewrite Z.geb_leb.
      destruct (ProxyConfig.MAX_FAILS <=? ProxyStatus.fails_count st + 1) eqn:E.
      - apply Z.leb_le in E. symmetry. apply Z.ltb_ge. lia.
      - apply Z.leb_gt in E.
        transitivity true; [apply Z.ltb_lt | symmetry; apply Z.ltb_lt]; lia. }
    destruct (IH w1 st1 Ed1 Hl1 Hinv1) as (w' & st' & E & Hl' & Hf' & Hw').
    exists w', st'. cbn [in_a_row]. unfold bind. rewrite E1.
    split; [exact E |]. split; [exact Hl' |].
    rewrite Hf', Hw', Hf1. split; [lia | f_equal; lia].
Qed.

End Feedback.

(** X13.  Failures are counted from the last success.  On a disk that can
    be written, from an entry that is marked as working with fewer than
    [MAX_FAILS] failures, [n] calls of [_handle_proxy_error] in a row bring
    the count up by [n], and the entry stays marked as working exactly as
    long as the count is below [MAX_FAILS]; a call of
    [_handle_proxy_success] sets the count back to zero and leaves the mark
    as it is. *)
Theorem failures_are_counted_from_the_last_success
  (w : World) (u : string) (st : ProxyStatus.t) (n : nat) :
  disk_writable w = true ->
  ProxyManager.lookup u (proxies w) = Some st ->
  ProxyStatus.is_working st = true ->
  ProxyStatus.fails_count st < ProxyConfig.MAX_FAILS ->
  (exists w' st',
     in_a_row n (ProxyManager._handle_proxy_error u) w = Ok tt w'
     /\ ProxyManager.lookup u (proxies w') = Some st'
     /\ ProxyStatus.fails_count st' = ProxyStatus.fails_count st + Z.of_nat n
     /\ ProxyStatus.is_working st'
        = (ProxyStatus.fails_count st + Z.of_nat n <? ProxyConfig.MAX_FAILS))
  /\ (exists w' st',
        ProxyManager._handle_proxy_success u w = Ok tt w'
        /\ ProxyManager.lookup u (proxies w') = Some st'
        /\ ProxyStatus.fails_count st' = 0
        /\ ProxyStatus.is_working st' = true).
Proof.
  intros Ed Hl Hwk Hf. split.
  - apply failures_in_a_row; [exact Ed | exact Hl |].
    rewrite Hwk. symmetry. now apply Z.ltb_lt.
  - destruct (handle_proxy_success_step u st w Ed Hl)
      as (w' & st' & E & Hl' & Hf' & Hw' & _).
    exists w', st'. split; [exact E |]. split; [exact Hl' |].
    split; [exact Hf' |]. now rewrite Hw'.
Qed.

Lemma failures_are_counted_from_the_last_success_witness :
  (exists w' st',
     in_a_row 20 (ProxyManager._handle_proxy_error "http://p1") Sample.quiet
     = Ok tt w'
     /\ ProxyManager.lookup "http://p1" (proxies w') = Some st'
     /\ ProxyStatus.fails_count st' = 0 + 20
     /\ ProxyStatus.is_working st' = false)
  /\ (exists w' st',
        ProxyManager._handle_proxy_success "http://p1" Sample.quiet = Ok tt w'
        /\ ProxyManager.lookup "http://p1" (proxies w') = Some st'
        /\ ProxyStatus.fails_count st' = 0
        /\ ProxyStatus.is_working st' = true).
Proof.
  apply (failures_are_counted_from_the_last_success Sample.quiet "http://p1"
           Sample.proxy1 20); reflexivity.
Defined.

Section ReadOnlyDisk.

Import ProxyManager.

Ltac pool_step Hl Ed :=
  repeat first
    [ rewrite lookup_update | rewrite String.eqb_refl | rewrite Hl
    | rewrite Ed
    | progress cbn [proxies with_proxies with_clock_reads with_proxies_data_file
                    disk_writable write_truncates clock_reads time_time
                    option_map] ].

(** The request itself never raises, and leaves the pool and the disk
    alone. *)
Lemma make_request_returns (c : Contract.t) (page : json) (limit : Z)
  (u : string) (w : World) :
  exists r w1,
    make_request c page limit u w = Ok r w1
    /\ proxies w1 = proxies w
    /\ disk_writable w1 = disk_writable w.
Proof.
  unfold make_request.
  destruct (Contract.chain_id c) as [id |]; [| now exists None, w].
  destruct (String.eqb id ""); [now exists None, w |].
  unfold bind at 1, ApiKeyManager.get_next_key.
  destruct (api_keys w) as [| k0 ks]; [now exists None, w |].
  destruct (nth_error (k0 :: ks) (key_index w)) as [key |];
    [| eexists; eexists; split; [reflexivity | split; reflexivity]].
  destruct (String.eqb key "");
    [eexists; eexists; split; [reflexivity | split; reflexivity] |].
  unfold bind at 1, session_get.
  match goal with
  | |- context [network ?a ?b ?r] => destruct (network a b r)
  end;
    eexists; eexists; (split; [reflexivity | split; reflexivity]).
Qed.

Lemma handle_proxy_success_read_only (u : string) (st : ProxyStatus.t)
  (w : World) :
  lookup u (proxies w) = Some st ->
  disk_writable w = false ->
  exists w' st',
    _handle_proxy_success u w = Raise OSError w'
    /\ lookup u (proxies w') = Some st'
    /\ disk_writable w' = false.
Proof.
  intros Hl Ed.
  unfold _handle_proxy_success, bind, the_status, assign, modify, read_time,
    _save_proxy_data.
  pool_step Hl Ed.
  destruct (write_truncates w); (eexists; eexists; split; [reflexivity |]);
    pool_step Hl Ed; split; reflexivity.
Qed.

Lemma handle_proxy_error_read_only (u : string) (st : ProxyStatus.t)
  (w : World) :
  lookup u (proxies w) = Some st ->
  disk_writable w = false ->
  exists w', _handle_proxy_error u w = Raise OSError w'.
Proof.
  intros Hl Ed.
  unfold _handle_proxy_error, bind at 1, the_status. rewrite Hl.
  unfold bind at 1, assign at 1, modify.
  destruct (ProxyStatus.fails_count st + 1 >=? ProxyConfig.MAX_FAILS);
    unfold _set_cooldown, bind, the_status, assign, modify, read_time, ret,
      _save_proxy_data;
    pool_step Hl Ed; eexists; reflexivity.
Qed.

(** With a pool file that cannot be written, a request that goes through
    [with_proxy] ends with [OSError], whatever the server answered. *)
Lemma request_on_read_only_disk (c : Contract.t) (page : json) (limit : Z)
  (w : World) :
  disk_writable w = false ->
  proxy_ready w = true ->
  exists w', _make_async_request c page limit w = Raise OSError w'.
Proof.
  intros Ed Hp.
  destruct (select_ready w Hp) as (u & st & Hsel & Hu & Hl).
  unfold _make_async_request, with_proxy. unfold bind at 1. rewrite Hsel, Hu.
  unfold try_except, bind at 1.
  destruct (make_request_returns c page limit u
              (with_current_proxy_index (next_index w) w))
    as (r & w1 & -> & Hp1 & Hd1).
  cbn [proxies disk_writable with_current_proxy_index] in Hp1, Hd1.
  rewrite <- Hp1 in Hl. rewrite Ed in Hd1.
  destruct (handle_proxy_success_read_only u st w1 Hl Hd1)
    as (w2 & st2 & E2 & Hl2 & Hd2).
  unfold bind at 1. rewrite E2.
  destruct (handle_proxy_error_read_only u st2 w2 Hl2 Hd2) as (w3 & E3).
  unfold bind. rewrite E3. now exists w3.
Qed.

End ReadOnlyDisk.

(** X14.  With a working directory that cannot be written, a crawl of
    [token_holders_service.py] ends with [OSError] at its first request,
    whatever the server answers: the success feedback of [with_proxy]
    cannot save the pool, the handler that catches this cannot either, and
    nothing on the way up catches the error. *)
Theorem crawl_on_read_only_disk_raises
  (fuel : nat) (c : Contract.t) (limit : Z) (w : World) :
  disk_writable w = false ->
  proxy_ready w = true ->
  exists w',
    TokenHoldersService._get_holders_async (S fuel) c limit w
    = Raise OSError w'.
Proof.
  intros Ed Hp.
  destruct (service_run_unfolded (S fuel) c limit w) as [n ->].
  unfold bind at 1. cbn [TokenHoldersService.page_loop].
  unfold bind at 1, log, ret. unfold bind at 1.
  destruct (request_on_read_only_disk c (JInt 1) limit (with_clock_reads n w)
              Ed Hp) as [w' ->].
  now exists w'.
Qed.

Lemma crawl_on_read_only_disk_raises_witness :
  exists w',
    TokenHoldersService._get_holders_async 1 Sample.the_contract 100
      (with_disk_writable false
         (Sample.fresh (fun _ => 1000) Sample.healthy Sample.never))
    = Raise OSError w'.
Proof.
  apply (crawl_on_read_only_disk_raises 0 Sample.the_contract 100
           (with_disk_writable false
              (Sample.fresh (fun _ => 1000) Sample.healthy Sample.never)));
    reflexivity.
Defined.

(* ================================================================== *)
(** * The proxy pool and its files *)
(* ================================================================== *)

Section PoolFiles.

Import ProxyManager.

Lemma lookup_none (u : string) (pool : ProxyManager.pool) :
  lookup u pool = None <-> ~ In u (map fst pool).
Proof.
  induction pool as [| [k st] pool IH]; cbn [lookup map fst In].
  - tauto.
  - destruct (String.eqb u k) eqn:E.
    + apply String.eqb_eq in E. subst k. split; [discriminate | tauto].
    + apply String.eqb_neq in E. rewrite IH. split.
      * intros H [H1 | H1]; [now apply E | now apply H].
      * tauto.
Qed.

Lemma lookup_some_key (u : string) (pool : ProxyManager.pool)
  (st : ProxyStatus.t) :
  lookup u pool = Some st -> In u (map fst pool).
Proof.
  intros H. destruct (in_dec string_dec u (map fst pool)) as [Hin | Hn];
    [exact Hin |].
  apply lookup_none in Hn. congruence.
Qed.

Lemma proxy_url_of_http (line : string) :
  Py.startswith (proxy_url_of line) "http" = true.
Proof.
  unfold proxy_url_of.
  destruct (Py.startswith line "http") eqn:E; [exact E | reflexivity].
Qed.

Lemma add_proxies_spec (proxy_list : list string) : forall (w : World),
  NoDup (map fst (proxies w)) ->
  Forall loaded_entry (proxies w) ->
  exists w',
    add_proxies proxy_list w = Ok tt w'
    /\ NoDup (map fst (proxies w'))
    /\ Forall loaded_entry (proxies w')
    /\ forall k, In k (map fst (proxies w'))
                 <-> In k (map fst (proxies w))
                     \/ In k (map proxy_url_of proxy_list).
Proof.
  induction proxy_list as [| line rest IH]; intros w Hnd Hall.
  - exists w. cbn [map In]. repeat split; auto; tauto.
  - cbn [add_proxies]. fold (proxy_url_of line).
    unfold bind at 1, get_world. unfold bind at 1.
    destruct (lookup (proxy_url_of line) (proxies w)) as [st |] eqn:El.
    + destruct (IH w Hnd Hall) as (w' & E & Hnd' & Hall' & Hk).
      exists w'. unfold ret. split; [exact E |]. split; [exact Hnd' |].
      split; [exact Hall' |]. intros k. rewrite Hk. cbn [map In].
      apply lookup_some_key in El. split; [tauto |].
      intros [H | [<- | H]]; tauto.
    + unfold bind at 1, new_status, bind, read_time, ret, modify.
      match goal with
      | |- context [add_proxies rest ?w1] =>
          destruct (IH w1) as (w' & E & Hnd' & Hall' & Hk)
      end.
      * cbn [proxies with_proxies with_clock_reads]. rewrite map_app.
        cbn [map fst]. apply NoDup_app; [exact Hnd | repeat constructor; auto |].
        intros k Hin [<- | []]. now apply lookup_none in El.
      * cbn [proxies with_proxies with_clock_reads].
        apply Forall_app. split; [exact Hall |]. constructor; [| constructor].
        split; [apply proxy_url_of_http | split; reflexivity].
      * exists w'. split; [exact E |]. split; [exact Hnd' |].
        split; [exact Hall' |]. intros k. rewrite Hk.
        cbn [proxies with_proxies with_clock_reads]. rewrite map_app, in_app_iff.
        cbn [map fst In]. tauto.
Qed.

End PoolFiles.

(** X15.  The loop of [_load_proxies] over the lines of
    [config/proxies.txt], started on the empty pool, files every line
    under its URL, with [http://] put before a line that does not start
    with [http]: afterwards no key occurs twice, the keys are exactly the
    URLs of the lines, each key starts with [http], and each entry is a
    fresh status (working, no failure, no request, no cool-down) whose
    [url] is its key.  A proxy listed twice, or once with and once without
    the scheme, gets one entry. *)
Theorem loaded_proxies_are_normalised (proxy_list : list string) (w : World) :
  proxies w = [] ->
  exists w',
    ProxyManager.add_proxies proxy_list w = Ok tt w'
    /\ NoDup (map fst (proxies w'))
    /\ Forall loaded_entry (proxies w')
    /\ forall k, In k (map fst (proxies w'))
                 <-> In k (map proxy_url_of proxy_list).
Proof.
  intros Hp.
  destruct (add_proxies_spec proxy_list w) as (w' & E & Hnd & Hall & Hk).
  - rewrite Hp. constructor.
  - rewrite Hp. constructor.
  - exists w'. split; [exact E |]. split; [exact Hnd |]. split; [exact Hall |].
    intros k. rewrite Hk, Hp. cbn [map In]. tauto.
Qed.

Lemma loaded_proxies_are_normalised_witness :
  exists w',
    ProxyManager.add_proxies
      ["10.0.0.1:80"; "http://10.0.0.1:80"; "https://b"]%string
      (with_proxies [] Sample.quiet) = Ok tt w'
    /\ NoDup (map fst (proxies w'))
    /\ Forall loaded_entry (proxies w')
    /\ forall k, In k (map fst (proxies w'))
                 <-> In k (map proxy_url_of
                             ["10.0.0.1:80"; "http://10.0.0.1:80";
                              "https://b"]%string).
Proof.
  apply (loaded_proxies_are_normalised
           ["10.0.0.1:80"; "http://10.0.0.1:80"; "https://b"]%string
           (with_proxies [] Sample.quiet)).
  reflexivity.
Defined.

Section Restart.

Import ProxyManager.

(** The loop of [_load_proxy_data] gives every proxy of the pool that the
    file knows the status the file has for it. *)
Lemma restore_spec (data : ProxyManager.pool) : forall (w : World),
  NoDup (map fst data) ->
  exists w',
    restore data w = Ok tt w'
    /\ (forall u,
          lookup u (proxies w')
          = match lookup u (proxies w) with
            | Some st =>
                Some (match lookup u data with Some st' => st' | None => st end)
            | None => None
            end)
    /\ proxies_data_file w' = proxies_data_file w
    /\ disk_writable w' = disk_writable w.
Proof.
  induction data as [| [k s] data IH]; intros w Hnd.
  - exists w. split; [reflexivity |]. split; [| split; reflexivity].
    intros u. cbn [lookup]. now destruct (lookup u (proxies w)).
  - cbn [map fst] in Hnd. inversion Hnd as [| ? ? Hk Hnd']; subst.
    apply lookup_none in Hk.
    cbn [restore]. unfold bind at 1, get_world. unfold bind at 1.
    destruct (lookup k (proxies w)) as [st |] eqn:El.
    + unfold assign, modify.
      match goal with
      | |- context [restore data ?w1] =>
          destruct (IH w1 Hnd') as (w' & E & Hl & Hf & Hd)
      end.
      exists w'. split; [exact E |]. split; [| split; assumption].
      intros u. rewrite Hl. cbn [proxies with_proxies lookup].
      rewrite lookup_update.
      destruct (String.eqb u k) eqn:Eu.
      * apply String.eqb_eq in Eu. subst u. now rewrite El, Hk.
      * reflexivity.
    + unfold ret. destruct (IH w Hnd') as (w' & E & Hl & Hf & Hd).
      exists w'. split; [exact E |]. split; [| split; assumption].
      intros u. rewrite Hl. cbn [lookup].
      destruct (String.eqb u k) eqn:Eu; [| reflexivity].
      apply String.eqb_eq in Eu. subst u. now rewrite El.
Qed.

(** The loop of [validate_all_proxies] over some keys of the pool. *)
Lemma set_working_spec (check_proxy : string -> bool) (keys : list string) :
  forall (w : World),
  (forall k, In k keys -> lookup k (proxies w) <> None) ->
  exists w',
    set_working (combine keys (map check_proxy keys)) w = Ok tt w'
    /\ (forall u,
          lookup u (proxies w')
          = if existsb (String.eqb u) keys
            then option_map (set_is_working (check_proxy u))
                   (lookup u (proxies w))
            else lookup u (proxies w))
    /\ disk_writable w' = disk_writable w.
Proof.
  induction keys as [| k keys IH]; intros w Hin.
  - exists w. split; [reflexivity |]. split; reflexivity.
  - cbn [map combine set_working]. unfold bind at 1, the_status.
    destruct (lookup k (proxies w)) as [st |] eqn:El;
      [| exfalso; apply (Hin k); [now left | exact El]].
    unfold bind at 1, assign, modify.
    match goal with
    | |- context [set_working _ ?w1] =>
        destruct (IH w1) as (w' & E & Hl & Hd)
    end.
    { intros k' Hk'. cbn [proxies with_proxies]. rewrite lookup_update.
      specialize (Hin k' (or_intror Hk')).
      destruct (String.eqb k' k); [| exact Hin].
      destruct (lookup k' (proxies w)); [discriminate | contradiction]. }
    exists w'. split; [exact E |]. split; [| exact Hd].
    intros u. rewrite Hl. cbn [proxies with_proxies existsb].
    rewrite lookup_update.
    destruct (String.eqb u k) eqn:Eu; cbn [orb]; [| reflexivity].
    apply String.eqb_eq in Eu. subst u. rewrite El. cbn [option_map].
    now destruct (existsb (String.eqb k) keys).
Qed.

Lemma key_is_found (u : string) (pool : ProxyManager.pool) (st : ProxyStatus.t) :
  lookup u pool = Some st -> existsb (String.eqb u) (map fst pool) = true.
Proof.
  intros H. apply existsb_exists. exists u.
  split; [now apply (lookup_some_key u pool st) | apply String.eqb_refl].
Qed.

End Restart.

(** X16.  What [_save_proxy_data] wrote is what [_load_proxy_data] puts
    back: after it, every proxy of the pool that the file knows has the
    status of the file, and every other proxy has the status it had.  So a
    proxy that was saved as not working is not working after a restart
    either. *)
Theorem pool_state_survives_a_restart
  (w : World) (data : ProxyManager.pool) (u : string) (st : ProxyStatus.t) :
  proxies_data_file w = Some data ->
  NoDup (map fst data) ->
  ProxyManager.lookup u (proxies w) = Some st ->
  exists w',
    ProxyManager._load_proxy_data w = Ok tt w'
    /\ ProxyManager.lookup u (proxies w')
       = Some (match ProxyManager.lookup u data with
               | Some saved => saved
               | None => st
               end).
Proof.
  intros Hf Hnd Hl.
  unfold ProxyManager._load_proxy_data, bind, get_world. rewrite Hf.
  destruct (restore_spec data w Hnd) as (w' & E & Hl' & _).
  exists w'. split; [exact E |]. now rewrite Hl', Hl.
Qed.

Lemma pool_state_survives_a_restart_witness :
  exists w',
    ProxyManager._load_proxy_data
      (with_proxies_data_file
         (Some [("http://p1", ProxyStatus.mk "http://p1" false 20 0 (Some 1120) 0)])
         Sample.quiet) = Ok tt w'
    /\ ProxyManager.lookup "http://p1" (proxies w')
       = Some (ProxyStatus.mk "http://p1" false 20 0 (Some 1120) 0).
Proof.
  apply (pool_state_survives_a_restart
           (with_proxies_data_file
              (Some [("http://p1",
                      ProxyStatus.mk "http://p1" false 20 0 (Some 1120) 0)])
              Sample.quiet)
           [("http://p1", ProxyStatus.mk "http://p1" false 20 0 (Some 1120) 0)]
           "http://p1" Sample.proxy1);
    [reflexivity | repeat constructor; simpl; intuition discriminate
    | reflexivity].
Defined.

(** X17.  [validate_all_proxies] marks every proxy of the pool by the
    outcome of its check and by nothing else: afterwards a proxy is marked
    as working exactly when its check passed, whatever its mark, its
    failure count and its cool-down were, and these two are left as they
    are; the pool is then saved. *)
Theorem validation_decides_the_mark
  (check_proxy : string -> bool) (w : World) (u : string) (st : ProxyStatus.t) :
  ProxyManager.lookup u (proxies w) = Some st ->
  disk_writable w = true ->
  exists w',
    ProxyManager.validate_all_proxies check_proxy w = Ok tt w'
    /\ ProxyManager.lookup u (proxies w')
       = Some (set_is_working (check_proxy u) st)
    /\ proxies_data_file w' = Some (proxies w').
Proof.
  intros Hl Hw.
  unfold ProxyManager.validate_all_proxies, bind at 1, get_world.
  destruct (set_working_spec check_proxy (map fst (proxies w)) w)
    as (w1 & E & Hl1 & Hd1).
  { intros k Hk Hn. apply lookup_none in Hn. contradiction. }
  unfold bind. cbv zeta. rewrite E.
  unfold ProxyManager._save_proxy_data. rewrite Hd1, Hw.
  eexists. split; [reflexivity |].
  cbn [proxies proxies_data_file with_proxies_data_file].
  split; [| reflexivity].
  now rewrite Hl1, (key_is_found u _ st Hl), Hl.
Qed.

Lemma validation_decides_the_mark_witness :
  exists w',
    ProxyManager.validate_all_proxies (fun _ => true) Sample.pool_after_failures
    = Ok tt w'
    /\ ProxyManager.lookup "http://p1" (proxies w')
       = Some (ProxyStatus.mk "http://p1" true 20 0 (Some 1120) 0)
    /\ proxies_data_file w' = Some (proxies w').
Proof.
  apply (validation_decides_the_mark (fun _ => true) Sample.pool_after_failures
           "http://p1" (ProxyStatus.mk "http://p1" false 20 0 (Some 1120) 0));
    reflexivity.
Defined.

(* ================================================================== *)
(** * The loaders and the work list *)
(* ================================================================== *)

Section Loaders.

Lemma read_lines_good (good : list string) : forall (cs acc : list Contract.t)
  (rest : list string),
  traverse ContractLoader.parse_line good = Some cs ->
  ContractLoader.read_lines (good ++ rest) acc
  = ContractLoader.read_lines rest (acc ++ cs).
Proof.
  induction good as [| line good IH]; intros cs acc rest H.
  - injection H as <-. now rewrite app_nil_r.
  - cbn [traverse] in H.
    destruct (ContractLoader.parse_line line) as [c |] eqn:Ec; [| discriminate].
    destruct (traverse ContractLoader.parse_line good) as [cs' |] eqn:Ecs;
      [| discriminate].
    injection H as <-. cbn [app ContractLoader.read_lines]. rewrite Ec.
    rewrite (IH cs' (acc ++ [c]) rest eq_refl). now rewrite <- app_assoc.
Qed.

Lemma blank_line_is_bad (line : string) :
  Py.str_strip line = ""%string -> ContractLoader.parse_line line = None.
Proof. intros H. unfold ContractLoader.parse_line. now rewrite H. Qed.

Lemma parsed_line_is_not_blank (line : string) (c : Contract.t) :
  ContractLoader.parse_line line = Some c ->
  String.eqb (Py.str_strip line) "" = false.
Proof.
  unfold ContractLoader.parse_line.
  destruct (Py.str_strip line); [discriminate | reflexivity].
Qed.

Lemma parser_read_lines_good (good : list string) :
  forall (cs acc : list Contract.t) (rest : list string),
  traverse ContractLoader.parse_line good = Some cs ->
  TraderParser.read_lines (good ++ rest) acc
  = TraderParser.read_lines rest (acc ++ cs).
Proof.
  induction good as [| line good IH]; intros cs acc rest H.
  - injection H as <-. now rewrite app_nil_r.
  - cbn [traverse] in H.
    destruct (ContractLoader.parse_line line) as [c |] eqn:Ec; [| discriminate].
    destruct (traverse ContractLoader.parse_line good) as [cs' |] eqn:Ecs;
      [| discriminate].
    injection H as <-. cbn [app TraderParser.read_lines].
    rewrite (parsed_line_is_not_blank line c Ec), Ec. cbn [negb].
    rewrite (IH cs' (acc ++ [c]) rest eq_refl). now rewrite <- app_assoc.
Qed.

End Loaders.

(** X18.  [ContractLoader.load_contracts] returns the contracts of the
    lines up to the first line that does not consist of exactly two words,
    and says nothing of the lines after it: the [ValueError] of that line
    ends the loop and is only logged.  A line without any word, such as an
    empty line, is such a line. *)
Theorem load_contracts_stops_at_the_first_bad_line
  (good rest : list string) (bad : string) (cs : list Contract.t) :
  traverse ContractLoader.parse_line good = Some cs ->
  ContractLoader.parse_line bad = None ->
  ContractLoader.load_contracts (Some good) = cs
  /\ ContractLoader.load_contracts (Some (good ++ bad :: rest)) = cs
  /\ ContractLoader.parse_line newline = None.
Proof.
  intros Hgood Hbad. cbn [ContractLoader.load_contracts]. split; [| split].
  - rewrite <- (app_nil_r good), (read_lines_good good cs [] [] Hgood).
    reflexivity.
  - rewrite (read_lines_good good cs [] (bad :: rest) Hgood).
    cbn [ContractLoader.read_lines app]. now rewrite Hbad.
  - reflexivity.
Qed.

Lemma load_contracts_stops_at_the_first_bad_line_witness :
  ContractLoader.load_contracts
    (Some [("0xABC ethereum" ++ newline)%string; ("  0xDEF   bsc " ++ newline)%string])
  = [Contract.mk "0xABC" "ethereum"; Contract.mk "0xDEF" "bsc"]
  /\ ContractLoader.load_contracts
       (Some ([("0xABC ethereum" ++ newline)%string; ("  0xDEF   bsc " ++ newline)%string]
              ++ newline :: [("0x123 base" ++ newline)%string]))
     = [Contract.mk "0xABC" "ethereum"; Contract.mk "0xDEF" "bsc"]
  /\ ContractLoader.parse_line newline = None.
Proof.
  apply (load_contracts_stops_at_the_first_bad_line
           [("0xABC ethereum" ++ newline)%string; ("  0xDEF   bsc " ++ newline)%string]
           [("0x123 base" ++ newline)%string] newline); reflexivity.
Defined.

(** X19.  The two readers of [contracts.txt] differ on a file with an
    empty line between well-formed lines: [TraderParser.parse_contracts] of
    [main.py] skips the line and returns the contracts of all the other
    lines, [ContractLoader.load_contracts] returns those before it only.
    On a line that has words, but not two, [parse_contracts] raises. *)
Theorem the_two_contract_readers_differ
  (before after rest : list string) (blank bad : string)
  (cs1 cs2 : list Contract.t) :
  traverse ContractLoader.parse_line before = Some cs1 ->
  traverse ContractLoader.parse_line after = Some cs2 ->
  Py.str_strip blank = ""%string ->
  ContractLoader.parse_line bad = None ->
  String.eqb (Py.str_strip bad) "" = false ->
  TraderParser.parse_contracts (Some (before ++ blank :: after))
  = Some (cs1 ++ cs2)
  /\ ContractLoader.load_contracts (Some (before ++ blank :: after)) = cs1
  /\ TraderParser.parse_contracts (Some (before ++ bad :: rest)) = None.
Proof.
  intros H1 H2 Hblank Hbad Hwords.
  cbn [TraderParser.parse_contracts ContractLoader.load_contracts].
  split; [| split].
  - rewrite (parser_read_lines_good before cs1 [] (blank :: after) H1).
    cbn [TraderParser.read_lines app]. rewrite Hblank. cbn [String.eqb negb].
    rewrite <- (app_nil_r after), (parser_read_lines_good after cs2 cs1 [] H2).
    reflexivity.
  - rewrite (read_lines_good before cs1 [] (blank :: after) H1).
    cbn [ContractLoader.read_lines app].
    now rewrite (blank_line_is_bad blank Hblank).
  - rewrite (parser_read_lines_good before cs1 [] (bad :: rest) H1).
    cbn [TraderParser.read_lines app]. now rewrite Hwords, Hbad.
Qed.

Lemma the_two_contract_readers_differ_witness :
  TraderParser.parse_contracts
    (Some ([("0xABC ethereum" ++ newline)%string] ++ newline
           :: [("0xDEF bsc" ++ newline)%string]))
  = Some ([Contract.mk "0xABC" "ethereum"] ++ [Contract.mk "0xDEF" "bsc"])
  /\ ContractLoader.load_contracts
       (Some ([("0xABC ethereum" ++ newline)%string] ++ newline
              :: [("0xDEF bsc" ++ newline)%string]))
     = [Contract.mk "0xABC" "ethereum"]
  /\ TraderParser.parse_contracts
       (Some ([("0xABC ethereum" ++ newline)%string] ++ "0xDEF"%string
              :: [("0x123 base" ++ newline)%string]))
     = None.
Proof.
  apply (the_two_contract_readers_differ
           [("0xABC ethereum" ++ newline)%string] [("0xDEF bsc" ++ newline)%string]
           [("0x123 base" ++ newline)%string] newline "0xDEF"%string);
    reflexivity.
Defined.

Section Keys.

Import ApiKeyManager.

Lemma loaded_key_origin (lines : list string) (key : string) :
  In key (_load_api_keys (Some lines)) ->
  key <> ""%string /\ exists line, In line lines /\ key = Py.str_strip line.
Proof.
  cbn [_load_api_keys]. intros H. apply in_map_iff in H.
  destruct H as (line & <- & H). apply filter_In in H. destruct H as [Hin Hne].
  split; [| now exists line].
  intros E. now rewrite E in Hne.
Qed.

Lemma get_next_key_step (w : World) :
  (key_index w < List.length (api_keys w))%nat ->
  get_next_key w
  = Ok (nth_error (api_keys w) (key_index w))
       (with_key_index ((key_index w + 1) mod List.length (api_keys w))%nat w).
Proof.
  intros H. unfold get_next_key.
  destruct (api_keys w); [cbn in H; lia | reflexivity].
Qed.

Lemma keys_rotate (k : nat) : forall (w : World),
  (key_index w < List.length (api_keys w))%nat ->
  exists w',
    results_of k get_next_key w
    = Ok (map (fun j =>
                 nth_error (api_keys w)
                   ((key_index w + j) mod List.length (api_keys w))%nat)
              (seq 0 k)) w'
    /\ api_keys w' = api_keys w
    /\ key_index w' = ((key_index w + k) mod List.length (api_keys w))%nat.
Proof.
  induction k as [| k IH]; intros w Hlt.
  - exists w. repeat split. rewrite Nat.add_0_r. now rewrite Nat.mod_small.
  - cbn [results_of]. unfold bind at 1. rewrite (get_next_key_step w Hlt).
    assert (List.length (api_keys w) <> 0)%nat as Hn by lia.
    destruct (IH (with_key_index
                    ((key_index w + 1) mod List.length (api_keys w))%nat w))
      as (w' & E & Hk & Hi).
    { cbn [api_keys key_index with_key_index]. now apply Nat.mod_upper_bound. }
    cbn [api_keys key_index with_key_index] in E, Hk, Hi.
    unfold bind at 1. rewrite E. unfold ret. exists w'.
    split; [| split; [exact Hk |]].
    + f_equal. cbn [seq map]. f_equal.
      * rewrite Nat.add_0_r. now rewrite Nat.mod_small.
      * rewrite <- seq_shift, map_map. apply map_ext. intros j. f_equal.
        rewrite Nat.Div0.add_mod_idemp_l. f_equal. lia.
    + rewrite Hi, Nat.Div0.add_mod_idemp_l. f_equal. lia.
Qed.

End Keys.

(** X20.  A key that [get_next_key] hands out, of the keys that
    [_load_api_keys] read, is never the empty string: it is a line of the key
    file that has more than white space, without the white space around
    it. *)
Theorem loaded_keys_are_never_empty
  (lines : list string) (w : World) :
  api_keys w = ApiKeyManager._load_api_keys (Some lines) ->
  (key_index w < List.length (api_keys w))%nat ->
  exists key w',
    ApiKeyManager.get_next_key w = Ok (Some key) w'
    /\ key <> ""%string
    /\ exists line, In line lines /\ key = Py.str_strip line.
Proof.
  intros Hkeys Hlt. rewrite (get_next_key_step w Hlt).
  destruct (nth_error (api_keys w) (key_index w)) as [key |] eqn:En;
    [| apply nth_error_None in En; lia].
  exists key. eexists. split; [reflexivity |].
  apply loaded_key_origin. rewrite <- Hkeys. exact (nth_error_In _ _ En).
Qed.

Lemma loaded_keys_are_never_empty_witness :
  exists key w',
    ApiKeyManager.get_next_key Sample.with_loaded_keys = Ok (Some key) w'
    /\ key <> ""%string
    /\ exists line, In line Sample.key_file /\ key = Py.str_strip line.
Proof.
  apply (loaded_keys_are_never_empty Sample.key_file Sample.with_loaded_keys).
  - reflexivity.
  - vm_compute. lia.
Defined.

(** X21.  Successive calls of [get_next_key] go round the loaded keys in
    the order of the file: the call number [j] returns the key [j] places
    after the current one, counted modulo the number of keys, and the keys
    themselves stay as loaded. *)
Theorem keys_are_used_in_turn (w : World) (k : nat) :
  (key_index w < List.length (api_keys w))%nat ->
  exists w',
    results_of k ApiKeyManager.get_next_key w
    = Ok (map (fun j =>
                 nth_error (api_keys w)
                   ((key_index w + j) mod List.length (api_keys w))%nat)
              (seq 0 k)) w'
    /\ api_keys w' = api_keys w
    /\ key_index w' = ((key_index w + k) mod List.length (api_keys w))%nat.
Proof. apply keys_rotate. Qed.

Lemma keys_are_used_in_turn_witness :
  exists w',
    results_of 3 ApiKeyManager.get_next_key Sample.with_loaded_keys
    = Ok (map (fun j =>
                 nth_error (api_keys Sample.with_loaded_keys)
                   ((key_index Sample.with_loaded_keys + j)
                      mod List.length (api_keys Sample.with_loaded_keys))%nat)
              (seq 0 3)) w'
    /\ api_keys w' = api_keys Sample.with_loaded_keys
    /\ key_index w'
       = ((key_index Sample.with_loaded_keys + 3)
            mod List.length (api_keys Sample.with_loaded_keys))%nat.
Proof.
  apply (keys_are_used_in_turn Sample.with_loaded_keys 3). vm_compute. lia.
Defined.

Section WorkList.

Lemma order_contracts_spec (u : list string) (all : list Contract.t) :
  forall acc,
  order_contracts u all acc
  = rev (filter (is_unfinished u) all) ++ acc
    ++ filter (fun c => negb (is_unfinished u c)) all.
Proof.
  induction all as [| c all IH]; intros acc.
  - cbn. now rewrite app_nil_r.
  - cbn [order_contracts filter]. rewrite IH.
    change (existsb (String.eqb (Contract.address c)) u)
      with (is_unfinished u c).
    destruct (is_unfinished u c); cbn [negb rev].
    + rewrite <- !app_assoc. reflexivity.
    + rewrite <- !app_assoc. reflexivity.
Qed.

Lemma filter_split_permutation {A : Type} (f : A -> bool) (l : list A) :
  Permutation (filter f l ++ filter (fun x => negb (f x)) l) l.
Proof.
  induction l as [| x l IH]; [constructor |].
  cbn [filter]. destruct (f x); cbn [negb app].
  - now constructor.
  - symmetry. apply Permutation_cons_app. now symmetry.
Qed.

Lemma nothing_unfinished (l : list Contract.t) :
  rev (filter (is_unfinished []) l)
  ++ filter (fun c => negb (is_unfinished [] c)) l = l.
Proof.
  assert (filter (is_unfinished []) l = []) as ->
    by (induction l as [| c l IH]; [reflexivity | exact IH]).
  cbn [rev app].
  induction l as [| c l IH]; [reflexivity |].
  cbn [filter is_unfinished existsb negb].
  f_equal. exact IH.
Qed.

Lemma unreadable_entry_poisons (pr : dict) (address : string) (entry : json) :
  In (address, entry) pr ->
  DBManager.unfinished entry = None ->
  DBManager.unfinished_of pr = None.
Proof.
  intros Hin Hentry. induction pr as [| [k v] pr IH]; [destruct Hin |].
  cbn [DBManager.unfinished_of]. destruct Hin as [E | Hin].
  - injection E as -> ->. now rewrite Hentry.
  - destruct (DBManager.unfinished v); [| reflexivity].
    now rewrite (IH Hin).
Qed.

End WorkList.

(** X22.  The work list of [process_all_contracts] is the list of the
    contracts file, rearranged: first the contracts that
    [get_unfinished_contracts] lists, the last of the file first, then the
    others in the order of the file.  No contract is lost or added. *)
Theorem work_list_puts_unfinished_contracts_first
  (file : option (list string)) (w : World) :
  contracts_to_process file w
  = Ok (rev (filter (is_unfinished (listed_unfinished w))
               (ContractLoader.load_contracts file))
        ++ filter (fun c => negb (is_unfinished (listed_unfinished w) c))
             (ContractLoader.load_contracts file)) w
  /\ Permutation
       (rev (filter (is_unfinished (listed_unfinished w))
               (ContractLoader.load_contracts file))
        ++ filter (fun c => negb (is_unfinished (listed_unfinished w) c))
             (ContractLoader.load_contracts file))
       (ContractLoader.load_contracts file).
Proof.
  set (all := ContractLoader.load_contracts file).
  set (u := listed_unfinished w). split.
  - assert (DBManager.get_unfinished_contracts w = Ok u w) as E.
    { subst u. unfold listed_unfinished.
      now rewrite get_unfinished_contracts_spec. }
    clearbody u. unfold contracts_to_process, bind at 1. rewrite E.
    rewrite order_contracts_spec. cbn [app]. fold all.
    now destruct u.
  - etransitivity; [| apply (filter_split_permutation (is_unfinished u))].
    apply Permutation_app_tail. symmetry. apply Permutation_rev.
Qed.

(** X23.  One progress entry whose status cannot be read switches the
    priority of unfinished contracts off: [get_unfinished_contracts] answers
    with the empty list, and the work list is the contracts file in its own
    order, whatever the other entries say. *)
Theorem unreadable_status_switches_the_priority_off
  (file : option (list string)) (w : World) (data pr : dict)
  (address : string) (entry : json) :
  progress_dict w = Some (data, pr) ->
  In (address, entry) pr ->
  DBManager.unfinished entry = None ->
  DBManager.get_unfinished_contracts w = Ok [] w
  /\ contracts_to_process file w = Ok (ContractLoader.load_contracts file) w.
Proof.
  intros Hd Hin Hentry.
  assert (DBManager.get_unfinished_contracts w = Ok [] w) as E.
  { rewrite get_unfinished_contracts_spec, Hd.
    now rewrite (unreadable_entry_poisons pr address entry Hin Hentry). }
  split; [exact E |].
  unfold contracts_to_process, bind at 1. rewrite E.
  rewrite order_contracts_spec. cbn [app].
  unfold bind, ret. f_equal. apply nothing_unfinished.
Qed.

Lemma unreadable_status_switches_the_priority_off_witness :
  DBManager.get_unfinished_contracts Sample.with_unreadable_status
  = Ok [] Sample.with_unreadable_status
  /\ contracts_to_process (Some Sample.contracts_file)
       Sample.with_unreadable_status
     = Ok (ContractLoader.load_contracts (Some Sample.contracts_file))
          Sample.with_unreadable_status.
Proof.
  eapply (unreadable_status_switches_the_priority_off
            (Some Sample.contracts_file) Sample.with_unreadable_status
            _ _ "0xDEF"%string Sample.paused_entry).
  - reflexivity.
  - right. left. reflexivity.
  - reflexivity.
Defined.

(* ================================================================== *)
(** * A pool without a working proxy *)
(* ================================================================== *)

Section DeadPool.

Import ProxyManager.

Lemma scan_dead_pool (attempts : nat) : forall (w : World),
  all_marked_failed w = true ->
  proxies w <> [] ->
  exists i, scan attempts w = Ok None (with_current_proxy_index i w).
Proof.
  induction attempts as [| n IH]; intros w Hdead Hne.
  - exists (current_proxy_index w). now destruct w.
  - cbn [scan]. unfold bind at 1, get_world. unfold bind at 1, modify.
    set (index := ((current_proxy_index w + 1) mod List.length (proxies w))%nat).
    assert (index < List.length (map fst (proxies w)))%nat as Hlt.
    { rewrite length_map. apply Nat.mod_upper_bound.
      destruct (proxies w); [contradiction | discriminate]. }
    destruct (nth_error (map fst (proxies w)) index) as [u |] eqn:En;
      [| apply nth_error_None in En; lia].
    destruct (lookup_key_in _ _ _ En) as (st & Hl & Hin).
    unfold all_marked_failed in Hdead. rewrite forallb_forall in Hdead.
    pose proof (Hdead _ Hin) as Hst. cbn [snd] in Hst.
    unfold bind at 1, the_status. cbn [proxies with_current_proxy_index].
    rewrite Hl, Hst.
    destruct (IH (with_current_proxy_index index w)) as [i E].
    + unfold all_marked_failed. now rewrite forallb_forall.
    + exact Hne.
    + exists i. exact E.
Qed.

Lemma select_in_dead_pool (w : World) :
  all_marked_failed w = true ->
  exists i,
    _get_next_available_proxy w = Ok None (with_current_proxy_index i w).
Proof.
  intros Hdead. unfold _get_next_available_proxy, bind, get_world.
  destruct (proxies w) as [| e l] eqn:Ep.
  - exists (current_proxy_index w). now destruct w.
  - apply scan_dead_pool; [exact Hdead | now rewrite Ep].
Qed.

Lemma pool_has_no_proxy (A : Type) (func : string -> M A) (w : World) :
  all_marked_failed w = true ->
  exists i,
    with_proxy func w = Raise NoProxyException (with_current_proxy_index i w).
Proof.
  intros Hdead. destruct (select_in_dead_pool w Hdead) as [i E].
  exists i. unfold with_proxy, bind. now rewrite E.
Qed.

End DeadPool.

(** X26.  In a pool where every proxy is marked as not working, and in an
    empty pool, a function decorated by [with_proxy] is not run at all: the
    call raises the exception of [with_proxy], whatever the clock reads and
    whatever the function is, and nothing but the index of the pool has
    changed. *)
Theorem pool_without_working_proxy_refuses_every_call
  (A : Type) (func : string -> M A) (w : World) :
  all_marked_failed w = true ->
  exists i,
    ProxyManager.with_proxy func w
    = Raise NoProxyException (with_current_proxy_index i w).
Proof.
  apply pool_has_no_proxy.
Qed.

Lemma pool_without_working_proxy_refuses_every_call_witness :
  exists i,
    ProxyManager.with_proxy
      (make_request Sample.the_contract (JInt 1) 100) Sample.dead_pool
    = Raise NoProxyException (with_current_proxy_index i Sample.dead_pool).
Proof.
  apply (pool_without_working_proxy_refuses_every_call
           (option ApiResponse.t)
           (make_request Sample.the_contract (JInt 1) 100) Sample.dead_pool).
  reflexivity.
Defined.

(** X27.  With every proxy marked as not working, a crawl of
    [token_holders_service.py] ends with the exception of [with_proxy]
    before its first request: nothing is sent, and the three files of the
    store are what they were. *)
Theorem crawl_without_working_proxy_raises
  (fuel : nat) (c : Contract.t) (limit : Z) (w : World) :
  all_marked_failed w = true ->
  exists w',
    TokenHoldersService._get_holders_async (S fuel) c limit w
    = Raise NoProxyException w'
    /\ sent w' = sent w
    /\ processed_contracts_file w' = processed_contracts_file w
    /\ pending_holders_file w' = pending_holders_file w
    /\ parsing_progress_file w' = parsing_progress_file w.
Proof.
  intros Hdead.
  destruct (service_run_unfolded (S fuel) c limit w) as [n ->].
  unfold bind at 1. cbn [TokenHoldersService.page_loop].
  unfold bind at 1, log, ret. unfold bind at 1.
  unfold _make_async_request.
  destruct (pool_has_no_proxy (option ApiResponse.t)
              (make_request c (JInt 1) limit) (with_clock_reads n w) Hdead)
    as [i ->].
  eexists. split; [reflexivity |]. repeat split.
Qed.

Lemma crawl_without_working_proxy_raises_witness :
  exists w',
    TokenHoldersService._get_holders_async 1 Sample.the_contract 100
      Sample.dead_pool
    = Raise NoProxyException w'
    /\ sent w' = sent Sample.dead_pool
    /\ processed_contracts_file w' = processed_contracts_file Sample.dead_pool
    /\ pending_holders_file w' = pending_holders_file Sample.dead_pool
    /\ parsing_progress_file w' = parsing_progress_file Sample.dead_pool.
Proof.
  apply (crawl_without_working_proxy_raises 0 Sample.the_contract 100
           Sample.dead_pool).
  reflexivity.
Defined.

(* ================================================================== *)
(** * [token_holders_service.py]: what a crawl returns is stored *)
(* ================================================================== *)

Section ReturnedHolders.

Lemma merge_covers_incoming (existing incoming : list TokenHolder.t) :
  incl (map TokenHolder.address incoming)
       (map TokenHolder.address (DBManager.merge_holders existing incoming)).
Proof.
  intros a Ha. apply in_map_iff in Ha. destruct Ha as (h & <- & Hin).
  unfold DBManager.merge_holders. rewrite map_app. apply in_or_app.
  destruct (DBManager.known existing h) eqn:Ek.
  - left. unfold DBManager.known in Ek. apply existsb_exists in Ek.
    destruct Ek as (e & He & Heq). apply String.eqb_eq in Heq.
    rewrite <- Heq. now apply in_map.
  - right. apply in_map. apply filter_In. split; [exact Hin |].
    now rewrite Ek.
Qed.

(** When [upsert] returns, the first record of the address is one that
    [to_dict] wrote, and it has every incoming holder. *)
Lemma upsert_ok_covers (c : ProcessedContract.t) (l : list json) :
  forall (w w' : World) (l' : list json),
  DBManager.upsert c l w = Ok l' w' ->
  exists x,
    first_record (ProcessedContract.address c) l'
    = Some (Some (ProcessedContract.to_dict x))
    /\ ProcessedContract.status x = ProcessedContract.status c
    /\ incl (map TokenHolder.address (ProcessedContract.holders c))
            (map TokenHolder.address (ProcessedContract.holders x)).
Proof.
  induction l as [| e l IH]; intros w w' l' H.
  - cbn [DBManager.upsert] in H. injection H as <- <-.
    exists c. split; [now apply first_record_to_dict |].
    split; [reflexivity | apply incl_refl].
  - destruct e as [| | | | | d]; try discriminate.
    cbn [DBManager.upsert] in H.
    destruct (DBManager.address_is (ProcessedContract.address c) d) eqn:Ed.
    + unfold bind at 1, DBManager.from_dict in H.
      destruct (ProcessedContract.from_dict _ (JDict d)) as [existing |].
      * unfold bind, read_now, ret in H. injection H as <- <-.
        eexists. split; [now apply first_record_to_dict |].
        split; [reflexivity |].
        cbn [ProcessedContract.holders]. apply merge_covers_incoming.
      * unfold ret in H. injection H as <- <-.
        exists c. split; [now apply first_record_to_dict |].
        split; [reflexivity | apply incl_refl].
    + unfold bind in H.
      destruct (DBManager.upsert c l w) as [l1 w1 | |] eqn:E; try discriminate.
      unfold ret in H. injection H as <- <-.
      destruct (IH w w1 l1 E) as (x & Hx & Hs & Hh). exists x.
      split; [| split; [exact Hs | exact Hh]]. cbn [first_record]. now rewrite Ed.
Qed.

(** Whether a holder is stored depends on the record list only. *)
Lemma holder_stored_frame (address holder : string) (w w' : World) :
  stored_list w' = stored_list w ->
  holder_stored address holder w -> holder_stored address holder w'.
Proof.
  unfold holder_stored. rewrite !stored_spec. intros ->.
  intros (pc & E & Hin).
  destruct (stored_list w) as [l |]; [| discriminate].
  destruct (first_record address l) as [[e |] |]; try discriminate.
  destruct (from_dict_clock _ (datetime_now w' (clock_reads w')) e pc E)
    as (pc' & E' & Hh & _).
  exists pc'. split; [exact E' | now rewrite Hh].
Qed.

Lemma holder_stored_quiet (address holder : string) :
  quiet (holder_stored address holder).
Proof.
  intros w H. repeat apply conj; intros v;
    (apply (holder_stored_frame address holder w); [reflexivity | exact H]).
Qed.

(** After a save that returned, on a writable disk, every holder that was
    saved is stored. *)
Lemma save_ok_covers (c : ProcessedContract.t) (s : DbParsingStatus.t)
  (w w' : World) (holder : string) :
  DBManager.save_processed_contract c w = Ok tt w' ->
  disk_writable w = true ->
  DbParsingStatus.of_value (JStr (ParsingStatus.value (ProcessedContract.status c)))
  = Some s ->
  In holder (map TokenHolder.address (ProcessedContract.holders c)) ->
  holder_stored (ProcessedContract.address c) holder w'.
Proof.
  intros H Hw Hs Hin. unfold DBManager.save_processed_contract in H.
  rewrite try_reraise in H. unfold bind at 1 in H.
  destruct (_load_json_returns DBManager.processed_contracts w) as [data E].
  rewrite E in H.
  destruct (Py.get_default "contracts" (JList []) data) as [| | | | l |];
    try discriminate.
  unfold bind at 1 in H.
  pose proof (frame_upsert _ disk_writable_quiet c l w Hw) as Hw1.
  destruct (DBManager.upsert c l w) as [l' w1 | |] eqn:Eup; try discriminate.
  destruct (upsert_ok_covers c l w w1 l' Eup) as (x & Hx & Hsx & Hcov).
  unfold bind at 1 in H. rewrite _save_json_returns, Hw1 in H.
  assert (holder_stored (ProcessedContract.address c) holder
            (DBManager.write DBManager.processed_contracts
               (JDict [("contracts", JList l')]) w1)) as Hst.
  { unfold holder_stored. rewrite stored_spec.
    change (stored_list
              (DBManager.write DBManager.processed_contracts
                 (JDict [("contracts", JList l')]) w1)) with (Some l').
    cbv beta iota. rewrite Hx. rewrite <- Hsx in Hs.
    destruct (contract_read_back_status
                (datetime_now
                   (DBManager.write DBManager.processed_contracts
                      (JDict [("contracts", JList l')]) w1)
                   (clock_reads
                      (DBManager.write DBManager.processed_contracts
                         (JDict [("contracts", JList l')]) w1)))
                x s Hs) as (c' & Ec' & _).
    exists c'. split; [exact Ec' |].
    destruct (contract_read_back _ x c' Ec') as (Ha & _).
    rewrite Ha. now apply Hcov. }
  destruct (ParsingStatus.eqb _ _).
  - match goal with
    | H : DBManager.remove_parsing_progress ?a ?w2 = _ |- _ =>
        destruct (remove_parsing_progress_returns a w2) as (v & Er & _);
        rewrite Er in H
    end.
    injection H as <-.
    apply (holder_stored_frame _ _
             (DBManager.write DBManager.processed_contracts
                (JDict [("contracts", JList l')]) w1)); [reflexivity | exact Hst].
  - unfold ret in H. injection H as <-. exact Hst.
Qed.

(** The record that [_save_holders] builds has every holder of the
    page list. *)
Lemma snapshot_covers (existing : list TokenHolder.t) (all : list Item)
  (item : Item) :
  In item all ->
  In (item_address item)
     (map TokenHolder.address
        (existing
         ++ map (fun holder => TokenHolder.Models (item_address holder) "0")
              (filter (is_new existing) all))).
Proof.
  intros Hin. rewrite map_app. apply in_or_app.
  destruct (is_new existing item) eqn:En.
  - right. rewrite map_map. cbn [TokenHolder.address].
    apply in_map_iff. exists item. split; [reflexivity |].
    apply filter_In. now split.
  - left. unfold is_new in En. apply negb_false_iff in En.
    apply existsb_exists in En. destruct En as (e & He & Heq).
    apply String.eqb_eq in Heq. rewrite <- Heq. now apply in_map.
Qed.

End ReturnedHolders.

(** X28.  Every holder that a crawl of [token_holders_service.py] returns
    is stored: when [_get_holders_async] returns on a writable disk, the
    address of each item of its result is among the holders of the record
    that [processed_contracts.json] has for the contract. *)
Theorem service_stores_what_it_returns
  (fuel : nat) (c : Contract.t) (limit : Z) (w w' : World) (res : list Item)
  (item : Item) :
  disk_writable w = true ->
  TokenHoldersService._get_holders_async fuel c limit w = Ok res w' ->
  In item res ->
  holder_stored (Contract.address c) (item_address item) w'.
Proof.
  intros Hw H Hitem.
  destruct (service_run_unfolded fuel c limit w) as [n E]. rewrite E in H.
  clear E. unfold bind at 1 in H.
  pose proof (frame_service_page_loop _ disk_writable_quiet
                (fun _ _ H => H) (fun _ _ H => H) fuel c limit
                (existing_holders (Contract.address c) w) [] (JInt 1)
                (with_clock_reads n w) Hw) as Hw1.
  destruct (TokenHoldersService.page_loop fuel c limit _ [] (JInt 1)
              (with_clock_reads n w)) as [all w1 | |]; try discriminate.
  unfold bind at 1 in H.
  assert (exists w2,
            TokenHoldersService._save_holders c all
              (existing_holders (Contract.address c) w)
              TokenHoldersService.COMPLETED w1 = Ok tt w2
            /\ Ok all w2 = Ok res w') as (w2 & Hsave & Hres).
  { destruct all as [| i all];
      [destruct (existing_holders (Contract.address c) w) as [| h t] eqn:Ex |].
    - unfold ret in H. injection H as <- <-. destruct Hitem.
    - destruct (TokenHoldersService._save_holders c [] (h :: t) _ w1)
        as [[] w2 | |]; try discriminate. exists w2. auto.
    - destruct (TokenHoldersService._save_holders c (i :: all) _ _ w1)
        as [[] w2 | |]; try discriminate. exists w2. auto. }
  injection Hres as <- <-. clear H.
  unfold TokenHoldersService._save_holders in Hsave.
  unfold bind at 1, read_now in Hsave. unfold bind at 1 in Hsave.
  match type of Hsave with
  | context [DBManager.save_processed_contract ?pc ?w1'] =>
      destruct (DBManager.save_processed_contract pc w1') as [[] w3 | |] eqn:Es;
        try discriminate;
      pose proof (save_ok_covers pc DbParsingStatus.COMPLETED w1' w3
                    (item_address item) Es Hw1 eq_refl
                    (snapshot_covers _ all item Hitem)) as Hst
  end.
  cbn [ProcessedContract.address] in Hst.
  unfold bind at 1 in Hsave.
  match type of Hsave with
  | context [match ?m w3 with _ => _ end] =>
      assert (keeps (holder_stored (Contract.address c) (item_address item)) m)
        as Hk;
        [| specialize (Hk w3 Hst); destruct (m w3) as [[] w4 | |];
           try discriminate]
  end.
  { destruct (map _ _); [apply keeps_ret |].
    apply frame_add_pending_holders. apply holder_stored_quiet. }
  unfold log, ret in Hsave. injection Hsave as <-. exact Hk.
Qed.

Lemma service_stores_what_it_returns_witness :
  exists w,
    TokenHoldersService._get_holders_async 3 Sample.the_contract 100
      (Sample.interrupted_crawl Sample.healthy)
    = Ok [ItemStr "0x1"; ItemStr "0x2"; ItemStr "0x3"] w
    /\ holder_stored "0xABC" "0x3" w.
Proof.
  eexists. split; [vm_compute; reflexivity |].
  apply (service_stores_what_it_returns 3 Sample.the_contract 100
           (Sample.interrupted_crawl Sample.healthy)
           _ [ItemStr "0x1"; ItemStr "0x2"; ItemStr "0x3"] (ItemStr "0x3"));
    [reflexivity | vm_compute; reflexivity | right; right; left; reflexivity].
Defined.

(* ================================================================== *)
(** * [token_holders_service.py]: the first request of a crawl *)
(* ================================================================== *)

Section FirstRequest.

Variable s : list Request.
Variable c : Contract.t.
Variable limit : Z.

Lemma sent_is_quiet : quiet (fun w => sent w = s).
Proof. intros w H. repeat apply conj; intros v; exact H. Qed.

Lemma sent_after_quiet (pre : list Request) : quiet (sent_after pre).
Proof. intros w H. repeat apply conj; intros v; exact H. Qed.

Lemma sent_after_records (pre : list Request) : ignores_records (sent_after pre).
Proof. intros w v H. exact H. Qed.

Lemma first_request_asks_quiet (page address : string) :
  quiet (first_request_asks s page address).
Proof. intros w H. repeat apply conj; intros v; exact H. Qed.

Lemma first_request_asks_records (page address : string) :
  ignores_records (first_request_asks s page address).
Proof. intros w v H. exact H. Qed.

Lemma keeps_returning {A : Type} (I : World -> Prop) (m : M A) :
  keeps I m -> triple I m (fun _ => I) (fun _ => True).
Proof. intros H. eapply triple_consequence; [exact H | auto | auto | auto]. Qed.

(** Requests are only ever added at the end. *)
Lemma make_request_appends (pre : list Request) (page : json) (u : string) :
  keeps (sent_after pre) (make_request c page limit u).
Proof.
  unfold make_request.
  destruct (Contract.chain_id c) as [id |]; [| apply keeps_ret].
  apply keeps_if; [apply keeps_ret |].
  apply keeps_bind;
    [apply frame_get_next_key, sent_after_quiet | intros [key |]];
    [| apply keeps_ret].
  apply keeps_if; [apply keeps_ret |].
  apply keeps_bind.
  - intros w [rest H]. unfold session_get.
    match goal with
    | |- context [with_sent (sent w ++ [?r])] => exists (rest ++ [r])%list
    end.
    cbn [sent with_sent]. now rewrite H, app_assoc.
  - intros [| status body];
      (apply keeps_bind; [apply keeps_log | intros ?; apply keeps_ret]).
Qed.

Lemma make_async_request_appends (pre : list Request) (page : json) :
  keeps (sent_after pre) (_make_async_request c page limit).
Proof.
  apply frame_with_proxy; [apply sent_after_quiet |].
  intros u. apply make_request_appends.
Qed.

Lemma page_loop_appends (pre : list Request) (fuel : nat)
  (existing : list TokenHolder.t) :
  forall (all : list Item) (page : json),
    keeps (sent_after pre)
      (TokenHoldersService.page_loop fuel c limit existing all page).
Proof.
  pose proof (sent_after_quiet pre) as Hq.
  pose proof (sent_after_records pre) as Hr.
  induction fuel as [| fuel IH]; intros all page;
    cbn [TokenHoldersService.page_loop]; [intros w H; trivial |].
  apply keeps_bind; [apply keeps_log | intros ?].
  apply keeps_bind; [apply make_async_request_appends | intros [r |]].
  - apply keeps_if.
    + apply keeps_bind; [apply keeps_log | intros ?].
      apply keeps_bind; [now apply frame_service_save_progress | intros ?].
      apply keeps_ret.
    + apply keeps_bind; [now apply frame_service_save_progress | intros ?].
      apply keeps_bind; [now apply frame_service_save_holders | intros ?].
      apply keeps_if; [apply keeps_ret | apply IH].
  - apply keeps_bind; [apply keeps_log | intros ?].
    apply keeps_bind; [now apply frame_service_save_progress | intros ?].
    apply keeps_ret.
Qed.

Lemma one_request_quiet (page : json) (response : option ApiResponse.t) :
  quiet (one_request s (Contract.address c) page response).
Proof. intros w H. repeat apply conj; intros v; exact H. Qed.

Lemma first_make_request (page : json) (u : string) :
  triple (fun w => sent w = s) (make_request c page limit u)
    (one_request s (Contract.address c) page) (fun _ => True).
Proof.
  intros w Hs. unfold make_request.
  destruct (Contract.chain_id c) as [id |]; [| left; now split].
  destruct (String.eqb id ""); [left; now split |].
  unfold bind at 1, ApiKeyManager.get_next_key.
  destruct (api_keys w) as [| k0 ks]; [left; now split |].
  destruct (nth_error (k0 :: ks) (key_index w)) as [key |];
    [| left; now split].
  destruct (String.eqb key ""); [left; now split |].
  unfold bind at 1, session_get. cbn [sent network with_key_index].
  match goal with
  | |- context [network w ?i ?r] => destruct (network w i r) as [| status body]
  end;
    (right; eexists; cbn [sent with_sent]; rewrite Hs;
     split; [reflexivity | split; reflexivity]).
Qed.

Lemma first_make_async_request (page : json) :
  triple (fun w => sent w = s) (_make_async_request c page limit)
    (one_request s (Contract.address c) page) (fun _ => True).
Proof.
  unfold _make_async_request, ProxyManager.with_proxy.
  eapply triple_bind.
  - apply keeps_returning.
    apply (frame_get_next_available_proxy _ sent_is_quiet).
  - intros [u |]; [| intros w H; exact I].
    destruct (String.eqb u ""); [intros w H; exact I |].
    eapply triple_try with (R' := fun _ => True).
    + eapply triple_bind; [apply first_make_request | intros response].
      eapply triple_bind.
      * apply keeps_returning.
        apply (frame_handle_proxy_success _ (one_request_quiet page response)).
      * intros ? w H. exact H.
    + intros e w _. unfold bind.
      destruct (ProxyManager._handle_proxy_error u w); exact I.
Qed.

(** The first request of the loop, when there is one, asks for the page the
    loop was started at. *)
Lemma first_page_loop (fuel : nat) (existing : list TokenHolder.t)
  (all : list Item) (page : json) :
  triple (fun w => sent w = s)
    (TokenHoldersService.page_loop fuel c limit existing all page)
    (fun _ => first_request_asks s (Py.str page) (Contract.address c))
    (fun _ => True).
Proof.
  destruct fuel as [| fuel]; [intros w _; exact I |].
  cbn [TokenHoldersService.page_loop].
  eapply triple_bind; [apply triple_log | intros ?].
  eapply triple_bind; [apply first_make_async_request | intros response].
  intros w1 [[E Hs] | (r & Hs & Hp & Ha)].
  - rewrite E. cbv beta iota.
    match goal with
    | |- match ?k w1 with _ => _ end =>
        assert (keeps (first_request_asks s (Py.str page) (Contract.address c)) k)
          as Hk
    end.
    { apply keeps_bind; [apply keeps_log | intros ?].
      apply keeps_bind; [| intros ?; apply keeps_ret].
      apply frame_service_save_progress, first_request_asks_quiet. }
    specialize (Hk w1 (or_introl Hs)).
    match goal with
    | |- match ?k w1 with _ => _ end => destruct (k w1); [exact Hk | exact I | exact I]
    end.
  - pose proof (sent_after_quiet (s ++ [r])) as Hq.
    pose proof (sent_after_records (s ++ [r])) as Hr.
    match goal with
    | |- match ?k w1 with _ => _ end =>
        assert (keeps (sent_after (s ++ [r])) k) as Hk
    end.
    { destruct response as [r0 |].
      - apply keeps_if.
        + apply keeps_bind; [apply keeps_log | intros ?].
          apply keeps_bind; [now apply frame_service_save_progress | intros ?].
          apply keeps_ret.
        + apply keeps_bind; [now apply frame_service_save_progress | intros ?].
          apply keeps_bind; [now apply frame_service_save_holders | intros ?].
          apply keeps_if; [apply keeps_ret | apply page_loop_appends].
      - apply keeps_bind; [apply keeps_log | intros ?].
        apply keeps_bind; [now apply frame_service_save_progress | intros ?].
        apply keeps_ret. }
    assert (sent_after (s ++ [r]) w1) as H1
      by (exists []; now rewrite app_nil_r).
    specialize (Hk w1 H1).
    match goal with
    | |- match ?k w1 with _ => _ end =>
        destruct (k w1) as [res1 w2 | |]; [| exact I | exact I]
    end.
    destruct Hk as [rest Hrest]. right. exists r, rest.
    split; [now rewrite Hrest, <- app_assoc | now split].
Qed.

End FirstRequest.

(** X29.  A crawl of [token_holders_service.py] never resumes: whatever
    progress and whatever record the store holds for the contract, the first
    request of a run of [_get_holders_async] that returns, if it sends one
    at all, asks for page 1 of the contract. *)
Theorem service_crawl_starts_at_page_1
  (fuel : nat) (c : Contract.t) (limit : Z) (w w' : World) (res : list Item) :
  TokenHoldersService._get_holders_async fuel c limit w = Ok res w' ->
  first_request_asks (sent w) "1" (Contract.address c) w'.
Proof.
  intros H.
  destruct (service_run_unfolded fuel c limit w) as [n E]. rewrite E in H.
  clear E. unfold bind at 1 in H.
  pose proof (first_page_loop (sent w) c limit fuel
                (existing_holders (Contract.address c) w) [] (JInt 1)
                (with_clock_reads n w) eq_refl) as HT.
  destruct (TokenHoldersService.page_loop fuel c limit _ [] (JInt 1)
              (with_clock_reads n w)) as [all w1 | |]; try discriminate.
  change (Py.str (JInt 1)) with "1"%string in HT.
  unfold bind at 1 in H.
  match type of H with
  | context [match ?m w1 with _ => _ end] =>
      assert (keeps (first_request_asks (sent w) "1" (Contract.address c)) m)
        as Hk;
        [| specialize (Hk w1 HT); destruct (m w1) as [[] w2 | |];
           try discriminate]
  end.
  { destruct all; [destruct (existing_holders _ _) |];
      try apply keeps_ret;
      (apply frame_service_save_holders;
         [apply first_request_asks_quiet | apply first_request_asks_records]). }
  unfold ret in H. injection H as _ <-. exact Hk.
Qed.

Lemma service_crawl_starts_at_page_1_witness :
  exists w,
    TokenHoldersService._get_holders_async 3 Sample.the_contract 100
      (Sample.interrupted_crawl Sample.healthy)
    = Ok [ItemStr "0x1"; ItemStr "0x2"; ItemStr "0x3"] w
    /\ first_request_asks (sent (Sample.interrupted_crawl Sample.healthy))
         "1" "0xABC" w.
Proof.
  eexists. split; [vm_compute; reflexivity |].
  apply (service_crawl_starts_at_page_1 3 Sample.the_contract 100
           (Sample.interrupted_crawl Sample.healthy)
           _ [ItemStr "0x1"; ItemStr "0x2"; ItemStr "0x3"]).
  vm_compute; reflexivity.
Defined.
